(** * ScriptJelly: a shallow embedding of the DOM utility functions

    The repository is a set of independent browser scripts.  Each one probes
    the host for the newest API it can use and falls back to older ones.
    This development embeds the functions the specification talks about:

    - [At]              : src/array/At.js            (arrayAtPolyfill)
    - [RemoveChildren]  : src/unnamed/part_000       (removeChildren)
    - [GetAllComments]  : src/comment/GetAllComments.js
    - [ClassParam], [ContainsCSSClass], [AddCSSClass] : src/class/*.js
    - [ReplaceNode]     : src/replace/ReplaceNode.js (byDirectReplace)

    JavaScript values are modelled by small inductive types, exceptions by an
    explicit outcome type, and the host (the browser's DOM) by records whose
    fields are the properties the scripts read and write. *)

From Stdlib Require Import ZArith QArith Qround List String Ascii Bool Lia.
Import ListNotations.

Local Open Scope Z_scope.

Set Warnings "-register-all".

(* ================================================================= *)
(** ** JavaScript basics shared by all scripts *)

Module JS.

(** A JavaScript Number.  Finite values are rationals: every double is a
    rational, and the scripts only compare, floor, ceil and add them. *)
Inductive Number : Type :=
| NaN
| PosInf
| NegInf
| Fin (q : Q).

(** The exceptions the scripts raise. *)
Inductive Exn : Type :=
| TypeError
| RangeError
| ReferenceError
| SyntaxError
| InvalidCharacterError.

(** Primitive values (objects are modelled per script). *)
Inductive Prim : Type :=
| PUndefined
| PNull
| PBool (b : bool)
| PNum (n : Number)
| PStr (s : string).

(** The result of running a function body: a returned value or a thrown
    exception. *)
Inductive Outcome (A : Type) : Type :=
| Return (a : A)
| Throw (e : Exn).
Arguments Return {A} a.
Arguments Throw {A} e.

Definition bind {A B} (m : Outcome A) (k : A -> Outcome B) : Outcome B :=
  match m with
  | Return a => k a
  | Throw e => Throw e
  end.

(** [isNaN(x)] *)
Definition isNaN (x : Number) : bool :=
  match x with NaN => true | _ => false end.

(** [a < b] on Numbers; any comparison with NaN is false. *)
Definition lt (a b : Number) : bool :=
  match a, b with
  | NaN, _ | _, NaN => false
  | PosInf, _ => false
  | _, NegInf => false
  | NegInf, _ => true
  | _, PosInf => true
  | Fin x, Fin y => negb (Qle_bool y x)
  end.

(** [a >= b] on Numbers. *)
Definition ge (a b : Number) : bool :=
  match a, b with
  | NaN, _ | _, NaN => false
  | PosInf, _ => true
  | _, NegInf => true
  | NegInf, _ => false
  | _, PosInf => false
  | Fin x, Fin y => Qle_bool y x
  end.

(** [a + b] on Numbers. *)
Definition add (a b : Number) : Number :=
  match a, b with
  | NaN, _ | _, NaN => NaN
  | PosInf, NegInf | NegInf, PosInf => NaN
  | PosInf, _ | _, PosInf => PosInf
  | NegInf, _ | _, NegInf => NegInf
  | Fin x, Fin y => Fin (x + y)
  end.

(** [Math.floor] and [Math.ceil]. *)
Definition floor (x : Number) : Number :=
  match x with Fin q => Fin (inject_Z (Qfloor q)) | _ => x end.

Definition ceil (x : Number) : Number :=
  match x with Fin q => Fin (inject_Z (Qceiling q)) | _ => x end.

(** Truthiness of a Number: [0] and [NaN] are falsy. *)
Definition truthyNum (x : Number) : bool :=
  match x with
  | NaN => false
  | Fin q => negb (Qeq_bool q 0)
  | _ => true
  end.

Definition truthy (v : Prim) : bool :=
  match v with
  | PUndefined | PNull => false
  | PBool b => b
  | PNum n => truthyNum n
  | PStr s => negb (String.eqb s EmptyString)
  end.

Definition ofZ (z : Z) : Number := Fin (inject_Z z).

End JS.

(* ================================================================= *)
(** ** Strings and the regular expressions of the scripts *)

Module Text.

(** Strings are sequences of code units below 256. *)
Definition chars (s : string) : list ascii := list_ascii_of_string s.
Definition text (l : list ascii) : string := string_of_list_ascii l.

Definition code (c : ascii) : nat := nat_of_ascii c.

(** The class [[\s\uFEFF\xA0]] on these code units: tab, line feed,
    vertical tab, form feed, carriage return, space, no-break space.
    The characters beyond U+00FF that the class matches as well (U+1680,
    U+2000 to U+200A, U+2028, U+2029, U+202F, U+205F, U+3000, U+FEFF)
    cannot occur in a string of this model: what is proved of class
    attributes and class strings is proved of those made of code units
    below 256. *)
Definition isSpace (c : ascii) : bool :=
  let k := code c in
  ((9 <=? k) && (k <=? 13) || (k =? 32) || (k =? 160))%nat%bool.

(** The class [\w]: [[A-Za-z0-9_]]. *)
Definition isWordChar (c : ascii) : bool :=
  let k := code c in
  ((65 <=? k) && (k <=? 90) || (97 <=? k) && (k <=? 122)
   || (48 <=? k) && (k <=? 57) || (k =? 95))%nat%bool.

Definition isLetterOrUnderscore (c : ascii) : bool :=
  let k := code c in
  ((65 <=? k) && (k <=? 90) || (97 <=? k) && (k <=? 122) || (k =? 95))%nat%bool.

Definition isHyphen (c : ascii) : bool := (code c =? 45)%nat.

Fixpoint dropSpaces (l : list ascii) : list ascii :=
  match l with
  | c :: r => if isSpace c then dropSpaces r else l
  | [] => []
  end.

(** [s.trim()] *)
Definition trim (s : string) : string :=
  text (rev (dropSpaces (rev (dropSpaces (chars s))))).

(** [s.split(/[\s\uFEFF\xA0]+/)]: the pieces between the maximal runs of
    white space; a run at either end leaves an empty piece there, and the
    empty string splits into one empty piece. *)
Fixpoint splitFrom (l : list ascii) (piece : list ascii) (inRun : bool)
  : list string :=
  match l with
  | [] => [text (rev piece)]
  | c :: r =>
      if isSpace c then
        if inRun then splitFrom r piece true
        else text (rev piece) :: splitFrom r [] true
      else splitFrom r (c :: piece) false
  end.

Definition split (s : string) : list string := splitFrom (chars s) [] false.

(** [/[\s\uFEFF\xA0]/.test(s)] *)
Definition hasSpace (s : string) : bool := existsb isSpace (chars s).

(** [/[\s\uFEFF\xA0]$/.test(s)] *)
Definition endsWithSpace (s : string) : bool :=
  match rev (chars s) with
  | c :: _ => isSpace c
  | [] => false
  end.

(** [s.replace(/\0/g, '')] *)
Definition removeNul (s : string) : string :=
  text (filter (fun c => negb (code c =? 0)%nat) (chars s)).

(** [s.replace(/[\s\uFEFF\xA0]{2,}/, " ")]: the first run of two or more
    white-space characters becomes one space (the expression has no [g]
    flag). *)
Fixpoint collapseFirstRun (l : list ascii) : list ascii :=
  match l with
  | a :: ((b :: _) as r) =>
      if (isSpace a && isSpace b)%bool then " "%char :: dropSpaces r
      else a :: collapseFirstRun r
  | _ => l
  end.

Definition collapse (s : string) : string := text (collapseFirstRun (chars s)).

(** [/^\-?[a-zA-Z_]{1}[\w\-]*$/.test(s)]: a class name of CSS 1 and 2. *)
Definition isCss2Name (s : string) : bool :=
  let body (l : list ascii) :=
    match l with
    | c :: r =>
        (isLetterOrUnderscore c
         && forallb (fun x => isWordChar x || isHyphen x) r)%bool
    | [] => false
    end in
  match chars s with
  | c :: r => if isHyphen c then body r else body (c :: r)
  | [] => false
  end.

(** ASCII white space, which separates the tokens of a [class] attribute:
    tab, line feed, form feed, carriage return, space. *)
Definition isAsciiSpace (c : ascii) : bool :=
  let k := code c in
  ((k =? 9) || (k =? 10) || (k =? 12) || (k =? 13) || (k =? 32))%nat%bool.

Fixpoint tokensFrom (l : list ascii) (piece : list ascii) : list string :=
  let flush (rest : list string) :=
    match piece with [] => rest | _ => text (rev piece) :: rest end in
  match l with
  | [] => flush []
  | c :: r =>
      if isAsciiSpace c then flush (tokensFrom r [])
      else tokensFrom r (c :: piece)
  end.

(** The tokens of an attribute value (the entries of a DOMTokenList). *)
Definition tokens (s : string) : list string := tokensFrom (chars s) [].

(** The first occurrence of each string (a DOMTokenList is an ordered
    set). *)
Fixpoint dedupe (l : list string) : list string :=
  match l with
  | [] => []
  | x :: r => x :: filter (fun y => negb (String.eqb x y)) (dedupe r)
  end.

(** The tokens joined by single spaces (the value a DOMTokenList writes
    back). *)
Fixpoint join (l : list string) : string :=
  match l with
  | [] => EmptyString
  | [x] => x
  | x :: r => (x ++ " " ++ join r)%string
  end.

(** *** A RegExp engine for literal patterns *)

(** [\b] between the characters [before] and [after] ([None] at an end of
    the string): exactly one of them is a word character. *)
Definition boundary (before after : option ascii) : bool :=
  let w (o : option ascii) :=
    match o with Some c => isWordChar c | None => false end in
  xorb (w before) (w after).

Definition lower (c : ascii) : ascii :=
  let k := code c in
  if ((65 <=? k) && (k <=? 90))%nat%bool then ascii_of_nat (k + 32) else c.

Section Engine.
Variable ignoreCase : bool.

Definition sameChar (a b : ascii) : bool :=
  if ignoreCase then Ascii.eqb (lower a) (lower b) else Ascii.eqb a b.

(** The rest of [l] after the literal [pat], with the last character read. *)
Fixpoint afterLiteral (pat l : list ascii) (prev : option ascii)
  : option (option ascii * list ascii) :=
  match pat with
  | [] => Some (prev, l)
  | p :: pat' =>
      match l with
      | c :: r => if sameChar p c then afterLiteral pat' r (Some c) else None
      | [] => None
      end
  end.

(** Does [\b]? literal [\b]? match at the start of [l], which [prev]
    precedes? *)
Definition matchesHere (left right : bool) (pat : list ascii)
    (prev : option ascii) (l : list ascii) : bool :=
  ((negb left || boundary prev (hd_error l))
   && match afterLiteral pat l prev with
      | Some (last, rest) => negb right || boundary last (hd_error rest)
      | None => false
      end)%bool.

Fixpoint matchesFrom (left right : bool) (pat : list ascii)
    (prev : option ascii) (l : list ascii) : bool :=
  (matchesHere left right pat prev l
   || match l with
      | c :: r => matchesFrom left right pat (Some c) r
      | [] => false
      end)%bool.

End Engine.

(** The characters with a meaning of their own in a pattern. *)
Definition isMeta (c : ascii) : bool :=
  existsb (Ascii.eqb c) (chars "\^$.|?*+()[]{}").

Definition stripPrefixB (l : list ascii) : bool * list ascii :=
  match l with
  | "\"%char :: "b"%char :: r => (true, r)
  | _ => (false, l)
  end.

(** [new RegExp(pattern, flags).test] for a pattern that is a literal text,
    possibly between two [\b], and the flags [""] and ["i"].  The engine
    knows no other pattern: it answers [None] there. *)
Definition literalRegExp (pattern flags : string)
  : option (string -> bool) :=
  let (left, l1) := stripPrefixB (chars pattern) in
  let (right, l2) :=
    match rev l1 with
    | "b"%char :: "\"%char :: r => (true, rev r)
    | _ => (false, l1)
    end in
  if existsb isMeta l2 then None
  else
    match flags with
    | EmptyString =>
        Some (fun subject => matchesFrom false left right l2 None (chars subject))
    | String "i" EmptyString =>
        Some (fun subject => matchesFrom true left right l2 None (chars subject))
    | _ => None
    end.

End Text.

(* ================================================================= *)
(** ** src/array/At.js *)

Module At.
Import JS.

(** An Array or Array-like object: its [length] property, a Number or
    absent ([None], so that [typeof length] is ["undefined"]), and its
    entries under the integer property keys.  Keys that are not integers
    name no entry.  A [length] of another type (a string, an object) is
    outside the model. *)
Record ArrayLike : Type := mkArrayLike {
  al_length : option Number;
  al_elems : Z -> Prim
}.

(** What can be passed as [targetObj] (the [this] of [at]). *)
Inductive Target : Type :=
| TUndefined
| TNull
| TObj (o : ArrayLike).

(** A genuine Array holding the entries of [l]. *)
Definition ofList (l : list Prim) : ArrayLike :=
  {| al_length := Some (ofZ (Z.of_nat (List.length l)));
     al_elems := fun k =>
       if k <? 0 then PUndefined else nth (Z.to_nat k) l PUndefined |}.

(** [targetObj[index]] for a Number [index]: the property key is the
    decimal rendering of the Number, so only integer values reach an
    entry. *)
Definition getIndex (o : ArrayLike) (index : Number) : Prim :=
  match index with
  | Fin q =>
      if Qeq_bool q (inject_Z (Qfloor q)) then al_elems o (Qfloor q)
      else PUndefined
  | _ => PUndefined
  end.

(** [checkTargetObj]: throws on [undefined] and [null], otherwise tells
    whether [length] is a Number. *)
Definition checkTargetObj (targetObj : Target) : Outcome bool :=
  match targetObj with
  | TUndefined | TNull => Throw TypeError
  | TObj o =>
      Return (match al_length o with Some _ => true | None => false end)
  end.

(** [checkIndex] reassigns the captured variable [index]; the model returns
    the verdict together with the new value of [index].  [index] is the
    argument after [Number(index)], [len] is [targetObj.length]. *)
Definition checkIndex (len : Number) (parentArgLen : nat) (index : Number)
  : bool * Number :=
  if (Nat.eqb parentArgLen 0 || isNaN index)%bool then
    if truthyNum len then (true, ofZ 0) else (false, index)
  else if ge index (ofZ 0) then
    if lt index len then (true, floor index) else (false, index)
  else
    let index' := add len (ceil index) in
    (ge index' (ofZ 0), index').

(** [arrayAtPolyfill(targetObj, parentArgLen, index)].  The third argument
    is given after the conversion [Number(index)] that [checkIndex] applies
    first; a missing or [undefined] argument converts to [NaN]. *)
Definition arrayAtPolyfill (targetObj : Target) (parentArgLen : nat)
    (index : Number) : Outcome Prim :=
  bind (checkTargetObj targetObj) (fun okTarget =>
    if okTarget then
      match targetObj with
      | TObj o =>
          match al_length o with
          | Some len =>
              let '(okIndex, index') := checkIndex len parentArgLen index in
              Return (if okIndex then getIndex o index' else PUndefined)
          | None => Return PUndefined
          end
      | _ => Return PUndefined
      end
    else Return PUndefined).

(** The method installed on [Array.prototype] when the native one is
    absent: [function(index) { return arrayAtPolyfill(this,
    arguments.length, index); }].  [this] is the object the method is
    called on (the script is not in strict mode, so [this] is always an
    object there), [args] are the call's arguments, each already converted
    by [Number]; [installed_at_args] below takes the arguments as they
    are passed and converts them as the script does. *)
Definition installed_at (this : ArrayLike) (args : list Number)
  : Outcome Prim :=
  arrayAtPolyfill (TObj this) (List.length args) (hd NaN args).

(** *** The reference definition (ECMAScript, Array.prototype.at) *)

(** An integer or an infinity, the range of [ToIntegerOrInfinity]. *)
Inductive IntInf : Type :=
| IInt (z : Z)
| IPos
| INeg.

(** Truncation toward zero of a rational. *)
Definition Qtrunc (q : Q) : Z :=
  if Qle_bool 0 q then Qfloor q else Qceiling q.

Definition ToIntegerOrInfinity (x : Number) : IntInf :=
  match x with
  | NaN => IInt 0
  | PosInf => IPos
  | NegInf => INeg
  | Fin q => IInt (Qtrunc q)
  end.

(** [ToLength]: clamps into [0, 2^53 - 1]. *)
Definition ToLength (x : Number) : Z :=
  match ToIntegerOrInfinity x with
  | INeg => 0
  | IPos => 2 ^ 53 - 1
  | IInt z => Z.min (Z.max z 0) (2 ^ 53 - 1)
  end.

(** Reference definition, following the standard's steps for an object
    [O]: 2. [len = LengthOfArrayLike(O)];
    3. [relativeIndex = ToIntegerOrInfinity(index)];
    4.-5. [k = relativeIndex] if it is [>= 0], else [len + relativeIndex];
    6. [undefined] if [k < 0] or [k >= len];  7. [Get(O, ToString(k))].
    An absent [length] converts to [NaN], hence to a length of 0.  The
    arguments are Numbers, as after the ToNumber of step 3;
    [reference_at_args] below takes them as they are passed. *)
Definition reference_at (O : ArrayLike) (args : list Number)
  : Outcome Prim :=
  let len :=
    match al_length O with
    | Some lenN => ToLength lenN
    | None => 0
    end in
  match ToIntegerOrInfinity (hd NaN args) with
  | IPos | INeg => Return PUndefined
  | IInt r =>
      let k := if 0 <=? r then r else len + r in
      if ((k <? 0) || (len <=? k))%bool then Return PUndefined
      else Return (al_elems O k)
  end.

(** *** The index argument before its conversion *)

(** An argument passed as [index], by what its conversion to a Number
    does.  The polyfill converts with the call [Number(index)], the
    standard with the abstract operation ToNumber; the two differ on a
    BigInt only. *)
Inductive Arg : Type :=
| ANumeric (n : Number)
    (* a Number, [undefined], [null], a Boolean, a string, or an object
       whose primitive value is one of these: both conversions give [n] *)
| ABigInt (n : Number)
    (* a BigInt, or an object whose primitive value is one; [n] is the
       Number the call [Number(index)] gives for it *)
| AThrows (e : Exn).
    (* a Symbol (a TypeError), or an object whose conversion to a
       primitive throws [e] *)

(** A missing argument reads as [undefined], which converts to [NaN]. *)
Definition AUndefined : Arg := ANumeric NaN.

(** The call [Number(index)]. *)
Definition NumberCall (index : Arg) : Outcome Number :=
  match index with
  | ANumeric n => Return n
  | ABigInt n => Return n
  | AThrows e => Throw e
  end.

(** The abstract operation ToNumber of the standard. *)
Definition ToNumber (index : Arg) : Outcome Number :=
  match index with
  | ANumeric n => Return n
  | ABigInt _ => Throw TypeError
  | AThrows e => Throw e
  end.

(** [arrayAtPolyfill] on the argument as passed:
    [checkTargetObj() && checkIndex()] converts [index], as the first
    statement of [checkIndex], only after [checkTargetObj] has returned
    true. *)
Definition arrayAtPolyfillArg (targetObj : Target) (parentArgLen : nat)
    (index : Arg) : Outcome Prim :=
  bind (checkTargetObj targetObj) (fun okTarget =>
    if okTarget then
      bind (NumberCall index) (fun n =>
        arrayAtPolyfill targetObj parentArgLen n)
    else Return PUndefined).

(** The installed method called with the arguments [args]. *)
Definition installed_at_args (this : ArrayLike) (args : list Arg)
  : Outcome Prim :=
  arrayAtPolyfillArg (TObj this) (List.length args) (hd AUndefined args).

(** The reference definition called with the arguments [args]: step 3,
    [ToIntegerOrInfinity(index)], begins with [ToNumber(index)]. *)
Definition reference_at_args (O : ArrayLike) (args : list Arg)
  : Outcome Prim :=
  bind (ToNumber (hd AUndefined args)) (fun n => reference_at O [n]).

End At.

(* ================================================================= *)
(** ** The host: a document tree *)

Module Dom.
Import JS.

(** [nodeType] constants of the DOM. *)
Definition ELEMENT_NODE : Z := 1.
Definition ATTRIBUTE_NODE : Z := 2.
Definition TEXT_NODE : Z := 3.
Definition CDATA_SECTION_NODE : Z := 4.
Definition PROCESSING_INSTRUCTION_NODE : Z := 7.
Definition COMMENT_NODE : Z := 8.
Definition DOCUMENT_NODE : Z := 9.
Definition DOCUMENT_TYPE_NODE : Z := 10.
Definition DOCUMENT_FRAGMENT_NODE : Z := 11.

(** A node of the tree.  [nodeId] is the identity of the object (two
    references are the same node when their ids are equal), [props] lists
    the property names [p] for which [p in node] holds in the host at
    hand, [nodeData] is the character data of a Text or Comment node (the
    value of an Attr), and [childNodes] is the list of children in document
    order. *)
Inductive Node : Type := mkNode {
  nodeId : nat;
  nodeType : Z;
  props : list string;
  nodeData : string;
  childNodes : list Node
}.

Definition setChildren (n : Node) (l : list Node) : Node :=
  mkNode (nodeId n) (nodeType n) (props n) (nodeData n) l.

Definition setData (n : Node) (d : string) : Node :=
  mkNode (nodeId n) (nodeType n) (props n) d (childNodes n).

(** [name in node] *)
Definition has (name : string) (n : Node) : bool :=
  existsb (String.eqb name) (props n).

(** [node.firstChild], [node.lastChild]; [None] is [null]. *)
Definition firstChild (n : Node) : option Node := hd_error (childNodes n).

Definition lastChild (n : Node) : option Node :=
  hd_error (rev (childNodes n)).

(** [node.childNodes[i]]; [None] is [undefined]. *)
Definition item (n : Node) (i : Z) : option Node :=
  if i <? 0 then None else nth_error (childNodes n) (Z.to_nat i).

(** [node.childNodes.length] *)
Definition length (n : Node) : Z := Z.of_nat (List.length (childNodes n)).

Definition sameNode (a b : Node) : bool := Nat.eqb (nodeId a) (nodeId b).

(** The node after (before) [c] among [l]: the sibling pointers of a
    child are read off its parent's list of children. *)
Fixpoint nextIn (c : Node) (l : list Node) : option Node :=
  match l with
  | [] => None
  | x :: r => if sameNode x c then hd_error r else nextIn c r
  end.

Fixpoint prevIn (c : Node) (prev : option Node) (l : list Node)
  : option Node :=
  match l with
  | [] => None
  | x :: r => if sameNode x c then prev else prevIn c (Some x) r
  end.

(** [c.nextSibling] and [c.previousSibling] for a node [c] whose parent is
    [parent]. *)
Definition nextSibling (parent c : Node) : option Node :=
  nextIn c (childNodes parent).

Definition previousSibling (parent c : Node) : option Node :=
  prevIn c None (childNodes parent).

(** [l] without the node [c]; [None] when [c] is not in [l]. *)
Fixpoint without (c : Node) (l : list Node) : option (list Node) :=
  match l with
  | [] => None
  | x :: r =>
      if sameNode x c then Some r
      else match without c r with
           | Some r' => Some (x :: r')
           | None => None
           end
  end.

(** Exceptions of the host on top of the script's own. *)
Inductive Error : Type :=
| Js (e : Exn)
| NotFoundError.

(** The result of running a piece of script against one node (the node
    whose children are being changed): a value and the node afterwards, an
    exception and the node at that point, or no result within the given
    number of loop iterations. *)
Inductive Run (A : Type) : Type :=
| Done (a : A) (n : Node)
| Raised (e : Error) (n : Node)
| OutOfFuel.
Arguments Done {A} a n.
Arguments Raised {A} e n.
Arguments OutOfFuel {A}.

Definition andThen {A B} (m : Run A) (k : A -> Node -> Run B) : Run B :=
  match m with
  | Done a n => k a n
  | Raised e n => Raised e n
  | OutOfFuel => OutOfFuel
  end.

(** [while (cond) body], with the loop's local variables in [s];
    [fuel] bounds the number of iterations. *)
Fixpoint while {St : Type} (fuel : nat) (cond : St -> Node -> bool)
    (body : St -> Node -> Run St) (s : St) (n : Node) : Run St :=
  if cond s n then
    match fuel with
    | O => OutOfFuel
    | S fuel' =>
        andThen (body s n) (fun s' n' => while fuel' cond body s' n')
    end
  else Done s n.

(** *** Host operations (DOM Standard) *)

(** [node.removeChild(child)]: a [null] or [undefined] argument is a
    TypeError, a node that is not a child a NotFoundError. *)
Definition removeChild (n : Node) (child : option Node) : Run unit :=
  match child with
  | None => Raised (Js TypeError) n
  | Some c =>
      match without c (childNodes n) with
      | Some l => Done tt (setChildren n l)
      | None => Raised NotFoundError n
      end
  end.

(** [node.replaceChildren()] without arguments removes every child. *)
Definition replaceChildren (n : Node) : Node := setChildren n [].

(** [node.textContent = ''].  The setter of the DOM Standard: on an
    Element or a DocumentFragment it replaces all children (by nothing for
    the empty string), on character data and on an Attr it replaces the
    data, and on every other node (a Document, a DocumentType) it does
    nothing. *)
Definition clearTextContent (n : Node) : Node :=
  let t := nodeType n in
  if ((t =? ELEMENT_NODE) || (t =? DOCUMENT_FRAGMENT_NODE))%bool then
    setChildren n []
  else if ((t =? TEXT_NODE) || (t =? CDATA_SECTION_NODE)
           || (t =? PROCESSING_INSTRUCTION_NODE) || (t =? COMMENT_NODE)
           || (t =? ATTRIBUTE_NODE))%bool then
    setData n EmptyString
  else n.

(** [node.innerHTML = '']: the children are replaced by the (empty)
    parsed fragment. *)
Definition clearInnerHTML (n : Node) : Node := setChildren n [].

(** [node.childElementCount] and [node.children.length]: the number of
    Element children. *)
Definition childElementCount (n : Node) : Z :=
  Z.of_nat
    (List.length (filter (fun c => nodeType c =? ELEMENT_NODE)
                         (childNodes n))).

End Dom.

(* ================================================================= *)
(** ** src/unnamed/part_000: removeChildren *)

Module RemoveChildren.
Import JS Dom.

(** The globals the script reads: whether [Node] and [Element] are bound
    to the host's interfaces ([true]) or to [undefined] ([false]).  The
    bindings exist: a host where the name [Node] does not resolve is
    covered by [removeChildrenWhere] below, one where [Element] does not
    resolve is outside the model. *)
Record Host : Type := mkHost {
  Node_defined : bool;
  Element_defined : bool
}.

(** A value held by a property of a plain object: a primitive, or an
    object that is no function and has none of the properties the script
    reads, such as [{}]. *)
Inductive Data : Type :=
| DPrim (p : Prim)
| DObject.

(** A plain object that holds data only: the properties it has, its own
    and the inherited ones, with their values; the first entry of a name
    counts.  The properties are writable.  An object with methods or
    accessors, or with one of the host's prototypes, is outside the
    model. *)
Definition PlainObject : Type := list (string * Data).

(** [name in o] *)
Fixpoint hasProp (name : string) (o : PlainObject) : bool :=
  match o with
  | [] => false
  | (k, _) :: rest => (String.eqb k name || hasProp name rest)%bool
  end.

(** [o[name]], [undefined] for a property that [o] does not have. *)
Fixpoint getProp (name : string) (o : PlainObject) : Data :=
  match o with
  | [] => DPrim PUndefined
  | (k, v) :: rest => if String.eqb k name then v else getProp name rest
  end.

(** [o[name] = v] *)
Fixpoint setProp (name : string) (v : Data) (o : PlainObject)
  : PlainObject :=
  match o with
  | [] => [(name, v)]
  | (k, w) :: rest =>
      if String.eqb k name then (k, v) :: rest
      else (k, w) :: setProp name v rest
  end.

Definition truthyData (d : Data) : bool :=
  match d with
  | DPrim p => truthy p
  | DObject => true
  end.

(** [d.length]: reading a property of [undefined] or [null] is a
    TypeError; a string has its length, every other value of the model
    has no [length]. *)
Definition lengthOf (d : Data) : Outcome Prim :=
  match d with
  | DPrim PUndefined | DPrim PNull => Throw TypeError
  | DPrim (PStr s) => Return (PNum (ofZ (Z.of_nat (String.length s))))
  | _ => Return PUndefined
  end.

(** What can be passed as [node]: a primitive, a node of the host, or a
    plain object. *)
Inductive Value : Type :=
| VPrim (p : Prim)
| VNode (n : Node)
| VObject (o : PlainObject).

(** [isNode]: [Node ? obj instanceof Node : !!(obj && obj.removeChild)].
    Every node of the host has the method [removeChild]; a primitive has
    no property [removeChild]. *)
Definition isNode (h : Host) (obj : Value) : bool :=
  if Node_defined h then
    match obj with VNode _ => true | _ => false end
  else
    match obj with
    | VPrim _ => false
    | VNode _ => true
    | VObject o => truthyData (getProp "removeChild" o)
    end.

(** [isElement]:
    [Element ? obj instanceof Element : !!(obj && obj.nodeType === 9)]. *)
Definition isElement (h : Host) (obj : Node) : bool :=
  if Element_defined h then nodeType obj =? ELEMENT_NODE
  else nodeType obj =? 9.

Section Methods.
Variable fuel : nat.
Variable h : Host.

(** The loop of [removeAll] and [removeAllBackwards] over
    [firstChild] / [lastChild]. *)
Definition loopLastChild (n : Node) : Run unit :=
  while fuel
    (fun _ n => match firstChild n with Some _ => true | None => false end)
    (fun _ n => removeChild n (lastChild n)) tt n.

(** The loop of [removeAllForwards] over [lastChild] / [firstChild]. *)
Definition loopFirstChild (n : Node) : Run unit :=
  while fuel
    (fun _ n => match lastChild n with Some _ => true | None => false end)
    (fun _ n => removeChild n (firstChild n)) tt n.

(** The loops over the live [childNodes] list. *)
Definition loopChildNodesLast (n : Node) : Run unit :=
  while fuel
    (fun _ n => negb (length n =? 0))
    (fun _ n => removeChild n (item n (length n - 1))) tt n.

Definition loopChildNodesFirst (n : Node) : Run unit :=
  while fuel
    (fun _ n => negb (length n =? 0))
    (fun _ n => removeChild n (item n 0)) tt n.

Definition removeAll (n : Node) : Run bool :=
  if has "replaceChildren" n then Done true (replaceChildren n)
  else if has "textContent" n then Done true (clearTextContent n)
  else if has "innerHTML" n then Done true (clearInnerHTML n)
  else if (has "firstChild" n && has "lastChild" n)%bool then
    andThen (loopLastChild n) (fun _ n' => Done true n')
  else if has "childNodes" n then
    andThen (loopChildNodesLast n) (fun _ n' => Done true n')
  else Done false n.

Definition removeAllForwards (n : Node) : Run bool :=
  if (has "firstChild" n && has "lastChild" n)%bool then
    andThen (loopFirstChild n) (fun _ n' => Done true n')
  else if has "childNodes" n then
    andThen (loopChildNodesFirst n) (fun _ n' => Done true n')
  else Done false n.

Definition removeAllBackwards (n : Node) : Run bool :=
  if (has "firstChild" n && has "lastChild" n)%bool then
    andThen (loopLastChild n) (fun _ n' => Done true n')
  else if has "childNodes" n then
    andThen (loopChildNodesLast n) (fun _ n' => Done true n')
  else Done false n.

Definition hasChildElements (obj : Node) : bool :=
  if has "childElementCount" obj then negb (childElementCount obj =? 0)
  else if has "children" obj then negb (childElementCount obj =? 0)
  else true.

(** One turn of the loop of [elForBySibl]; the local state is
    [current]. *)
Definition stepForBySibl (current : option Node) (n : Node)
  : Run (option Node) :=
  match current with
  | None => Done None n
  | Some c =>
      if isElement h c then
        let next := nextSibling n c in
        andThen (removeChild n (Some c)) (fun _ n' => Done next n')
      else Done (nextSibling n c) n
  end.

Definition isSome {A} (o : option A) : bool :=
  match o with Some _ => true | None => false end.

Definition elForBySibl (n : Node) : Run bool :=
  if negb (hasChildElements n) then Done true n
  else if (has "firstChild" n && has "nextSibling" n)%bool then
    andThen (while fuel (fun cur _ => isSome cur) stepForBySibl
                   (firstChild n) n)
            (fun _ n' => Done true n')
  else Done false n.

Definition stepBackBySibl (current : option Node) (n : Node)
  : Run (option Node) :=
  match current with
  | None => Done None n
  | Some c =>
      if isElement h c then
        let prev := previousSibling n c in
        andThen (removeChild n (Some c)) (fun _ n' => Done prev n')
      else Done (previousSibling n c) n
  end.

Definition elBackBySibl (n : Node) : Run bool :=
  if negb (hasChildElements n) then Done true n
  else if (has "lastChild" n && has "previousSibling" n)%bool then
    andThen (while fuel (fun cur _ => isSome cur) stepBackBySibl
                   (lastChild n) n)
            (fun _ n' => Done true n')
  else Done false n.

(** [isElement(child)] for an entry of [childNodes] that may be
    [undefined]: [undefined instanceof Element] and
    [!!(undefined && ...)] are both false. *)
Definition isElementOpt (child : option Node) : bool :=
  match child with Some c => isElement h c | None => false end.

(** One turn of the loop of [elForByChildNodes]; the local state is
    [index]. *)
Definition stepForByChildNodes (index : Z) (n : Node) : Run Z :=
  let child := item n index in
  if isElementOpt child then
    andThen (removeChild n child) (fun _ n' => Done index n')
  else Done (index + 1) n.

Definition elForByChildNodes (n : Node) : Run bool :=
  if has "childNodes" n then
    andThen (while fuel (fun index n => index <? length n)
                   stepForByChildNodes 0 n)
            (fun _ n' => Done true n')
  else Done false n.

Definition stepBackByChildNodes (index : Z) (n : Node) : Run Z :=
  let child := item n index in
  if isElementOpt child then
    andThen (removeChild n child) (fun _ n' => Done (index - 1) n')
  else Done (index - 1) n.

Definition elBackByChildNodes (n : Node) : Run bool :=
  if has "childNodes" n then
    andThen (while fuel (fun index _ => 0 <=? index)
                   stepBackByChildNodes (length n - 1) n)
            (fun _ n' => Done true n')
  else Done false n.

(** [a() || b()]: [b] runs only when [a] returned false. *)
Definition orElse (a : Node -> Run bool) (b : Node -> Run bool)
    (n : Node) : Run bool :=
  andThen (a n) (fun r n' => if r then Done true n' else b n').

Definition removeElements : Node -> Run bool :=
  orElse elBackBySibl (orElse elForBySibl elBackByChildNodes).

Definition removeElForwards : Node -> Run bool :=
  orElse elForBySibl elForByChildNodes.

Definition removeElBackwards : Node -> Run bool :=
  orElse elBackBySibl elBackByChildNodes.

Definition tryMethods (removeElementsArg forwards : Prim) (n : Node)
  : Run bool :=
  match forwards with
  | PUndefined =>
      if truthy removeElementsArg then removeElements n else removeAll n
  | _ =>
      if truthy forwards then
        if truthy removeElementsArg then removeElForwards n
        else removeAllForwards n
      else
        if truthy removeElementsArg then removeElBackwards n
        else removeAllBackwards n
  end.

End Methods.

(** *** The script on a plain object

    What the methods do when [node] is a plain object that [isNode] let
    through.  Its [removeChild] is data, so that every call
    [node.removeChild(...)] is a TypeError, as is [node.replaceChildren()].
    A value found under [firstChild] or [lastChild] is no Element for
    [isElement], and has no [nextSibling] nor [previousSibling], so that
    the sibling loops end after one turn; the loops over a string found
    under [childNodes] visit its characters and remove nothing. *)

(** The result of a method on a plain object, and the object
    afterwards. *)
Definition PlainRun : Type := Outcome bool * PlainObject.

(** [while (childNodes.length) { node.removeChild(...); }] *)
Definition plainChildNodesLoop (o : PlainObject) : PlainRun :=
  match lengthOf (getProp "childNodes" o) with
  | Throw e => (Throw e, o)
  | Return len => if truthy len then (Throw TypeError, o) else (Return true, o)
  end.

Definition plainRemoveAll (o : PlainObject) : PlainRun :=
  if hasProp "replaceChildren" o then (Throw TypeError, o)
  else if hasProp "textContent" o then
    (Return true, setProp "textContent" (DPrim (PStr EmptyString)) o)
  else if hasProp "innerHTML" o then
    (Return true, setProp "innerHTML" (DPrim (PStr EmptyString)) o)
  else if (hasProp "firstChild" o && hasProp "lastChild" o)%bool then
    if truthyData (getProp "firstChild" o) then (Throw TypeError, o)
    else (Return true, o)
  else if hasProp "childNodes" o then plainChildNodesLoop o
  else (Return false, o).

Definition plainRemoveAllForwards (o : PlainObject) : PlainRun :=
  if (hasProp "firstChild" o && hasProp "lastChild" o)%bool then
    if truthyData (getProp "lastChild" o) then (Throw TypeError, o)
    else (Return true, o)
  else if hasProp "childNodes" o then plainChildNodesLoop o
  else (Return false, o).

Definition plainRemoveAllBackwards (o : PlainObject) : PlainRun :=
  if (hasProp "firstChild" o && hasProp "lastChild" o)%bool then
    if truthyData (getProp "firstChild" o) then (Throw TypeError, o)
    else (Return true, o)
  else if hasProp "childNodes" o then plainChildNodesLoop o
  else (Return false, o).

Definition plainHasChildElements (o : PlainObject) : Outcome bool :=
  if hasProp "childElementCount" o then
    Return (truthyData (getProp "childElementCount" o))
  else if hasProp "children" o then
    bind (lengthOf (getProp "children" o)) (fun len => Return (truthy len))
  else Return true.

Definition plainElForBySibl (o : PlainObject) : PlainRun :=
  match plainHasChildElements o with
  | Throw e => (Throw e, o)
  | Return false => (Return true, o)
  | Return true =>
      (Return (hasProp "firstChild" o && hasProp "nextSibling" o)%bool, o)
  end.

Definition plainElBackBySibl (o : PlainObject) : PlainRun :=
  match plainHasChildElements o with
  | Throw e => (Throw e, o)
  | Return false => (Return true, o)
  | Return true =>
      (Return (hasProp "lastChild" o && hasProp "previousSibling" o)%bool,
       o)
  end.

(** Both loops over [childNodes] read [childNodes.length] first and call
    [removeChild] for Elements only. *)
Definition plainElByChildNodes (o : PlainObject) : PlainRun :=
  if hasProp "childNodes" o then
    (bind (lengthOf (getProp "childNodes" o)) (fun _ => Return true), o)
  else (Return false, o).

Definition plainOrElse (a b : PlainObject -> PlainRun) (o : PlainObject)
  : PlainRun :=
  match a o with
  | (Return false, o') => b o'
  | r => r
  end.

Definition plainTryMethods (removeElementsArg forwards : Prim)
    (o : PlainObject) : PlainRun :=
  match forwards with
  | PUndefined =>
      if truthy removeElementsArg then
        plainOrElse plainElBackBySibl
          (plainOrElse plainElForBySibl plainElByChildNodes) o
      else plainRemoveAll o
  | _ =>
      if truthy forwards then
        if truthy removeElementsArg then
          plainOrElse plainElForBySibl plainElByChildNodes o
        else plainRemoveAllForwards o
      else
        if truthy removeElementsArg then
          plainOrElse plainElBackBySibl plainElByChildNodes o
        else plainRemoveAllBackwards o
  end.

(** The result of a call: what the call returns or throws, and the value
    passed as [node] afterwards. *)
Inductive Result : Type :=
| Returned (b : bool) (after : Value)
| Thrown (e : Error) (after : Value)
| NoResult.

(** [removeChildren(node, removeElements, forwards)]:
    [this.checkParameter(); return this.tryMethods();]
    ([isNode] lets no primitive through.) *)
Definition removeChildren (fuel : nat) (h : Host) (node : Value)
    (removeElementsArg forwards : Prim) : Result :=
  if negb (isNode h node) then Thrown (Js TypeError) node
  else
    match node with
    | VNode n =>
        match tryMethods fuel h removeElementsArg forwards n with
        | Done b n' => Returned b (VNode n')
        | Raised e n' => Thrown e (VNode n')
        | OutOfFuel => NoResult
        end
    | VObject o =>
        match plainTryMethods removeElementsArg forwards o with
        | (Return b, o') => Returned b (VObject o')
        | (Throw e, o') => Thrown (Js e) (VObject o')
        end
    | VPrim _ => Thrown (Js TypeError) node
    end.

(** The global name [Node] as the script finds it: not resolvable, or
    bound to the host's interface ([true]) or to a falsy value
    ([false]). *)
Inductive Global : Type :=
| Unresolvable
| Bound (defined : bool).

(** A call where the name [Node] may not resolve: [isNode] evaluates
    [Node] first, which is then a ReferenceError, whatever is passed. *)
Definition removeChildrenWhere (NodeGlobal : Global)
    (Element_defined : bool) (fuel : nat) (node : Value)
    (removeElementsArg forwards : Prim) : Result :=
  match NodeGlobal with
  | Unresolvable => Thrown (Js ReferenceError) node
  | Bound defined =>
      removeChildren fuel (mkHost defined Element_defined) node
        removeElementsArg forwards
  end.

End RemoveChildren.

(* ================================================================= *)
(** ** src/comment/GetAllComments.js *)

Module GetAllComments.
Import JS Dom.

(** The host as the script sees it: the interfaces [window.Document],
    [window.Element], [window.DocumentFragment] and [window.Comment] that
    [setApiRef] copies into globals ([false]: [undefined]), whether
    [document.createTreeWalker] exists, and the page's [document]. *)
Record Host : Type := mkHost {
  Document_defined : bool;
  Element_defined : bool;
  DocumentFragment_defined : bool;
  Comment_defined : bool;
  createTreeWalker : bool;
  document : Node
}.

(** A value passed as [options.container]: a primitive or a node.  Objects
    that are not nodes are outside the model. *)
Inductive Value : Type :=
| VPrim (p : Prim)
| VNode (n : Node).

(** The object passed as [options]: [container] ([None] when undefined),
    [search], and the truthiness of [wholeWord] and [caseSensitive]. *)
Record Options : Type := mkOptions {
  opt_container : option Value;
  opt_search : Prim;
  opt_wholeWord : bool;
  opt_caseSensitive : bool
}.

(** The argument [options]: [undefined], something that is not an object or
    is [null], or an object. *)
Inductive OptionsArg : Type :=
| NoOptions
| NotAnObject
| TheOptions (o : Options).

(** [obj instanceof I] for a node of the host: the interface of a node is
    read off its [nodeType]. *)
Definition instanceOf (type : Z) (obj : Node) : bool := nodeType obj =? type.

(** [isElement], [isDocument], [isDocumentFragment], [isComment]:
    [I ? obj instanceof I : !!(obj && obj.nodeType === k)]. *)
Definition isElement (h : Host) (obj : Node) : bool :=
  if Element_defined h then instanceOf ELEMENT_NODE obj
  else nodeType obj =? 1.

Definition isDocument (h : Host) (obj : Node) : bool :=
  if Document_defined h then instanceOf DOCUMENT_NODE obj
  else nodeType obj =? 9.

Definition isDocumentFragment (h : Host) (obj : Node) : bool :=
  if DocumentFragment_defined h then instanceOf DOCUMENT_FRAGMENT_NODE obj
  else nodeType obj =? 11.

Definition isComment (h : Host) (obj : Node) : bool :=
  if Comment_defined h then instanceOf COMMENT_NODE obj
  else nodeType obj =? 8.

(** [getCommentText]: the three properties hold the data of a Comment. *)
Definition getCommentText (comment : Node) : Outcome string :=
  if has "nodeValue" comment then Return (nodeData comment)
  else if has "textContent" comment then Return (nodeData comment)
  else if has "innerHTML" comment then Return (nodeData comment)
  else Throw ReferenceError.

(** The variable [search] after [checkSearchOption]: [None] when it is
    falsy (undefined or the empty string), else the [test] method of the
    RegExp built from the phrase. *)
Definition Search : Type := option (string -> bool).

(** The result of a computation bounded by a number of steps: [None] when
    the bound was reached. *)
Definition Fueled (A : Type) : Type := option (Outcome A).

Definition bindF {A B : Type} (m : Fueled A) (k : A -> Fueled B) : Fueled B :=
  match m with
  | Some (Return a) => k a
  | Some (Throw e) => Some (Throw e)
  | None => None
  end.

(** *** The TreeWalker of the host *)

Definition concatOutcomes (rec : Node -> Outcome (list Node))
  : list Node -> Outcome (list Node) :=
  fix forest (l : list Node) : Outcome (list Node) :=
    match l with
    | [] => Return []
    | c :: r =>
        bind (rec c) (fun a => bind (forest r) (fun b => Return (a ++ b)))
    end.

(** The nodes that successive calls of [walker.nextNode()] reach from [n]
    on, for a walker created with [NodeFilter.SHOW_COMMENT] and the filter
    [accept]: document order; a node that is not a Comment is passed over
    and its children are visited; the filter runs on a Comment, and a
    rejected node is passed over together with its subtree. *)
Fixpoint visit (accept : Node -> Outcome bool) (n : Node)
  : Outcome (list Node) :=
  match n with
  | mkNode _ type _ _ children =>
      if type =? COMMENT_NODE then
        bind (accept n) (fun ok =>
          if ok then
            bind (concatOutcomes (visit accept) children)
                 (fun sub => Return (n :: sub))
          else Return [])
      else concatOutcomes (visit accept) children
  end.

(** [while (walker.nextNode()) result.push(walker.currentNode)] from the
    root: the root itself is not visited. *)
Definition walkFrom (accept : Node -> Outcome bool) (root : Node)
  : Outcome (list Node) :=
  concatOutcomes (visit accept) (childNodes root).

(** [byTreeWalker] with [newTreeWalker]: [None] is [null].  With a search
    phrase the filter is [search.test(self.getCommentText(node))]; without
    one every Comment is accepted (by the shorthand call or, where that
    throws, by the explicit filter). *)
Definition byTreeWalker (h : Host) (container : Node) (search : Search)
  : Outcome (option (list Node)) :=
  if negb (createTreeWalker h) then Return None
  else
    let filter :=
      match search with
      | Some test =>
          fun node => bind (getCommentText node) (fun t => Return (test t))
      | None => fun _ => Return true
      end in
    bind (walkFrom filter container) (fun result => Return (Some result)).

(** *** Traversal by sibling pointers *)

(** The loop of [bySiblingTraversal]: [siblings] is the chain that starts at
    [current] and follows [nextSibling]; [rec] is the recursive call. *)
Definition siblingLoop (rec : Node -> Outcome (list Node))
    (validFn : Node -> Outcome bool)
  : list Node -> list Node -> Outcome (list Node) :=
  fix loop (siblings : list Node) (result : list Node)
    : Outcome (list Node) :=
    match siblings with
    | [] => Return result
    | current :: next =>
        bind (validFn current) (fun valid =>
          if valid then loop next (result ++ [current])
          else
            match firstChild current with
            | Some _ =>
                bind (rec current) (fun sub => loop next (result ++ sub))
            | None => loop next result
            end)
    end.

Fixpoint bySiblingTraversal (validFn : Node -> Outcome bool)
    (nodeParent : Node) : Outcome (list Node) :=
  match nodeParent with
  | mkNode _ _ _ _ children =>
      siblingLoop (bySiblingTraversal validFn) validFn children []
  end.

(** The two functions that [bySibling] passes as [validFn]. *)
Definition siblingValidFn (h : Host) (search : Search) (node : Node)
  : Outcome bool :=
  match search with
  | Some test =>
      if isComment h node then
        bind (getCommentText node) (fun t => Return (test t))
      else Return false
  | None => Return (isComment h node)
  end.

Definition bySibling (h : Host) (container : Node) (search : Search)
  : Outcome (option (list Node)) :=
  if (has "firstChild" container && has "nextSibling" container)%bool then
    bind (bySiblingTraversal (siblingValidFn h search) container)
         (fun result => Return (Some result))
  else Return None.

(** *** Traversal by the [childNodes] lists *)

(** The [for] loop of [childNodesTraversal] over [index], bounded by [k]
    iterations; [rec] is the recursive call. *)
Definition indexLoop (rec : Node -> Fueled (list Node))
    (validFn : Node -> Outcome bool) (hasChildFn : Node -> bool)
    (nodeParent : Node)
  : nat -> Z -> list Node -> Fueled (list Node) :=
  fix loop (k : nat) (index : Z) (result : list Node)
    : Fueled (list Node) :=
    if index <? length nodeParent then
      match k with
      | O => None
      | S k' =>
          match item nodeParent index with
          | None => Some (Throw TypeError)
          | Some current =>
              bindF (Some (validFn current)) (fun valid =>
                if valid then loop k' (index + 1) (result ++ [current])
                else if hasChildFn current then
                  bindF (rec current)
                        (fun sub => loop k' (index + 1) (result ++ sub))
                else loop k' (index + 1) result)
          end
      end
    else Some (Return result).

(** [childNodesTraversal]; [fuel] bounds the depth of the recursion and the
    length of each loop. *)
Fixpoint childNodesTraversal (fuel : nat) (validFn : Node -> Outcome bool)
    (hasChildFn : Node -> bool) (nodeParent : Node)
  : Fueled (list Node) :=
  match fuel with
  | O => None
  | S fuel' =>
      indexLoop (childNodesTraversal fuel' validFn hasChildFn)
                validFn hasChildFn nodeParent fuel' 0 []
  end.

(** The two functions that [byChildNodes] passes as [hasChildFn]:
    [node.hasChildNodes()] and [!!node.childNodes.length]. *)
Definition hasChildNodes (node : Node) : bool :=
  match childNodes node with [] => false | _ => true end.

Definition hasChildNodesByLength (node : Node) : bool :=
  negb (length node =? 0).

(** [commentMatch] and [isComment], which [byChildNodes] passes as
    [validFn].  The script is called as a plain function, so that [this] is
    the global object in these calls too. *)
Definition commentMatch (h : Host) (test : string -> bool) (node : Node)
  : Outcome bool :=
  if isComment h node then
    bind (getCommentText node) (fun t => Return (test t))
  else Return false.

Definition childNodesValidFn (h : Host) (search : Search) (node : Node)
  : Outcome bool :=
  match search with
  | Some test => commentMatch h test node
  | None => Return (isComment h node)
  end.

Definition byChildNodes (fuel : nat) (h : Host) (container : Node)
    (search : Search) : Fueled (option (list Node)) :=
  if has "childNodes" container then
    let hasChildFn :=
      if has "hasChildNodes" container then hasChildNodes
      else hasChildNodesByLength in
    bindF (childNodesTraversal fuel (childNodesValidFn h search) hasChildFn
             container)
          (fun result => Some (Return (Some result)))
  else Some (Return None).

(** [tryMethods] *)
Definition tryMethods (fuel : nat) (h : Host) (container : Node)
    (search : Search) : Fueled (list Node) :=
  bindF (Some (byTreeWalker h container search)) (fun result =>
    match result with
    | Some r => Some (Return r)
    | None =>
        bindF (Some (bySibling h container search)) (fun result =>
          match result with
          | Some r => Some (Return r)
          | None =>
              bindF (byChildNodes fuel h container search) (fun result =>
                match result with
                | Some r => Some (Return r)
                | None => Some (Throw ReferenceError)
                end)
          end)
    end).

Section Script.

(** The RegExp engine of the host: [new RegExp(pattern, flags)] gives the
    [test] method of the expression, or [None] for a SyntaxError. *)
Variable RegExp : string -> string -> option (string -> bool).

(** [checkContOption] *)
Definition checkContOption (h : Host) (o : Options) : Outcome Node :=
  match opt_container o with
  | None | Some (VPrim PUndefined) => Return (document h)
  | Some (VPrim _) => Throw TypeError
  | Some (VNode container) =>
      if (negb (isDocument h container) && negb (isElement h container)
          && negb (isDocumentFragment h container))%bool
      then Throw TypeError
      else Return container
  end.

(** [checkSearchOption] *)
Definition checkSearchOption (o : Options) : Outcome Search :=
  match opt_search o with
  | PUndefined => Return None
  | PStr search =>
      if negb (String.eqb search EmptyString) then
        let pattern :=
          if opt_wholeWord o then ("\b" ++ search ++ "\b")%string
          else search in
        let flags := if opt_caseSensitive o then ""%string else "i"%string in
        match RegExp pattern flags with
        | Some test => Return (Some test)
        | None => Throw SyntaxError
        end
      else Return None
  | _ => Throw TypeError
  end.

(** [checkOptions]: the container and the search that the traversals use. *)
Definition checkOptions (h : Host) (options : OptionsArg)
  : Outcome (Node * Search) :=
  match options with
  | NoOptions => Return (document h, None)
  | NotAnObject => Throw TypeError
  | TheOptions o =>
      bind (checkContOption h o) (fun container =>
        bind (checkSearchOption o) (fun search =>
          Return (container, search)))
  end.

(** [getAllComments(options)] *)
Definition getAllComments (fuel : nat) (h : Host) (options : OptionsArg)
  : Fueled (list Node) :=
  bindF (Some (checkOptions h options)) (fun cs =>
    tryMethods fuel h (fst cs) (snd cs)).

End Script.

(** [p] holds of every descendant of [n]. *)
Fixpoint allDescendants (p : Node -> bool) (n : Node) : bool :=
  match n with
  | mkNode _ _ _ _ children =>
      forallb (fun c => (p c && allDescendants p c)%bool) children
  end.

(** The node offers one of the properties [getCommentText] reads. *)
Definition readable (n : Node) : bool :=
  (has "nodeValue" n || has "textContent" n || has "innerHTML" n)%bool.

(** Every Comment that a search would read is readable: there is no search
    phrase, or every Comment below the container offers its text. *)
Definition commentsReadable (search : Search) (container : Node) : bool :=
  match search with
  | None => true
  | Some _ =>
      allDescendants
        (fun c => (negb (nodeType c =? COMMENT_NODE) || readable c)%bool)
        container
  end.

(** The filter that [newTreeWalker] installs. *)
Definition walkerFilter (search : Search) (node : Node) : Outcome bool :=
  match search with
  | Some test => bind (getCommentText node) (fun t => Return (test t))
  | None => Return true
  end.

(** In a document a Comment has no children. *)
Definition commentsAreLeaves (n : Node) : bool :=
  allDescendants
    (fun c =>
       (negb (nodeType c =? COMMENT_NODE)
        || match childNodes c with [] => true | _ => false end)%bool)
    n.

(** A bound on the steps that [childNodesTraversal] needs on a tree. *)
Fixpoint size (n : Node) : nat :=
  match n with
  | mkNode _ _ _ _ children => S (list_sum (map size children))
  end.

End GetAllComments.

(* ================================================================= *)
(** ** src/class: the class-name argument *)

(** ContainsCSSClass.js and AddCSSClass.js carry the same
    [checkClassParameter], [checkClassArray] and entry splitter
    ([addClassEntries] there, [splitClassEntry] here). *)
Module ClassParam.
Import JS.

(** An entry of an Array passed as the class argument: a string, [null]
    (which [checkClassArray] itself writes over a duplicate), or a value of
    another type. *)
Inductive Entry : Type :=
| EStr (s : string)
| ENull
| EOther.

(** The class argument: a string, an Array, or anything else. *)
Inductive ClassArg : Type :=
| CString (s : string)
| CArray (entries : list Entry)
| COther.

(** The property names that every object inherits from [Object.prototype]:
    [entry in checked] holds for them although [checked] starts as [{}]. *)
Definition objectPrototypeKeys : list string :=
  ["constructor"; "hasOwnProperty"; "isPrototypeOf"; "propertyIsEnumerable";
   "toLocaleString"; "toString"; "valueOf"; "__proto__";
   "__defineGetter__"; "__defineSetter__"; "__lookupGetter__";
   "__lookupSetter__"]%string.

(** [entry in checked] *)
Definition inChecked (entry : string) (checked : list string) : bool :=
  (existsb (String.eqb entry) checked
   || existsb (String.eqb entry) objectPrototypeKeys)%bool.

(** [argArray[index] = v] and [argArray.splice(index, 0, v1, ...)] for an
    index within the array. *)
Definition store (argArray : list Entry) (index : nat) (v : Entry)
  : list Entry :=
  firstn index argArray ++ v :: skipn (S index) argArray.

(** [splitClassEntry] / [addClassEntries]: the pieces after the first are
    inserted behind [index]; the first piece is returned. *)
Definition splitClassEntry (argArray : list Entry) (entry : string)
    (index : nat) : string * list Entry :=
  match Text.split entry with
  | [] => (EmptyString, argArray)
  | first :: others =>
      (first,
       firstn (S index) argArray ++ map EStr others
         ++ skipn (S index) argArray)
  end.

(** The state of the loop of [checkClassArray]. *)
Record Loop : Type := mkLoop {
  argArray : list Entry;
  checked : list string;
  numDup : nat
}.

(** The first loop of [checkClassArray]: [fuel] bounds the number of turns
    (the array grows while entries are split).  The result is the final
    state, or the exception together with the array as it was left. *)
Fixpoint checkLoop (fuel : nat) (css3 emptyCheck : bool) (index : nat)
    (st : Loop) : option (Outcome Loop * list Entry) :=
  if (index <? List.length (argArray st))%nat then
    match fuel with
    | O => None
    | S fuel' =>
        match nth index (argArray st) EOther with
        | EStr raw =>
            let entry := Text.trim raw in
            if (String.eqb entry EmptyString && emptyCheck)%bool then
              Some (Throw RangeError, argArray st)
            else
              let '(entry, arr) :=
                if Text.hasSpace entry
                then splitClassEntry (argArray st) entry index
                else (entry, argArray st) in
              let validated :=
                if css3 then Return (Text.removeNul entry)
                else if negb (Text.isCss2Name entry) then Throw RangeError
                else Return entry in
              match validated with
              | Throw e => Some (Throw e, arr)
              | Return entry =>
                  let st' :=
                    if negb (String.eqb entry EmptyString) then
                      if inChecked entry (checked st) then
                        mkLoop (store arr index ENull) (checked st)
                               (S (numDup st))
                      else
                        mkLoop (store arr index (EStr entry))
                               (entry :: checked st) (numDup st)
                    else mkLoop (store arr index (EStr entry)) (checked st)
                                (numDup st) in
                  checkLoop fuel' css3 emptyCheck (S index) st'
              end
        | _ => Some (Throw TypeError, argArray st)
        end
    end
  else Some (Return st, argArray st).

(** The strings of an array, its [null] entries left out. *)
Fixpoint strings (l : list Entry) : list string :=
  match l with
  | EStr s :: r => s :: strings r
  | _ :: r => strings r
  | [] => []
  end.

(** [checkClassArray]: the class names to use, and the array as the call
    leaves it (the caller's Array is changed in place). *)
Definition checkClassArray (fuel : nat) (css3 emptyCheck : bool)
    (arr : list Entry) : option (Outcome (list string) * list Entry) :=
  match checkLoop fuel css3 emptyCheck 0 (mkLoop arr [] 0) with
  | None => None
  | Some (Throw e, after) => Some (Throw e, after)
  | Some (Return st, after) => Some (Return (strings (argArray st)), after)
  end.

(** [checkClassParameter(argValue, 2, name, true)].  For a value that is
    neither a string nor an Array the script builds a TypeError and then
    reads the undeclared variable [oldClass], which throws a
    ReferenceError.  The second component is the argument afterwards. *)
Definition checkClassParameter (fuel : nat) (css3 : bool) (argValue : ClassArg)
  : option (Outcome (list string) * ClassArg) :=
  match argValue with
  | CString s =>
      let trimmed := Text.trim s in
      if String.eqb trimmed EmptyString then Some (Throw RangeError, argValue)
      else
        match checkClassArray fuel css3 true (map EStr (Text.split trimmed)) with
        | Some (r, _) => Some (r, argValue)
        | None => None
        end
  | CArray entries =>
      match entries with
      | [] => Some (Throw RangeError, argValue)
      | _ =>
          match checkClassArray fuel css3 true entries with
          | Some (r, after) => Some (r, CArray after)
          | None => None
          end
      end
  | COther => Some (Throw ReferenceError, argValue)
  end.

End ClassParam.

(* ================================================================= *)
(** ** src/class/ContainsCSSClass.js *)

Module ContainsCSSClass.
Import JS ClassParam.

(** An Element as the script reads it: its [class] attribute ([None] when
    absent), whether [classList] with [contains] is there, whether
    [className] is a string, whether [getAttribute] is there, and
    [style.backgroundSize] ([None] when the element has no [style]). *)
Record Element : Type := mkElement {
  classAttr : option string;
  classListSupported : bool;
  classNameIsString : bool;
  getAttributeSupported : bool;
  style_backgroundSize : option Prim
}.

(** What can be passed as [elementTarget]: a primitive, an Element, or a
    node of another type. *)
Inductive Value : Type :=
| VPrim (p : Prim)
| VElement (e : Element)
| VOtherNode.

Definition isSome {A : Type} (o : option A) : bool :=
  match o with Some _ => true | None => false end.

(** The call [searchFn(a)] or [searchFn(a, b)]: a missing second argument
    is [undefined] ([None]). *)
Definition SearchFn : Type := string -> option string -> Outcome bool.

(** The loops over [searchClass]. *)
Fixpoint singleMatchClassString (searchClass : list string)
    (searchFn : SearchFn) (elementClass : string) : Outcome bool :=
  match searchClass with
  | [] => Return false
  | classEntry :: rest =>
      bind (searchFn elementClass (Some classEntry)) (fun found =>
        if found then Return true
        else singleMatchClassString rest searchFn elementClass)
  end.

Fixpoint singleMatchOneParam (searchClass : list string)
    (searchFn : SearchFn) : Outcome bool :=
  match searchClass with
  | [] => Return false
  | classEntry :: rest =>
      bind (searchFn classEntry None) (fun found =>
        if found then Return true else singleMatchOneParam rest searchFn)
  end.

Fixpoint allMatchClassString (searchClass : list string)
    (searchFn : SearchFn) (elementClass : string) : Outcome bool :=
  match searchClass with
  | [] => Return true
  | classEntry :: rest =>
      bind (searchFn elementClass (Some classEntry)) (fun found =>
        if negb found then Return false
        else allMatchClassString rest searchFn elementClass)
  end.

Fixpoint allMatchOneParam (searchClass : list string)
    (searchFn : SearchFn) : Outcome bool :=
  match searchClass with
  | [] => Return true
  | classEntry :: rest =>
      bind (searchFn classEntry None) (fun found =>
        if negb found then Return false else allMatchOneParam rest searchFn)
  end.

Section Script.

(** The RegExp engine of the host and the binding of the global
    [Element]. *)
Variable RegExp : string -> string -> option (string -> bool).
Variable Element_defined : bool.

(** [isElement]: [obj instanceof Element] where [Element] is defined, else
    [!!(obj && obj.nodeType === 1 && obj.style)]. *)
Definition isElement (obj : Value) : bool :=
  if Element_defined then
    match obj with VElement _ => true | _ => false end
  else
    match obj with
    | VElement e => isSome (style_backgroundSize e)
    | _ => false
    end.

(** [supportsCSS3]: [elementTarget.style.backgroundSize === "string"];
    reading a property of an absent [style] is a TypeError. *)
Definition supportsCSS3 (e : Element) : Outcome bool :=
  match style_backgroundSize e with
  | None => Throw TypeError
  | Some (PStr v) => Return (String.eqb v "string")
  | Some _ => Return false
  end.

(** The end of [checkParameters]: a defined [singleMatch] becomes
    [false]. *)
Definition overwriteSingleMatch (singleMatch : Prim) : Prim :=
  match singleMatch with
  | PUndefined => PUndefined
  | _ => PBool false
  end.

(** [byClSearch]: [elementTarget.classList.contains(cssClass)] *)
Definition byClSearch (e : Element) : SearchFn :=
  fun cssClass _ =>
    Return (existsb (String.eqb cssClass)
              (Text.tokens (match classAttr e with
                            | Some v => v
                            | None => EmptyString
                            end))).

(** [checkWithRegex(elementClass, classEntry)]; an [undefined]
    [classEntry] is spelled ["undefined"] by the concatenation. *)
Definition checkWithRegex : SearchFn :=
  fun elementClass classEntry =>
    let entry :=
      match classEntry with Some c => c | None => "undefined"%string end in
    match RegExp ("\b" ++ entry ++ "\b")%string EmptyString with
    | Some test => Return (test elementClass)
    | None => Throw SyntaxError
    end.

(** [checkClassEntries(searchFn, elementClass)]; [elementClass] is [None]
    when the call passes one argument. *)
Definition checkClassEntries (searchClass : list string) (singleMatch : Prim)
    (searchFn : SearchFn) (elementClass : option string) : Outcome bool :=
  let given :=
    match elementClass with
    | Some c => if String.eqb c EmptyString then None else Some c
    | None => None
    end in
  if truthy singleMatch then
    match given with
    | Some c => singleMatchClassString searchClass searchFn c
    | None => singleMatchOneParam searchClass searchFn
    end
  else
    match given with
    | Some c => allMatchClassString searchClass searchFn c
    | None => allMatchOneParam searchClass searchFn
    end.

(** [byClassList], [byClassName], [byAttribute]: [None] is [undefined]. *)
Definition byClassList (e : Element) (searchClass : list string)
    (singleMatch : Prim) : Outcome (option bool) :=
  if classListSupported e then
    bind (checkClassEntries searchClass singleMatch (byClSearch e) None)
         (fun r => Return (Some r))
  else Return None.

Definition byClassName (e : Element) (searchClass : list string)
    (singleMatch : Prim) : Outcome (option bool) :=
  if classNameIsString e then
    let className :=
      match classAttr e with Some v => v | None => EmptyString end in
    bind (checkClassEntries searchClass singleMatch checkWithRegex
            (Some className))
         (fun r => Return (Some r))
  else Return None.

Definition byAttribute (e : Element) (searchClass : list string)
    (singleMatch : Prim) : Outcome (option bool) :=
  if negb (getAttributeSupported e) then Return None
  else
    match classAttr e with
    | None => Return (Some false)
    | Some classValue =>
        if String.eqb classValue EmptyString then Return (Some false)
        else
          let classValue := Text.trim classValue in
          if String.eqb classValue EmptyString then Return (Some false)
          else
            bind (checkClassEntries searchClass singleMatch checkWithRegex
                    (Some classValue))
                 (fun r => Return (Some r))
    end.

Definition tryMethods (e : Element) (searchClass : list string)
    (singleMatch : Prim) : Outcome bool :=
  bind (byClassList e searchClass singleMatch) (fun result =>
    match result with
    | Some r => Return r
    | None =>
        bind (byClassName e searchClass singleMatch) (fun result =>
          match result with
          | Some r => Return r
          | None =>
              bind (byAttribute e searchClass singleMatch) (fun result =>
                match result with
                | Some r => Return r
                | None => Throw ReferenceError
                end)
          end)
    end).

(** [containsCSSClass(elementTarget, searchClass, singleMatch)]:
    [this.checkParameters(); return this.tryMethods();].  [fuel] bounds
    the loop of [checkClassArray]; the logging of a rejected argument is
    left out. *)
Definition containsCSSClass (fuel : nat) (elementTarget : Value)
    (searchClass : ClassArg) (singleMatch : Prim) : option (Outcome bool) :=
  if negb (isElement elementTarget) then Some (Throw TypeError)
  else
    match elementTarget with
    | VElement e =>
        match supportsCSS3 e with
        | Throw err => Some (Throw err)
        | Return css3 =>
            match checkClassParameter fuel css3 searchClass with
            | None => None
            | Some (Throw err, _) => Some (Throw err)
            | Some (Return classes, _) =>
                Some (tryMethods e classes (overwriteSingleMatch singleMatch))
            end
        end
    | _ => Some (Throw TypeError)
    end.

End Script.

End ContainsCSSClass.

(* ================================================================= *)
(** ** src/class/AddCSSClass.js *)

Module AddCSSClass.
Import JS ClassParam.

(** The host, probed on [testElement], a fresh [div]: the binding of the
    global [Element], [!!testElement.classList],
    [typeof testElement.className === "string"],
    [testElement.getAttribute && testElement.setAttribute], and
    [typeof testElement.style.backgroundSize === "string"]. *)
Record Host : Type := mkHost {
  Element_defined : bool;
  classList : bool;
  className : bool;
  attrMethods : bool;
  css3 : bool
}.

(** The [class] attribute of each Element of the page, by the identity of
    the Element; [None] when the attribute is absent. *)
Definition Store : Type := nat -> option string.

Definition setClass (st : Store) (id : nat) (v : string) : Store :=
  fun k => if Nat.eqb k id then Some v else st k.

Definition getClassName (st : Store) (id : nat) : string :=
  match st id with Some v => v | None => EmptyString end.

(** An entry of a list passed as [elementTarget]: an Element or something
    else. *)
Inductive Item : Type :=
| Elem (id : nat)
| NotElem.

(** What can be passed as [elementTarget]: an Element, a list (an object
    with a numeric [length]), or a primitive. *)
Inductive Target : Type :=
| TElement (id : nat)
| TList (items : list Item)
| TPrim (p : Prim).

(** The result of a step on the page: a value or an exception, and the
    attributes afterwards. *)
Definition Step (A : Type) : Type := Outcome A * Store.

Definition AddFn : Type := Store -> nat -> string -> Step bool.
Definition CleanupFn : Type := Store -> nat -> Store.

Section Script.

Variable RegExp : string -> string -> option (string -> bool).
Variable h : Host.

(** [isElement] on an entry: [obj instanceof Element] where [Element] is
    defined, else [!!(obj && obj.nodeType === 1 && obj.style)]; an Element
    of the page passes either test. *)
Definition isElement (item : Item) : bool :=
  if Element_defined h then
    match item with Elem _ => true | NotElem => false end
  else
    match item with Elem _ => true | NotElem => false end.

(** [byClassListAdd]: [classList.add] rejects the empty token and a token
    with ASCII white space, and writes the tokens back joined by single
    spaces. *)
Definition byClassListAdd : AddFn :=
  fun st elementEntry cssClass =>
    let current := Text.tokens (getClassName st elementEntry) in
    if existsb (String.eqb cssClass) current then (Return false, st)
    else if String.eqb cssClass EmptyString then (Throw SyntaxError, st)
    else if existsb Text.isAsciiSpace (Text.chars cssClass)
      then (Throw InvalidCharacterError, st)
    else
      (Return true,
       setClass st elementEntry
         (Text.join (Text.dedupe current ++ [cssClass]))).

(** [byClassNameAdd] *)
Definition byClassNameAdd : AddFn :=
  fun st elementEntry cssClass =>
    match RegExp ("\b" ++ cssClass ++ "\b")%string EmptyString with
    | None => (Throw SyntaxError, st)
    | Some test =>
        let className := getClassName st elementEntry in
        if test className then (Return false, st)
        else
          (Return true,
           setClass st elementEntry
             (if Text.endsWithSpace className
              then (className ++ cssClass)%string
              else (className ++ " " ++ cssClass)%string))
    end.

(** [byClassNameCleanup] *)
Definition byClassNameCleanup : CleanupFn :=
  fun st elementEntry =>
    setClass st elementEntry
      (Text.collapse (Text.trim (getClassName st elementEntry))).

(** [byAttributeAdd] *)
Definition byAttributeAdd : AddFn :=
  fun st elementEntry cssClass =>
    match st elementEntry with
    | None => (Return true, setClass st elementEntry cssClass)
    | Some classValue =>
        if String.eqb classValue EmptyString
        then (Return true, setClass st elementEntry cssClass)
        else
          match RegExp ("\b" ++ cssClass ++ "\b")%string EmptyString with
          | None => (Throw SyntaxError, st)
          | Some test =>
              if test classValue then (Return false, st)
              else
                (Return true,
                 setClass st elementEntry
                   (if Text.endsWithSpace classValue
                    then (classValue ++ cssClass)%string
                    else (classValue ++ " " ++ cssClass)%string))
          end
    end.

(** [byAttributeCleanup] *)
Definition byAttributeCleanup : CleanupFn :=
  fun st elementEntry =>
    match st elementEntry with
    | None => st
    | Some classValue =>
        if String.eqb classValue EmptyString then st
        else setClass st elementEntry (Text.collapse (Text.trim classValue))
    end.

(** [getCleanupFn]: [None] is [undefined]. *)
Definition getCleanupFn : option CleanupFn :=
  if className h then Some byClassNameCleanup
  else if attrMethods h then Some byAttributeCleanup
  else None.

(** The loop of [addEachClass] over [newClass], counting in [numAdded]. *)
Fixpoint addLoop (newClass : list string) (addFn : AddFn) (st : Store)
    (elementEntry : nat) (numAdded : Z) : Step Z :=
  match newClass with
  | [] => (Return numAdded, st)
  | cssClass :: rest =>
      match addFn st elementEntry cssClass with
      | (Return added, st') =>
          addLoop rest addFn st' elementEntry
                  (if added then numAdded + 1 else numAdded)
      | (Throw e, st') => (Throw e, st')
      end
  end.

(** [addEachClass] *)
Definition addEachClass (newClass : list string) (st : Store)
    (elementEntry : nat) (addFn : AddFn) (cleanupFn : option CleanupFn)
  : Step Z :=
  match addLoop newClass addFn st elementEntry 0 with
  | (Return numAdded, st') =>
      (Return numAdded,
       match cleanupFn with
       | Some cleanup => cleanup st' elementEntry
       | None => st'
       end)
  | (Throw e, st') => (Throw e, st')
  end.

(** [listByMethod] *)
Fixpoint listByMethod (newClass : list string) (items : list Item)
    (st : Store) (addFn : AddFn) (cleanupFn : option CleanupFn)
    (numEdited : Z) : Step Z :=
  match items with
  | [] => (Return numEdited, st)
  | entry :: rest =>
      match entry with
      | Elem id =>
          if isElement entry then
            match addEachClass newClass st id addFn cleanupFn with
            | (Return numAdded, st') =>
                listByMethod newClass rest st' addFn cleanupFn
                  (if numAdded =? 0 then numEdited else numEdited + 1)
            | (Throw e, st') => (Throw e, st')
            end
          else listByMethod newClass rest st addFn cleanupFn numEdited
      | NotElem => listByMethod newClass rest st addFn cleanupFn numEdited
      end
  end.

(** [byMethod]: [None] is [undefined]. *)
Definition byMethod (newClass : list string) (elementTarget : Target)
    (st : Store) (supported : bool) (addFn : AddFn)
    (cleanupFn : option CleanupFn) : Step (option Z) :=
  if negb supported then (Return None, st)
  else
    match elementTarget with
    | TList items =>
        match listByMethod newClass items st addFn cleanupFn 0 with
        | (Return n, st') => (Return (Some n), st')
        | (Throw e, st') => (Throw e, st')
        end
    | TElement id =>
        match addEachClass newClass st id addFn cleanupFn with
        | (Return numAdded, st') =>
            (Return (Some (if numAdded =? 0 then 0 else 1)), st')
        | (Throw e, st') => (Throw e, st')
        end
    | TPrim _ => (Throw TypeError, st)
    end.

(** [tryMethods] *)
Definition tryMethods (newClass : list string) (elementTarget : Target)
    (st : Store) : Step Z :=
  match byMethod newClass elementTarget st (classList h) byClassListAdd
          getCleanupFn with
  | (Throw e, st') => (Throw e, st')
  | (Return (Some n), st') => (Return n, st')
  | (Return None, st') =>
      match byMethod newClass elementTarget st' (className h) byClassNameAdd
              (Some byClassNameCleanup) with
      | (Throw e, st'') => (Throw e, st'')
      | (Return (Some n), st'') => (Return n, st'')
      | (Return None, st'') =>
          match byMethod newClass elementTarget st'' (attrMethods h)
                  byAttributeAdd (Some byAttributeCleanup) with
          | (Throw e, st3) => (Throw e, st3)
          | (Return (Some n), st3) => (Return n, st3)
          | (Return None, st3) => (Throw ReferenceError, st3)
          end
      end
  end.

(** [checkElementList] joined with the test of [checkParameters]: a list
    must not be empty; a value that is neither a list nor an Element is a
    TypeError (reading [length] of [null] is one as well). *)
Definition checkTarget (elementTarget : Target) : Outcome unit :=
  match elementTarget with
  | TList [] => Throw RangeError
  | TList _ => Return tt
  | TElement id => if isElement (Elem id) then Return tt else Throw TypeError
  | TPrim _ => Throw TypeError
  end.

(** The result of a call: what it returns or throws, the attributes of the
    page and the argument [newClass] afterwards. *)
Record Result : Type := mkResult {
  outcome : Outcome Z;
  page : Store;
  newClassAfter : ClassArg
}.

(** [addCSSClass(elementTarget, newClass)]:
    [this.checkParameters(); return this.tryMethods();] *)
Definition addCSSClass (fuel : nat) (st : Store) (elementTarget : Target)
    (newClass : ClassArg) : option Result :=
  match checkTarget elementTarget with
  | Throw e => Some (mkResult (Throw e) st newClass)
  | Return _ =>
      match checkClassParameter fuel (css3 h) newClass with
      | None => None
      | Some (Throw e, after) => Some (mkResult (Throw e) st after)
      | Some (Return classes, after) =>
          let (r, st') := tryMethods classes elementTarget st in
          Some (mkResult r st' after)
      end
  end.

End Script.

End AddCSSClass.

(* ================================================================= *)
(** ** src/replace/ReplaceNode.js: a Node replaced by a Node *)

Module ReplaceNode.
Import JS Dom.

(** The script is called as a plain function in code that is not strict,
    so that [this] is the global object in [replaceNode] and in the
    functions it passes on, such as [byDirectReplace]. *)

(** The globals the script tests with [typeof]: whether [Node],
    [HTMLDocument] and [DocumentFragment] are defined; and the identity the
    host gives to the next copy it makes. *)
Record Host : Type := mkHost {
  Node_defined : bool;
  HTMLDocument_defined : bool;
  DocumentFragment_defined : bool;
  freshId : nat
}.

(** A node as an argument of the script: the node, its [parentNode]
    ([None] is [null]), and the Number under its property [length] when it
    has one of its own ([None] otherwise): the number of controls of a
    form, of options of a select, or a Number stored there by a script. *)
Record Ref : Type := mkRef {
  node : Node;
  parentNode : option Node;
  ownLength : option Number
}.

(** The options after [checkOptions]: [!!options.copyNodes] and so on, all
    false when [options] is undefined. *)
Record Options : Type := mkOptions {
  copyNodes : bool;
  getNewList : bool;
  replaceOnce : bool
}.

Inductive OptionsArg : Type :=
| NoOptions
| NotAnObject
| TheOptions (o : Options).

(** [checkOptions] *)
Definition checkOptions (options : OptionsArg) : Outcome Options :=
  match options with
  | NoOptions => Return (mkOptions false false false)
  | TheOptions o => Return o
  | NotAnObject => Throw TypeError
  end.

(** Character data: Text, Comment, CDATA section, processing
    instruction. *)
Definition isCharacterData (n : Node) : bool :=
  let t := nodeType n in
  ((t =? TEXT_NODE) || (t =? COMMENT_NODE) || (t =? CDATA_SECTION_NODE)
   || (t =? PROCESSING_INSTRUCTION_NODE))%bool.

(** [node.length] where it is a Number: character data has the length of
    its data, any other node the Number of its own, if any. *)
Definition numericLength (r : Ref) : option Number :=
  if isCharacterData (node r)
  then Some (ofZ (Z.of_nat (String.length (nodeData (node r)))))
  else ownLength r.

(** [checkParamList(paramVal, name)] on a node (a node is of the type
    object for [typeof]): false without a numeric [length], true with one
    that is truthy, a RangeError with one that is falsy. *)
Definition checkParamList (paramVal : Ref) : Outcome bool :=
  match numericLength paramVal with
  | None => Return false
  | Some len => if truthyNum len then Return true else Throw RangeError
  end.

(** [isNode]: [obj instanceof Node] where [Node] is defined, else
    [!!(obj && obj.appendChild)]; a node passes either test. *)
Definition isNode (h : Host) (obj : Node) : bool :=
  if Node_defined h then true else true.

(** [isDocument]: [obj instanceof HTMLDocument] where that is defined, else
    [nodeType === 9].  The documents of the model are HTML documents. *)
Definition isDocument (h : Host) (obj : Node) : bool :=
  if HTMLDocument_defined h then nodeType obj =? DOCUMENT_NODE
  else nodeType obj =? 9.

(** [isDocumentFragment] *)
Definition isDocumentFragment (h : Host) (obj : Node) : bool :=
  if DocumentFragment_defined h then nodeType obj =? DOCUMENT_FRAGMENT_NODE
  else nodeType obj =? 11.

(** The calls into the host and the writes to the script's own state, in
    the order in which a run makes them.  [RemoveChildren] and
    [CopyToTarget] stand for the loops of the script's [removeChildren]
    and [copyToTarget], which call [removeChild], [appendChild] and
    [cloneNode] for each child. *)
Inductive Event : Type :=
| RemoveChildren (clearNode : Node)
| CopyToTarget (src dest : Node) (copy : bool)
| CloneNode (source : Node)
| AppendChild (parent child : Node)
| ReplaceWith (oldNode newNode : Node)
| ReplaceChild (parent newNode oldNode : Node)
| SetOuterHTML (dest src : Node)
| StoreEntry (index : Z) (value : Node)
| PushResult (value : Node).

(** What leaves a call as an exception: one the script throws itself, or
    one thrown by the host inside a call of the script, given by its
    name (HierarchyRequestError, NotFoundError and so on). *)
Inductive Thrown : Type :=
| ByScript (e : Exn)
| ByHost (name : string).

Inductive Result (A : Type) : Type :=
| Normal (a : A)
| Abrupt (x : Thrown).
Arguments Normal {A} a.
Arguments Abrupt {A} x.

(** A run: its result and its events.  A call that the host refused is
    the last event of its run. *)
Definition Run (A : Type) : Type := Result A * list Event.

(** A piece of the script: from the events so far to the run up to its
    end. *)
Definition Script (A : Type) : Type := list Event -> Run A.

Definition pure {A} (a : A) : Script A := fun past => (Normal a, past).

Definition throw {A} (e : Exn) : Script A :=
  fun past => (Abrupt (ByScript e), past).

Definition bindS {A B} (m : Script A) (k : A -> Script B) : Script B :=
  fun past =>
    match m past with
    | (Normal a, events) => k a events
    | (Abrupt x, events) => (Abrupt x, events)
    end.

(** A write to the script's own state: it cannot fail. *)
Definition note (ev : Event) : Script unit :=
  fun past => (Normal tt, past ++ [ev]).

(** [replacement.cloneNode(true)]: a copy with an identity of its own. *)
Definition cloneNode (h : Host) (n : Node) : Node :=
  mkNode (freshId h) (nodeType n) (props n) (nodeData n) (childNodes n).

Section Call.
(** The host: whether it refuses a call, given the events so far, and
    with which exception. *)
Variable host : list Event -> Event -> option string.
Variable h : Host.
Variable o : Options.
Variable replacement : Ref.
(** [original instanceof Array] *)
Variable originalIsArray : bool.

(** A call into the host: it returns, or throws what the host throws. *)
Definition call (ev : Event) : Script unit :=
  fun past =>
    match host past ev with
    | None => (Normal tt, past ++ [ev])
    | Some name => (Abrupt (ByHost name), past ++ [ev])
    end.

(** [tryReplaceWith], [tryReplaceChild] and [tryOuterHTML]: [None] is
    [null], the method is not there. *)
Definition tryReplaceWith (oldNode : Ref) (newNode : Node)
  : Script (option bool) :=
  if has "replaceWith" (node oldNode) then
    bindS (call (ReplaceWith (node oldNode) newNode)) (fun _ =>
    pure (Some true))
  else pure None.

Definition tryReplaceChild (oldNode : Ref) (newNode : Node)
  : Script (option bool) :=
  match parentNode oldNode with
  | Some nodeParent =>
      if has "replaceChild" nodeParent then
        bindS (call (ReplaceChild nodeParent newNode (node oldNode)))
          (fun _ => pure (Some true))
      else pure None
  | None => pure None
  end.

Definition tryOuterHTML (destEl : Ref) (srcEl : Node)
  : Script (option bool) :=
  if has "outerHTML" (node destEl) then
    bindS (call (SetOuterHTML (node destEl) srcEl)) (fun _ =>
    pure (Some true))
  else pure None.

(** [directReplaceMethods]: [replaceWith], else [replaceChild] on the
    parent, else [outerHTML], else false. *)
Definition directReplaceMethods (oldNode : Ref) (newNode : Node)
  : Script bool :=
  bindS (tryReplaceWith oldNode newNode) (fun result =>
  match result with
  | Some r => pure r
  | None =>
      bindS (tryReplaceChild oldNode newNode) (fun result =>
      match result with
      | Some r => pure r
      | None =>
          bindS (tryOuterHTML oldNode newNode) (fun result =>
          match result with
          | Some r => pure r
          | None => pure false
          end)
      end)
  end).

(** The copy step between the first test and the others:
    [this.copyNodes ? src = replacement.cloneNode(true) : src = replacement] *)
Definition copyStep : Script Node :=
  if copyNodes o then
    bindS (call (CloneNode (node replacement))) (fun _ =>
    pure (cloneNode h (node replacement)))
  else pure (node replacement).

(** [replacement.firstChild] as the last block reads it, after
    [removeChildren(origNode)]: nothing is left when the replacement is
    the original itself. *)
Definition firstChildAfterRemoval (origNode : Ref) : option Node :=
  if sameNode (node replacement) (node origNode) then None
  else firstChild (node replacement).

(** The five blocks of [byDirectReplace], one per case. *)

Definition documentToDocument (origNode : Ref) : Script bool :=
  if isDocument h (node origNode) then
    bindS (call (RemoveChildren (node origNode))) (fun _ =>
    bindS (call (CopyToTarget (node replacement) (node origNode)
                   (copyNodes o))) (fun _ =>
    pure true))
  else throw TypeError.

Definition fragmentOriginal (src : Node) (origNode : Ref) : Script bool :=
  bindS (call (RemoveChildren (node origNode))) (fun _ =>
  bindS (call (AppendChild (node origNode) src)) (fun _ =>
  pure true)).

Definition attachedOriginal (src : Node) (origNode : Ref) : Script bool :=
  bindS (directReplaceMethods origNode src) (fun result =>
  if (result && getNewList o && negb (isDocumentFragment h src))%bool then
    bindS (note (PushResult src)) (fun _ => pure result)
  else pure result).

Definition arrayEntry (index : Z) : Script bool :=
  bindS (note (StoreEntry index (node replacement))) (fun _ => pure true).

Definition otherUnattached (src : Node) (origNode : Ref) : Script bool :=
  bindS (call (RemoveChildren (node origNode))) (fun _ =>
  bindS (match firstChildAfterRemoval origNode with
         | Some _ => call (CopyToTarget src (node origNode) (copyNodes o))
         | None => call (AppendChild (node origNode) (node replacement))
         end) (fun _ =>
  bindS (if getNewList o then note (PushResult (node origNode))
         else pure tt) (fun _ =>
  pure true))).

(** [byDirectReplace(origNode, index)]; [index] is [None] when the call
    passes no second argument. *)
Definition byDirectReplace (origNode : Ref) (index : option Z)
  : Script bool :=
  if isDocument h (node replacement) then documentToDocument origNode
  else
    bindS copyStep (fun src =>
    if isDocumentFragment h (node origNode) then
      fragmentOriginal src origNode
    else
      match parentNode origNode with
      | Some _ => attachedOriginal src origNode
      | None =>
          match index with
          | Some i =>
              if originalIsArray then arrayEntry i
              else otherUnattached src origNode
          | None => otherUnattached src origNode
          end
      end).

End Call.

(** What [replaceNode] returns: a number, a node, or [undefined]. *)
Inductive Returned : Type :=
| RNumber (z : Z)
| RNode (n : Node)
| RUndefined.

(** [this.replNode[0]] after a run that started with [replNode = []]. *)
Fixpoint firstPushed (events : list Event) : Returned :=
  match events with
  | PushResult v :: _ => RNode v
  | _ :: r => firstPushed r
  | [] => RUndefined
  end.

(** The end of [tryReplacingOrig] for a Node [original]:
    [if (replaceFn(original)) return this.getNewList ? this.replNode[0] : 1;
     return 0;] *)
Definition tryReplacingOrig (o : Options) (run : Run bool) : Run Returned :=
  match run with
  | (Normal true, events) =>
      (Normal (if getNewList o then firstPushed events else RNumber 1),
       events)
  | (Normal false, events) => (Normal (RNumber 0), events)
  | (Abrupt x, events) => (Abrupt x, events)
  end.

(** [replaceNode(original, replacement, options)] for a Node [original] and
    a Node [replacement]: [tryMethods], which checks the options and
    [original], then calls [tryReplacingOrig] with [byDirectReplace]. *)
Definition replaceNode (host : list Event -> Event -> option string)
    (h : Host) (original replacement : Ref) (options : OptionsArg)
  : Run Returned :=
  match checkOptions options with
  | Throw e => (Abrupt (ByScript e), [])
  | Return o =>
      match checkParamList original with
      | Throw e => (Abrupt (ByScript e), [])
      | Return isOrigList =>
          if isNode h (node replacement) then
            if isNode h (node original) then
              tryReplacingOrig o
                (byDirectReplace host h o replacement false original None
                   [])
            else (Abrupt (ByScript TypeError), [])
          else (Abrupt (ByScript TypeError), [])
      end
  end.

(** *** The cases of the decision tree *)

Inductive Case : Type :=
| DocumentToDocument
| FragmentOriginal
| AttachedOriginal
| ArrayEntry
| OtherUnattached.

(** The cases in the order of the source. *)
Definition cases : list Case :=
  [DocumentToDocument; FragmentOriginal; AttachedOriginal; ArrayEntry;
   OtherUnattached].


(** The test that guards the block of a case in the source, taken by
    itself; the last block has no test of its own. *)
Definition test (h : Host) (replacement origNode : Ref)
    (index : option Z) (originalIsArray : bool) (c : Case) : bool :=
  match c with
  | DocumentToDocument => isDocument h (node replacement)
  | FragmentOriginal => isDocumentFragment h (node origNode)
  | AttachedOriginal =>
      match parentNode origNode with Some _ => true | None => false end
  | ArrayEntry =>
      (match index with Some _ => true | None => false end
       && originalIsArray)%bool
  | OtherUnattached => true
  end.

(** The first case, in the order of the source, whose test holds. *)
Definition chosen (h : Host) (replacement origNode : Ref)
    (index : option Z) (originalIsArray : bool) : Case :=
  hd OtherUnattached
    (filter (test h replacement origNode index originalIsArray) cases).


End ReplaceNode.

(* ================================================================= *)
(** ** Sample hosts and documents *)

Module Samples.
Import JS Dom RemoveChildren.

(** A host that binds [Node] and [Element] to its interfaces. *)
Definition standardHost : Host := mkHost true true.

(** A host in which the globals [Node] and [Element] are [undefined], as
    GetAllComments.js leaves [Element] in a browser without the interface
    ([Element = window.Element]). *)
Definition legacyHost : Host := mkHost false false.

(** The properties of a node in a browser of today. *)
Definition currentProps : list string :=
  ["replaceChildren"; "textContent"; "innerHTML"; "firstChild"; "lastChild";
   "childNodes"; "nextSibling"; "previousSibling"; "childElementCount";
   "children"; "nodeValue"; "hasChildNodes"]%string.

(** The properties of a Document before [replaceChildren] existed (it was
    added to browsers in 2020; [innerHTML] is a property of Elements). *)
Definition olderDocumentProps : list string :=
  ["textContent"; "firstChild"; "lastChild"; "childNodes"; "nextSibling";
   "previousSibling"; "childElementCount"; "children"]%string.

(** The properties of an Element in a browser of the DOM Level 1 era. *)
Definition legacyProps : list string :=
  ["innerHTML"; "firstChild"; "lastChild"; "childNodes"; "nextSibling";
   "previousSibling"; "children"]%string.

Definition leaf (id : nat) (type : Z) (ps : list string) (data : string)
  : Node := mkNode id type ps data [].

(** [<div>hello<span></span><!--note--></div>] in a browser of today. *)
Definition currentDiv : Node :=
  mkNode 1 ELEMENT_NODE currentProps ""
    [leaf 2 TEXT_NODE currentProps "hello";
     leaf 3 ELEMENT_NODE currentProps "";
     leaf 4 COMMENT_NODE currentProps "note"].

(** A document [<!DOCTYPE html><html></html>] in an older browser. *)
Definition olderDocument : Node :=
  mkNode 10 DOCUMENT_NODE olderDocumentProps ""
    [leaf 11 DOCUMENT_TYPE_NODE olderDocumentProps "";
     leaf 12 ELEMENT_NODE ("innerHTML"%string :: olderDocumentProps) ""].

(** [<p><b></b>text</p>] in a legacy browser. *)
Definition legacyParagraph : Node :=
  mkNode 20 ELEMENT_NODE legacyProps ""
    [leaf 21 ELEMENT_NODE legacyProps "";
     leaf 22 TEXT_NODE legacyProps "text"].

(** A host of GetAllComments.js without the TreeWalker API. *)
Definition hostWithoutTreeWalker : GetAllComments.Host :=
  GetAllComments.mkHost true true true true false
    (mkNode 30 DOCUMENT_NODE olderDocumentProps "" []).

(** [<div><!--a note--></div>] where the Comment node offers none of
    [nodeValue], [textContent] and [innerHTML]. *)
Definition divWithOpaqueComment : Node :=
  mkNode 31 ELEMENT_NODE legacyProps ""
    [leaf 32 COMMENT_NODE ["firstChild"; "nextSibling"]%string "a note"].

(** [{ container: div, search: "note", caseSensitive: true }] *)
Definition searchNote : GetAllComments.OptionsArg :=
  GetAllComments.TheOptions
    (GetAllComments.mkOptions
       (Some (GetAllComments.VNode divWithOpaqueComment))
       (PStr "note") false true).

(** A host of GetAllComments.js in a browser of today, on a page whose
    body is [currentDiv]. *)
Definition currentCommentsHost : GetAllComments.Host :=
  GetAllComments.mkHost true true true true true
    (mkNode 40 DOCUMENT_NODE currentProps "" [currentDiv]).

(** [{ container: currentDiv, search: "NOTE" }] *)
Definition searchNoteInDiv : GetAllComments.OptionsArg :=
  GetAllComments.TheOptions
    (GetAllComments.mkOptions (Some (GetAllComments.VNode currentDiv))
       (PStr "NOTE") false false).

(** A browser without [classList]: [className] and the attribute methods
    are there, and CSS 3. *)
Definition hostWithoutClassList : AddCSSClass.Host :=
  AddCSSClass.mkHost true false true true true.


(** A page on which the Element 1 is [<div class="-a">]; no other Element
    has a [class] attribute. *)
Definition pageWithHyphenClass : AddCSSClass.Store :=
  fun id => if Nat.eqb id 1 then Some "-a"%string else None.

(** A host of ReplaceNode.js in a browser of today. *)
Definition replaceHost : ReplaceNode.Host := ReplaceNode.mkHost true true true 99.


Definition looseSpan : ReplaceNode.Ref :=
  ReplaceNode.mkRef (leaf 51 ELEMENT_NODE currentProps "") None None.



(** An empty DocumentFragment and a Document. *)
Definition looseFragment : ReplaceNode.Ref :=
  ReplaceNode.mkRef (leaf 53 DOCUMENT_FRAGMENT_NODE currentProps "") None
    None.

Definition otherDocument : ReplaceNode.Ref :=
  ReplaceNode.mkRef (leaf 54 DOCUMENT_NODE currentProps "") None None.


Definition hierarchyRule : list ReplaceNode.Event -> ReplaceNode.Event
    -> option string :=
  fun _ ev =>
    match ev with
    | ReplaceNode.AppendChild parent child =>
        if sameNode parent child then Some "HierarchyRequestError"%string
        else None
    | _ => None
    end.

(** The [span] of [currentDiv], attached to it. *)
Definition attachedSpan : ReplaceNode.Ref :=
  ReplaceNode.mkRef
    (leaf 3 ELEMENT_NODE ("replaceWith"%string :: currentProps) "")
    (Some currentDiv) None.

End Samples.

(* ================================================================= *)
(** ** src/unnamed/part_001 and part_002: the way up from a node *)

(** [getOwnerDocument] and [getRootNodePolyfill] read a node upwards only:
    its [parentNode], the [host] of a ShadowRoot, its [ownerDocument]. *)
Module Ancestry.
Import JS.

(** A node with what lies above it.  [nodeId] is the identity of the
    object; [isHTMLDocument] and [isShadowRoot] tell whether the node is an
    instance of these interfaces; [parentNode] and [host] are [None] where
    the property is [null] or [undefined]; [ownerDocument] is [None] where
    the host has no such property ([undefined]), else its value, [null]
    ([Some None]) or a Document. *)
Inductive Node : Type := mkNode {
  nodeId : nat;
  nodeType : Z;
  isHTMLDocument : bool;
  isShadowRoot : bool;
  parentNode : option Node;
  host : option Node;
  ownerDocument : option (option Node)
}.

(** The globals the scripts test: whether [Node], [HTMLDocument] and
    [ShadowRoot] are defined, and whether the nodes of the host have a
    [getRootNode] of their own. *)
Record Host : Type := mkHost {
  Node_defined : bool;
  HTMLDocument_defined : bool;
  ShadowRoot_defined : bool;
  getRootNode_native : bool
}.

(** What can be passed as [node]: a primitive, a node of the host, or an
    object that is no node.  Such an object holds data only (an object
    with methods or accessors of its own is outside the model): its
    properties [appendChild] and [getRootNode] ([PUndefined] when absent),
    and none of the properties [parentNode], [host], [nodeType] and
    [ownerDocument]. *)
Inductive Value : Type :=
| VPrim (p : Prim)
| VNode (n : Node)
| VObject (appendChildProp getRootNodeProp : Prim).

(** [isNode]: [obj instanceof Node] where [Node] is defined, else
    [!!(obj && obj.appendChild)].  Every node of the host has the method
    [appendChild]. *)
Definition isNode (h : Host) (obj : Value) : bool :=
  if Node_defined h then
    match obj with VNode _ => true | _ => false end
  else
    match obj with
    | VPrim _ => false
    | VNode _ => true
    | VObject ac _ => truthy ac
    end.

(** [isDocument]: [obj instanceof HTMLDocument] where [HTMLDocument] is
    defined, else [!!(obj && obj.nodeType === 9)]. *)
Definition isDocument (h : Host) (obj : Node) : bool :=
  if HTMLDocument_defined h then isHTMLDocument obj
  else nodeType obj =? 9.

(** [while (owner.parentNode) owner = owner.parentNode;]: the node at the
    top of the chain of parents. *)
Fixpoint climb (owner : Node) : Node :=
  match owner with
  | mkNode _ _ _ _ (Some parent) _ _ => climb parent
  | mkNode _ _ _ _ None _ _ => owner
  end.

(** *** part_001: getOwnerDocument *)

Module OwnerDocument.

(** [tryMethods] for a node; [None] is [null]. *)
Definition tryMethods (h : Host) (node : Node) : option Node :=
  if isDocument h node then None
  else
    match ownerDocument node with
    | Some value => value
    | None =>
        let owner := climb node in
        if isDocument h owner then Some owner else None
    end.


End OwnerDocument.

(** *** part_002: getRootNodePolyfill *)

Module RootNode.

(** The argument [options]: [undefined], a value that is no object (or is
    [null]), or an object with its property [composed] ([PUndefined] when
    absent; a value that is an object itself is outside the model). *)
Inductive OptionsArg : Type :=
| NoOptions
| NotAnObject
| TheOptions (composed : Prim).

(** [checkOptionsParam]: the value of [options.composed] afterwards. *)
Definition checkOptionsParam (options : OptionsArg) : Outcome bool :=
  match options with
  | NoOptions => Return false
  | TheOptions (PBool composed) => Return composed
  | TheOptions _ => Throw ReferenceError
  | NotAnObject => Throw TypeError
  end.

Definition isSome {A : Type} (o : option A) : bool :=
  match o with Some _ => true | None => false end.

(** [upwardsTraversal(startNode)]; [fuel] bounds the depth of the
    recursion through the hosts of ShadowRoots. *)
Fixpoint upwardsTraversal (fuel : nat) (h : Host) (composed : bool)
    (startNode : Node) : option Node :=
  let currentNode := climb startNode in
  if (ShadowRoot_defined h && isShadowRoot currentNode && composed
      && isSome (host currentNode))%bool then
    match fuel, host currentNode with
    | S fuel', Some shadowHost => upwardsTraversal fuel' h composed shadowHost
    | _, _ => None
    end
  else Some currentNode.

(** The [getRootNode] of the host itself, as the DOM Standard defines it:
    the root of the node, or with [composed] its shadow-including root (the
    shadow-including root of the host of the root, where the root is a
    ShadowRoot). *)
Fixpoint shadowIncludingRoot (n : Node) : Node :=
  match n with
  | mkNode _ _ _ _ (Some parent) _ _ => shadowIncludingRoot parent
  | mkNode _ _ _ true None (Some shadowHost) _ =>
      shadowIncludingRoot shadowHost
  | mkNode _ _ _ _ None _ _ => n
  end.

Definition nativeGetRootNode (composed : bool) (n : Node) : Node :=
  if composed then shadowIncludingRoot n else climb n.

(** [tryMethods] for a node.  A host without a [getRootNode] of its own has
    the one this script installs on [Node.prototype] where [Node] is
    defined: it calls the script again with [overridden] set. *)
Definition tryMethods (fuel : nat) (h : Host) (node : Node)
    (composed : bool) (overridden : Prim) : option Node :=
  if truthy overridden then upwardsTraversal fuel h composed node
  else if getRootNode_native h then Some (nativeGetRootNode composed node)
  else upwardsTraversal fuel h composed node.

(** [tryMethods] for an object that passes for a node without being one:
    it has no [parentNode] and is no ShadowRoot, so that [upwardsTraversal]
    returns it; a truthy [getRootNode] is called, and the call of a value
    that is no function is a TypeError. *)
Definition tryMethodsOnObject (node : Value) (getRootNodeProp : Prim)
    (overridden : Prim) : Outcome Value :=
  if truthy overridden then Return node
  else if truthy getRootNodeProp then Throw TypeError
  else Return node.

(** [getRootNodePolyfill(node, options, overridden)]: [checkParams();
    return tryMethods();].  [None] when [fuel] did not suffice. *)
Definition getRootNodePolyfill (fuel : nat) (h : Host) (node : Value)
    (options : OptionsArg) (overridden : Prim) : option (Outcome Value) :=
  if negb (isNode h node) then Some (Throw TypeError)
  else
    match checkOptionsParam options with
    | Throw e => Some (Throw e)
    | Return composed =>
        match node with
        | VNode n =>
            match tryMethods fuel h n composed overridden with
            | Some r => Some (Return (VNode r))
            | None => None
            end
        | VObject _ getRootNodeProp =>
            Some (tryMethodsOnObject node getRootNodeProp overridden)
        | VPrim _ => Some (Return node)
        end
    end.

(** A bound on the recursion of [upwardsTraversal]: the nodes above [n],
    through parents and hosts. *)
Fixpoint height (n : Node) : nat :=
  match n with
  | mkNode _ _ _ _ parent shadowHost _ =>
      S (match parent with Some p => height p | None => 0 end
         + match shadowHost with Some x => height x | None => 0 end)
  end.

End RootNode.

End Ancestry.

(* ================================================================= *)
(** ** src/class/ElementsByClass.js *)

Module ElementsByClass.
Import JS.

(** An entry of a list that the host returns: an Element with its identity
    and what ContainsCSSClass.js reads of it, or a node that is no Element
    (some browsers list Comment nodes under [getElementsByTagName] with
    the asterisk). *)
Inductive Entry : Type :=
| AnElement (id : nat) (e : ContainsCSSClass.Element)
| NoElement (id : nat).

(** A truthy value passed as [container], as the script reads it: whether
    it is an instance of [Element] or of [HTMLDocument], its [nodeType],
    whether [style] and [documentElement] are truthy, which of the three
    search methods it has, and the list that [getElementsByTagName] gives
    for the asterisk: the Elements below the node in document order (and,
    in some browsers, other nodes). *)
Record Container : Type := mkContainer {
  isElementInstance : bool;
  isHTMLDocument : bool;
  nodeType : Z;
  style : bool;
  documentElement : bool;
  has_getElementsByClassName : bool;
  has_querySelectorAll : bool;
  has_getElementsByTagName : bool;
  below : list Entry
}.

(** What can be passed as [container]: a falsy value or a truthy one. *)
Inductive ContainerArg : Type :=
| Falsy
| Truthy (c : Container).

(** The globals the script reads: whether [Element] and [HTMLDocument] are
    defined, whether strings have [trim], whether [containsCSSClass] is a
    function, and the page's [document]. *)
Record Host : Type := mkHost {
  Element_defined : bool;
  HTMLDocument_defined : bool;
  trim_supported : bool;
  containsCSSClass_loaded : bool;
  document : Container
}.

(** What the call returns: a live HTMLCollection, a static NodeList, an
    Array, or [null]. *)
Inductive Result : Type :=
| Live (l : list Entry)
| Static (l : list Entry)
| AnArray (l : list Entry)
| Null.

(** [isContainerElement] on a truthy value *)
Definition isContainerElement (h : Host) (obj : Container) : bool :=
  if (Element_defined h && HTMLDocument_defined h)%bool then
    (isElementInstance obj || isHTMLDocument obj)%bool
  else if ((nodeType obj =? 1) && style obj)%bool then true
  else ((nodeType obj =? 9) && documentElement obj)%bool.

(** [isElement] on an entry of a list: [obj instanceof Element], else
    [!!(obj && obj.nodeType === 1 && obj.style)]. *)
Definition isElement (h : Host) (obj : Entry) : bool :=
  match obj with
  | AnElement _ e =>
      ContainsCSSClass.isElement (Element_defined h)
        (ContainsCSSClass.VElement e)
  | NoElement _ => false
  end.

(** [checkParameter]: [className] and [container] as the methods use them
    afterwards. *)
Definition checkParameter (h : Host) (className : Prim)
    (container : ContainerArg) : Outcome (string * Container) :=
  match className with
  | PStr s =>
      let trimmed := if trim_supported h then Text.trim s else s in
      if String.eqb trimmed EmptyString then Throw RangeError
      else
        let cleaned := Text.removeNul trimmed in
        match container with
        | Falsy => Return (cleaned, document h)
        | Truthy c =>
            if isContainerElement h c then Return (cleaned, c)
            else Throw TypeError
        end
  | _ => Throw TypeError
  end.

(** *** The host's own searches *)

(** [c] is one of the tokens of the [class] attribute of [e]. *)
Definition hasClass (e : ContainsCSSClass.Element) (c : string) : bool :=
  existsb (String.eqb c)
    (Text.tokens (match ContainsCSSClass.classAttr e with
                  | Some v => v
                  | None => EmptyString
                  end)).

(** [container.getElementsByClassName(classNames)] of the DOM Standard (in
    a document that is not in quirks mode): the Elements below the
    container that have all the tokens of [classNames]; none when there is
    no token. *)
Definition getElementsByClassName (c : Container) (classNames : string)
  : list Entry :=
  let wanted := Text.tokens classNames in
  match wanted with
  | [] => []
  | _ =>
      filter (fun entry =>
                match entry with
                | AnElement _ e => forallb (hasClass e) wanted
                | NoElement _ => false
                end)
             (below c)
  end.

(** *** The selector of [byQuerySelector] *)

(** The character codes of the class that [byQuerySelector] escapes: the
    underscore, the exclamation mark, the double quote, the characters from
    the hash to the asterisk, the range from plus to full stop, the slash,
    the backslash, colon to at sign, the square brackets, the comma, caret,
    backquote, braces, bar and tilde. *)
Definition specialCodes : list nat :=
  ([95; 33; 34; 35; 36; 37; 38; 39; 40; 41; 42]
   ++ [43; 44; 45; 46]
   ++ [47; 92; 58; 59; 60; 61; 62; 63; 64; 91; 44; 93; 94; 96; 123; 124;
       125; 126])%nat.

Definition isSpecial (c : ascii) : bool :=
  existsb (Nat.eqb (Text.code c)) specialCodes.

(** The first [replace]: a backslash is put before each special
    character. *)
Fixpoint escape (l : list ascii) : list ascii :=
  match l with
  | [] => []
  | c :: r =>
      if isSpecial c then "\"%char :: c :: escape r else c :: escape r
  end.

(** The second [replace]: every run of white space becomes one full
    stop. *)
Fixpoint dotRuns (l : list ascii) (inRun : bool) : list ascii :=
  match l with
  | [] => []
  | c :: r =>
      if Text.isSpace c then
        if inRun then dotRuns r true else "."%char :: dotRuns r true
      else c :: dotRuns r false
  end.

Definition selector (className : string) : string :=
  String "."%char
    (Text.text (dotRuns (escape (Text.chars className)) false)).

Section Script.

(** The RegExp engine of the host (for [containsCSSClass]) and its
    [querySelectorAll], which throws a SyntaxError on a selector it cannot
    read. *)
Variable RegExp : string -> string -> option (string -> bool).
Variable querySelectorAll : Container -> string -> Outcome (list Entry).

(** The methods: [None] is [undefined]. *)
Definition byClassName (container : Container) (className : string)
  : option Result :=
  if has_getElementsByClassName container
  then Some (Live (getElementsByClassName container className))
  else None.

Definition byQuerySelector (container : Container) (className : string)
  : Outcome (option Result) :=
  if negb (has_querySelectorAll container) then Return None
  else
    bind (querySelectorAll container (selector className))
         (fun l => Return (Some (Static l))).

(** The loop of [byTagNameBackup] over [elementList]; [containsCSSClass] is
    called with two arguments. *)
Fixpoint tagNameLoop (fuel : nat) (h : Host) (className : string)
    (elementList : list Entry) : option (Outcome (list Entry)) :=
  match elementList with
  | [] => Some (Return [])
  | element :: rest =>
      let continue (keep : bool) :=
        match tagNameLoop fuel h className rest with
        | Some (Return results) =>
            Some (Return (if keep then element :: results else results))
        | other => other
        end in
      match element with
      | AnElement _ e =>
          if isElement h element then
            match ContainsCSSClass.containsCSSClass RegExp (Element_defined h)
                    fuel (ContainsCSSClass.VElement e)
                    (ClassParam.CString className) PUndefined with
            | Some (Return found) => continue found
            | Some (Throw err) => Some (Throw err)
            | None => None
            end
          else continue false
      | NoElement _ => continue false
      end
  end.

Definition byTagNameBackup (fuel : nat) (h : Host) (container : Container)
    (className : string) : option (Outcome (option Result)) :=
  if negb (has_getElementsByTagName container) then Some (Return None)
  else if negb (containsCSSClass_loaded h) then Some (Throw ReferenceError)
  else
    match tagNameLoop fuel h className (below container) with
    | Some (Return results) => Some (Return (Some (AnArray results)))
    | Some (Throw err) => Some (Throw err)
    | None => None
    end.

Definition orNull (r : option Result) : Result :=
  match r with Some v => v | None => Null end.

(** [liveMethods], [staticMethods], [defaultMethods] *)
Definition liveMethods (container : Container) (className : string)
  : Result :=
  orNull (byClassName container className).

Definition staticMethods (fuel : nat) (h : Host) (container : Container)
    (className : string) : option (Outcome Result) :=
  match byQuerySelector container className with
  | Throw err => Some (Throw err)
  | Return (Some result) => Some (Return result)
  | Return None =>
      match byTagNameBackup fuel h container className with
      | Some (Return result) => Some (Return (orNull result))
      | Some (Throw err) => Some (Throw err)
      | None => None
      end
  end.

Definition defaultMethods (fuel : nat) (h : Host) (container : Container)
    (className : string) : option (Outcome Result) :=
  match byClassName container className with
  | Some result => Some (Return result)
  | None => staticMethods fuel h container className
  end.

(** [tryMethods] *)
Definition tryMethods (fuel : nat) (h : Host) (container : Container)
    (className : string) (getLive : Prim) : option (Outcome Result) :=
  match getLive with
  | PBool true => Some (Return (liveMethods container className))
  | PBool false => staticMethods fuel h container className
  | _ => defaultMethods fuel h container className
  end.

(** [elementsByClass(className, container, getLive)]:
    [this.checkParameter(); return this.tryMethods();].  [None] when
    [fuel] did not suffice for a call of [containsCSSClass]. *)
Definition elementsByClass (fuel : nat) (h : Host) (className : Prim)
    (container : ContainerArg) (getLive : Prim) : option (Outcome Result) :=
  match checkParameter h className container with
  | Throw err => Some (Throw err)
  | Return (name, c) => tryMethods fuel h c name getLive
  end.

End Script.

End ElementsByClass.

(* ================================================================= *)
(** ** src/replace/ReplaceNode.js: the lists of the new nodes *)

Module ReplaceLists.
Import JS Dom.

(** An entry of [listCopies] or [resultArray]: a node, or an Array of
    nodes. *)
Inductive Copy : Type :=
| ANode (n : Node)
| AnArray (nodes : list Node).

(** An entry of [this.replNode]: a node, or an Array whose entries are
    nodes or [undefined] ([None]). *)
Inductive Recorded : Type :=
| RNode (n : Node)
| RList (newNodes : list (option Node)).

(** [copyToStaticList(list)]: the loop pushes each entry. *)
Definition copyToStaticList {A : Type} (entries : list A) : list A :=
  fold_left (fun newList entry => newList ++ [entry]) entries [].

(** [copyChildren(srcCont, resultArray, atStart)]: what the call returns
    ([None] is [undefined]) and [resultArray] afterwards. *)
Definition copyChildren (srcCont : Node) (resultArray : list Copy)
    (atStart : bool) : option (list Copy) * list Copy :=
  match childNodes srcCont with
  | [child] =>
      if atStart then (Some (ANode child :: resultArray), resultArray)
      else (None, resultArray ++ [ANode child])
  | children =>
      let tempNodes := fold_left (fun t child => t ++ [child]) children [] in
      if atStart then (Some (AnArray tempNodes :: resultArray), resultArray)
      else (None, resultArray ++ [AnArray tempNodes])
  end.

(** The inner loop of [copyListNodes]: [innerIndex] runs up to
    [listCopies.length], and [outerEntry[innerIndex]] is [undefined]
    beyond the entries of [outerEntry]. *)
Definition innerLoop (bound : nat) (outerEntry : list Node)
    (newNodes : list (option Node)) : list (option Node) :=
  fold_left (fun acc innerIndex => acc ++ [nth_error outerEntry innerIndex])
            (seq 0 bound) newNodes.

(** [copyListNodes(listCopies)]: what the call returns and [this.replNode]
    afterwards; [listCopies] is [None] when it is [undefined]. *)
Definition copyListNodes (listCopies : option (list Copy))
    (replNode : list Recorded) : bool * list Recorded :=
  match listCopies with
  | None => (false, replNode)
  | Some [] => (false, replNode)
  | Some entries =>
      let newNodes :=
        fold_left
          (fun newNodes outerEntry =>
             match outerEntry with
             | AnArray nodes => innerLoop (List.length entries) nodes newNodes
             | ANode n => newNodes ++ [Some n]
             end)
          entries [] in
      (true, replNode ++ [RList newNodes])
  end.

End ReplaceLists.

(* ================================================================= *)
(** ** Further sample elements and pages *)

Module Cases.
Import JS.

(** A browser without [ShadowRoot], [getRootNode] and [Node]. *)
Definition legacyBrowser : Ancestry.Host :=
  Ancestry.mkHost false false false false.

(** A browser of today. *)
Definition shadowBrowser : Ancestry.Host :=
  Ancestry.mkHost true true true true.

(** A page: the document, its [html] element, a [div] below it that hosts
    a ShadowRoot, and a Text node in a [span] of the shadow tree. *)
Definition pageDocument : Ancestry.Node :=
  Ancestry.mkNode 100 9 true false None None (Some None).

Definition pageHtml : Ancestry.Node :=
  Ancestry.mkNode 101 1 false false (Some pageDocument) None
    (Some (Some pageDocument)).

Definition shadowHostDiv : Ancestry.Node :=
  Ancestry.mkNode 102 1 false false (Some pageHtml) None
    (Some (Some pageDocument)).

Definition shadowRootNode : Ancestry.Node :=
  Ancestry.mkNode 103 11 false true None (Some shadowHostDiv)
    (Some (Some pageDocument)).

Definition shadowSpan : Ancestry.Node :=
  Ancestry.mkNode 104 1 false false (Some shadowRootNode) None
    (Some (Some pageDocument)).

Definition slottedText : Ancestry.Node :=
  Ancestry.mkNode 105 3 false false (Some shadowSpan) None
    (Some (Some pageDocument)).

(** [<li class="menu  item">] in a browser of today: [classList],
    [className] and the attribute methods are there, and
    [style.backgroundSize] is the empty string. *)
Definition menuItem : ContainsCSSClass.Element :=
  ContainsCSSClass.mkElement (Some "menu  item"%string) true true true
    (Some (PStr EmptyString)).


(** [<li class="menu  item">] in a browser without [classList] and without
    a string [className]: the attribute methods are there. *)
Definition legacyMenuItem : ContainsCSSClass.Element :=
  ContainsCSSClass.mkElement (Some "menu  item"%string) false false true
    (Some (PStr EmptyString)).

(** An Element without a [class] attribute, and one with a single
    class, in a browser without [classList]. *)
Definition legacyPlainItem : ContainsCSSClass.Element :=
  ContainsCSSClass.mkElement None false true true (Some (PStr EmptyString)).

Definition legacyMenu : ContainsCSSClass.Element :=
  ContainsCSSClass.mkElement (Some "menu"%string) false true true
    (Some (PStr EmptyString)).

(** A document of a browser that has [getElementsByTagName] only; the list
    of the nodes below it holds a Comment node as well. *)
Definition legacyPage : ElementsByClass.Container :=
  ElementsByClass.mkContainer false true 9 false true false false true
    [ElementsByClass.AnElement 1 legacyPlainItem;
     ElementsByClass.AnElement 2 legacyMenuItem;
     ElementsByClass.NoElement 3;
     ElementsByClass.AnElement 4 legacyMenu;
     ElementsByClass.AnElement 5 legacyMenuItem].

Definition legacyHost : ElementsByClass.Host :=
  ElementsByClass.mkHost false false false true legacyPage.

(** The same document in a browser with [querySelectorAll]. *)
Definition modernPage : ElementsByClass.Container :=
  ElementsByClass.mkContainer false true 9 false true true true true
    [ElementsByClass.AnElement 1 menuItem].

Definition modernHost : ElementsByClass.Host :=
  ElementsByClass.mkHost true true true true modernPage.

(** [<div><!--todo: a--><p>text<!--note--></p><!--TODO b--></div>] in a
    current browser, and the call
    [getAllComments({ container: commentedDiv, search: "todo" })]. *)
Definition commentedDiv : Dom.Node :=
  Dom.mkNode 50 Dom.ELEMENT_NODE Samples.currentProps EmptyString
    [Samples.leaf 51 Dom.COMMENT_NODE Samples.currentProps "todo: a";
     Dom.mkNode 52 Dom.ELEMENT_NODE Samples.currentProps EmptyString
       [Samples.leaf 53 Dom.TEXT_NODE Samples.currentProps "text";
        Samples.leaf 54 Dom.COMMENT_NODE Samples.currentProps "note"];
     Samples.leaf 55 Dom.COMMENT_NODE Samples.currentProps "TODO b"].

Definition searchTodo : GetAllComments.OptionsArg :=
  GetAllComments.TheOptions
    (GetAllComments.mkOptions (Some (GetAllComments.VNode commentedDiv))
       (PStr "todo") false false).

(** A page of a browser that has [getElementsByTagName] only, with
    Elements that have [className] or [classList]. *)
Definition oldPage : ElementsByClass.Host :=
  ElementsByClass.mkHost false false true true
    (ElementsByClass.mkContainer false true 9 false true false false true
       [ElementsByClass.AnElement 1 legacyMenu;
        ElementsByClass.NoElement 2;
        ElementsByClass.AnElement 3 menuItem]).

End Cases.

(* ================================================================= *)
(** * Properties *)

(** ** src/array/At.js *)

Module AtFacts.
Import JS At.

(** The indices strictly between -1 and 0. *)
Definition in_gap (x : Number) : bool :=
  match x with
  | Fin q => (negb (Qle_bool q (-1)) && negb (Qle_bool 0 q))%bool
  | _ => false
  end.

Lemma Qfloor_sum_Z (a b : Z) :
  Qfloor (inject_Z a + inject_Z b) = a + b.
Proof.
  unfold Qfloor, Qplus, inject_Z; simpl.
  rewrite Z.div_1_r. lia.
Qed.

Lemma getIndex_ofZ (o : ArrayLike) (k : Z) :
  getIndex o (ofZ k) = al_elems o k.
Proof.
  unfold getIndex, ofZ. rewrite Qfloor_Z.
  now rewrite (proj2 (Qeq_bool_iff _ _) (Qeq_refl _)).
Qed.

Lemma getIndex_sum (o : ArrayLike) (a b : Z) :
  getIndex o (Fin (inject_Z a + inject_Z b)) = al_elems o (a + b).
Proof.
  unfold getIndex. rewrite Qfloor_sum_Z.
  assert (E : inject_Z a + inject_Z b == inject_Z (a + b))
    by (rewrite inject_Z_plus; reflexivity).
  now rewrite (proj2 (Qeq_bool_iff _ _) E).
Qed.

Lemma Qle_bool_Z (a b : Z) :
  Qle_bool (inject_Z a) (inject_Z b) = (a <=? b).
Proof.
  unfold Qle_bool, inject_Z; simpl. now rewrite !Z.mul_1_r.
Qed.

(** A rational is below an integer exactly when its floor is. *)
Lemma Qfloor_lt_Z (q : Q) (n : Z) :
  Qle_bool (inject_Z n) q = (n <=? Qfloor q).
Proof.
  destruct (Z.leb_spec n (Qfloor q)) as [H | H].
  - apply Qle_bool_iff.
    apply Qle_trans with (inject_Z (Qfloor q)).
    + rewrite <- Zle_Qle. exact H.
    + apply Qfloor_le.
  - apply not_true_is_false. intro C. apply Qle_bool_iff in C.
    pose proof (Qlt_floor q) as L.
    assert (inject_Z n < inject_Z (Qfloor q + 1))%Q as L2
      by (eapply Qle_lt_trans; eauto).
    rewrite <- Zlt_Qlt in L2. lia.
Qed.

Lemma Qceiling_le_Z (q : Q) (n : Z) :
  Qle_bool q (inject_Z n) = (Qceiling q <=? n).
Proof.
  destruct (Z.leb_spec (Qceiling q) n) as [H | H].
  - apply Qle_bool_iff.
    apply Qle_trans with (inject_Z (Qceiling q)).
    + apply Qle_ceiling.
    + rewrite <- Zle_Qle. exact H.
  - apply not_true_is_false. intro C. apply Qle_bool_iff in C.
    pose proof (Qceiling_lt q) as L.
    assert (inject_Z (Qceiling q - 1) < inject_Z n)%Q as L2
      by (eapply Qlt_le_trans; eauto).
    rewrite <- Zlt_Qlt in L2. lia.
Qed.

Lemma ToLength_ofZ (n : Z) :
  0 <= n <= 2 ^ 53 - 1 -> ToLength (ofZ n) = n.
Proof.
  intros Hn. unfold ToLength, ToIntegerOrInfinity, ofZ, Qtrunc.
  destruct (Qle_bool 0 (inject_Z n)); rewrite ?Qfloor_Z, ?Qceiling_Z; lia.
Qed.

Lemma truthyNum_ofZ (n : Z) : truthyNum (ofZ n) = negb (n =? 0).
Proof.
  unfold truthyNum, ofZ, Qeq_bool, inject_Z; simpl. now rewrite Z.mul_1_r.
Qed.

(** Outside the gap, and for a length that is an integer the standard
    accepts, the installed method and the reference definition agree:
    same entry, same [undefined], for every index argument and for no
    argument at all. *)
Lemma at_agrees_outside_gap (o : ArrayLike) (n : Z) (args : list Number) :
  al_length o = Some (ofZ n) ->
  0 <= n <= 2 ^ 53 - 1 ->
  in_gap (hd NaN args) = false ->
  installed_at o args = reference_at o args.
Proof.
  intros Hlen Hn Hgap.
  unfold installed_at, arrayAtPolyfill, reference_at, checkTargetObj, bind.
  rewrite Hlen, (ToLength_ofZ n Hn).
  destruct args as [| x rest]; cbn [hd List.length].
  - (* no argument: index 0 *)
    unfold checkIndex. cbn [Nat.eqb orb ToIntegerOrInfinity].
    rewrite truthyNum_ofZ.
    destruct (Z.eqb_spec n 0) as [-> | Hz]; cbn [negb].
    + reflexivity.
    + rewrite getIndex_ofZ. cbn [Z.leb Z.compare Z.ltb orb].
      destruct (Z.leb_spec n 0); [lia | reflexivity].
  - unfold checkIndex. cbn [Nat.eqb orb].
    destruct x as [ | | | q]; cbn [isNaN ToIntegerOrInfinity].
    + (* NaN *)
      rewrite truthyNum_ofZ.
      destruct (Z.eqb_spec n 0) as [-> | Hz]; cbn [negb].
      * reflexivity.
      * rewrite getIndex_ofZ. cbn [Z.leb Z.compare Z.ltb orb].
        destruct (Z.leb_spec n 0); [lia | reflexivity].
    + reflexivity.
    + reflexivity.
    + (* a finite index *)
      unfold ge, lt, ofZ, floor, add, ceil.
      change 0%Q with (inject_Z 0) in *.
      rewrite (Qfloor_lt_Z q 0).
      unfold Qtrunc. change 0%Q with (inject_Z 0). rewrite (Qfloor_lt_Z q 0).
      destruct (Z.leb_spec 0 (Qfloor q)) as [Hpos | Hneg].
      * (* index >= 0 *)
        rewrite (Qfloor_lt_Z q n).
        destruct (Z.leb_spec n (Qfloor q)); cbn [negb].
        -- repeat match goal with
                  | |- context [?a <=? ?b] => destruct (Z.leb_spec a b)
                  | |- context [?a <? ?b] => destruct (Z.ltb_spec a b)
                  end; cbn [orb]; try reflexivity; lia.
        -- change (Fin (inject_Z (Qfloor q))) with (ofZ (Qfloor q)).
           rewrite getIndex_ofZ.
           repeat match goal with
                  | |- context [?a <=? ?b] => destruct (Z.leb_spec a b)
                  | |- context [?a <? ?b] => destruct (Z.ltb_spec a b)
                  end; cbn [orb]; try reflexivity; lia.
      * (* index < 0 *)
        assert (E0 : inject_Z n + inject_Z (Qceiling q)
                     == inject_Z (n + Qceiling q))
          by (rewrite inject_Z_plus; reflexivity).
        assert (Hge : Qle_bool (inject_Z 0)
                        (inject_Z n + inject_Z (Qceiling q))
                      = (0 <=? n + Qceiling q)).
        { rewrite <- Qle_bool_Z.
          destruct (Qle_bool (inject_Z 0) (inject_Z (n + Qceiling q))) eqn:E.
          - apply Qle_bool_iff. apply Qle_bool_iff in E. now rewrite E0.
          - apply not_true_is_false. intro C. apply Qle_bool_iff in C.
            rewrite E0 in C. apply Qle_bool_iff in C. congruence. }
        rewrite Hge, getIndex_sum.
        (* the index is negative and not in the gap: its ceiling is < 0 *)
        assert (Hc : Qceiling q < 0).
        { simpl in Hgap. unfold in_gap in Hgap.
          change (-1)%Q with (inject_Z (-1)) in Hgap.
          change 0%Q with (inject_Z 0) in Hgap.
          rewrite (Qceiling_le_Z q (-1)), (Qfloor_lt_Z q 0) in Hgap.
          destruct (Z.leb_spec (Qceiling q) (-1)); [lia |].
          destruct (Z.leb_spec 0 (Qfloor q)); [lia | discriminate]. }
        repeat match goal with
               | |- context [?a <=? ?b] => destruct (Z.leb_spec a b)
               | |- context [?a <? ?b] => destruct (Z.ltb_spec a b)
               end; cbn [orb]; try reflexivity; lia.
Qed.

Lemma at_agrees_outside_gap_example :
  let a := ofList [PNum (ofZ 10); PNum (ofZ 20); PNum (ofZ 30)] in
  in_gap (Fin (-3 # 2)) = false /\
  installed_at a [Fin (-3 # 2)] = reference_at a [Fin (-3 # 2)] /\
  installed_at a [] = reference_at a [].
Proof.
  cbv zeta.
  assert (Hn : 0 <= 3 <= 2 ^ 53 - 1) by lia.
  split; [reflexivity |]. split.
  - exact (at_agrees_outside_gap
             (ofList [PNum (ofZ 10); PNum (ofZ 20); PNum (ofZ 30)]) 3
             [Fin (-3 # 2)] eq_refl Hn eq_refl).
  - exact (at_agrees_outside_gap
             (ofList [PNum (ofZ 10); PNum (ofZ 20); PNum (ofZ 30)]) 3
             [] eq_refl Hn eq_refl).
Qed.

(** On an object the polyfill returns, whatever the Number passed as
    index. *)
Lemma arrayAtPolyfill_returns (o : ArrayLike) (parentArgLen : nat)
    (index : Number) :
  exists v, arrayAtPolyfill (TObj o) parentArgLen index = Return v.
Proof.
  unfold arrayAtPolyfill, checkTargetObj, bind.
  destruct (al_length o) as [len |]; [| eexists; reflexivity].
  destruct (checkIndex len parentArgLen index) as [okIndex index'].
  eexists. reflexivity.
Qed.

(** With a length that is a Number the installed method converts the
    index and goes on with the Number. *)
Lemma installed_at_args_converts (o : ArrayLike) (len : Number)
    (args : list Arg) :
  al_length o = Some len ->
  installed_at_args o args
  = bind (NumberCall (hd AUndefined args)) (fun n =>
      arrayAtPolyfill (TObj o) (List.length args) n).
Proof.
  intros Hlen.
  unfold installed_at_args, arrayAtPolyfillArg, checkTargetObj.
  rewrite Hlen. reflexivity.
Qed.

(** X1.  The installed [at] against the reference definition, for every
    array or array-like object whose length is an integer between 0 and
    2^53-1 and every list of arguments, by what the first argument is.
    When both conversions give the same Number (every argument that is no
    BigInt and no Symbol and whose conversion does not throw, no argument
    included) and this Number is not strictly between -1 and 0, the two
    return the same.  When the conversion of the argument throws, both
    throw that exception.  For a BigInt the polyfill converts it with
    [Number] and returns, while the reference throws a TypeError. *)
Theorem at_agrees_by_argument (o : ArrayLike) (n : Z) (args : list Arg) :
  al_length o = Some (ofZ n) ->
  0 <= n <= 2 ^ 53 - 1 ->
  match hd AUndefined args with
  | ANumeric x =>
      in_gap x = false ->
      installed_at_args o args = reference_at_args o args
  | AThrows e =>
      installed_at_args o args = Throw e
      /\ reference_at_args o args = Throw e
  | ABigInt x =>
      reference_at_args o args = Throw TypeError
      /\ installed_at_args o args
         = arrayAtPolyfill (TObj o) (List.length args) x
      /\ exists v, installed_at_args o args = Return v
  end.
Proof.
  intros Hlen Hn.
  rewrite (installed_at_args_converts o (ofZ n) args Hlen).
  unfold reference_at_args.
  destruct args as [| a rest]; cbn [hd List.length].
  - (* no argument *)
    intros _. cbn [AUndefined NumberCall ToNumber bind].
    exact (at_agrees_outside_gap o n [] Hlen Hn eq_refl).
  - destruct a as [x | x | e]; cbn [NumberCall ToNumber bind].
    + intros Hgap.
      pose proof (at_agrees_outside_gap o n
                    (x :: repeat NaN (List.length rest)) Hlen Hn Hgap)
        as H.
      unfold installed_at in H. cbn [hd List.length] in H.
      rewrite repeat_length in H. exact H.
    + split; [reflexivity |]. split; [reflexivity |].
      apply arrayAtPolyfill_returns.
    + split; reflexivity.
Qed.

Lemma at_agrees_by_argument_witness :
  let a := ofList [PNum (ofZ 10); PNum (ofZ 20); PNum (ofZ 30)] in
  in_gap (Fin (-3 # 2)) = false
  /\ installed_at_args a [ANumeric (Fin (-3 # 2))]
     = reference_at_args a [ANumeric (Fin (-3 # 2))]
  /\ installed_at_args a [] = reference_at_args a []
  /\ (reference_at_args a [ABigInt (ofZ 1)] = Throw TypeError
      /\ installed_at_args a [ABigInt (ofZ 1)]
         = arrayAtPolyfill (TObj a) 1 (ofZ 1)
      /\ exists v, installed_at_args a [ABigInt (ofZ 1)] = Return v).
Proof.
  cbv zeta.
  assert (Hn : 0 <= 3 <= 2 ^ 53 - 1) by lia.
  split; [reflexivity |]. split; [| split].
  - exact (at_agrees_by_argument
             (ofList [PNum (ofZ 10); PNum (ofZ 20); PNum (ofZ 30)]) 3
             [ANumeric (Fin (-3 # 2))] eq_refl Hn eq_refl).
  - exact (at_agrees_by_argument
             (ofList [PNum (ofZ 10); PNum (ofZ 20); PNum (ofZ 30)]) 3
             [] eq_refl Hn eq_refl).
  - exact (at_agrees_by_argument
             (ofList [PNum (ofZ 10); PNum (ofZ 20); PNum (ofZ 30)]) 3
             [ABigInt (ofZ 1)] eq_refl Hn).
Defined.

(** The index [1n] on the array [10, 20, 30]: the polyfill returns the
    entry 20, the reference throws. *)
Example at_of_a_BigInt :
  let a := ofList [PNum (ofZ 10); PNum (ofZ 20); PNum (ofZ 30)] in
  installed_at_args a [ABigInt (ofZ 1)] = Return (PNum (ofZ 20))
  /\ reference_at_args a [ABigInt (ofZ 1)] = Throw TypeError.
Proof.
  split; vm_compute; reflexivity.
Qed.

(** Inside the gap the two part ways on every non-empty array: the
    reference returns the first entry, the polyfill the entry under the key
    [length], which a genuine Array does not have. *)
Lemma at_in_gap (o : ArrayLike) (n : Z) (x : Number) (rest : list Number) :
  al_length o = Some (ofZ n) ->
  0 < n <= 2 ^ 53 - 1 ->
  in_gap x = true ->
  installed_at o (x :: rest) = Return (al_elems o n) /\
  reference_at o (x :: rest) = Return (al_elems o 0).
Proof.
  intros Hlen Hn Hgap.
  destruct x as [ | | | q]; try discriminate.
  unfold in_gap in Hgap. apply andb_prop in Hgap as [Hlow Hhigh].
  apply negb_true_iff in Hlow, Hhigh.
  change (-1)%Q with (inject_Z (-1)) in Hlow.
  change 0%Q with (inject_Z 0) in Hhigh.
  rewrite (Qceiling_le_Z q (-1)) in Hlow.
  assert (Hceil : Qceiling q = 0).
  { apply Z.leb_gt in Hlow.
    assert (Qceiling q <= 0); [| lia].
    apply Z.leb_le. rewrite <- (Qceiling_le_Z q 0).
    apply Qle_bool_iff. apply Qnot_lt_le. intros C.
    apply Qlt_le_weak in C. apply Qle_bool_iff in C. congruence. }
  unfold installed_at, arrayAtPolyfill, reference_at, checkTargetObj, bind.
  cbn [hd List.length]. rewrite Hlen.
  rewrite (ToLength_ofZ n) by lia.
  unfold checkIndex. cbn [Nat.eqb orb isNaN ToIntegerOrInfinity].
  unfold ge, ofZ, add, ceil, Qtrunc. rewrite Hhigh, Hceil.
  change (Fin (inject_Z n + inject_Z 0)) with
    (Fin (inject_Z n + inject_Z 0)).
  assert (Hge : Qle_bool (inject_Z 0) (inject_Z n + inject_Z 0) = true).
  { apply Qle_bool_iff. rewrite <- inject_Z_plus, <- Zle_Qle. lia. }
  rewrite Hge, getIndex_sum, Z.add_0_r.
  split; [reflexivity |].
  change (Qle_bool 0 q) with (Qle_bool (inject_Z 0) q). rewrite Hhigh.
  cbn [Z.leb Z.compare Z.ltb orb].
  destruct (Z.leb_spec n 0); [lia | reflexivity].
Qed.

Lemma at_in_gap_witness :
  let a := ofList [PNum (ofZ 10); PNum (ofZ 20)] in
  in_gap (Fin (-1 # 4)) = true /\
  installed_at a [Fin (-1 # 4)] = Return PUndefined /\
  reference_at a [Fin (-1 # 4)] = Return (PNum (ofZ 10)).
Proof.
  cbv zeta.
  assert (Hn : 0 < 2 <= 2 ^ 53 - 1) by lia.
  split; [reflexivity |].
  exact (at_in_gap (ofList [PNum (ofZ 10); PNum (ofZ 20)]) 2
           (Fin (-1 # 4)) [] eq_refl Hn eq_refl).
Defined.

(** C3.  The installed [at] does not follow the reference definition for
    an index strictly between -1 and 0: on the array [10, 20, 30] and the
    index -0.5 the reference truncates the index to 0 and returns the first
    entry, 10, while the polyfill counts back from the end with
    [length + Math.ceil(index)], reads the entry under the key [length]
    and returns [undefined]. *)
Theorem at_negative_fraction_diverges :
  let a := ofList [PNum (ofZ 10); PNum (ofZ 20); PNum (ofZ 30)] in
  installed_at a [Fin (-1 # 2)] = Return PUndefined /\
  reference_at a [Fin (-1 # 2)] = Return (PNum (ofZ 10)).
Proof.
  split; vm_compute; reflexivity.
Qed.

End AtFacts.

(** ** The host model *)

Module DomFacts.
Import JS Dom.

Lemma sameNode_refl (c : Node) : sameNode c c = true.
Proof. apply Nat.eqb_refl. Qed.

Lemma setChildren_childNodes (n : Node) (l : list Node) :
  childNodes (setChildren n l) = l.
Proof. reflexivity. Qed.

Lemma setChildren_setChildren (n : Node) (l l' : list Node) :
  setChildren (setChildren n l) l' = setChildren n l'.
Proof. reflexivity. Qed.

Lemma setChildren_same (n : Node) : setChildren n (childNodes n) = n.
Proof. now destruct n. Qed.

Lemma has_setChildren (name : string) (n : Node) (l : list Node) :
  has name (setChildren n l) = has name n.
Proof. reflexivity. Qed.

(** A node that occurs in a list can be taken out of it, and the list
    gets shorter by one. *)
Lemma without_In (c : Node) (l : list Node) :
  In c l ->
  exists l', without c l = Some l' /\ List.length l = S (List.length l').
Proof.
  induction l as [| x r IH]; intros Hin; [contradiction |].
  simpl. destruct (sameNode x c) eqn:E.
  - eexists; split; reflexivity.
  - destruct Hin as [-> | Hin]; [now rewrite sameNode_refl in E |].
    destruct (IH Hin) as (l' & -> & Hlen).
    eexists; split; [reflexivity | simpl; lia].
Qed.

Lemma lastChild_In (n c : Node) : lastChild n = Some c -> In c (childNodes n).
Proof.
  unfold lastChild. intros H. apply in_rev.
  destruct (rev (childNodes n)); simpl in H; [discriminate |].
  injection H as ->. now left.
Qed.

Lemma firstChild_In (n c : Node) :
  firstChild n = Some c -> In c (childNodes n).
Proof.
  unfold firstChild. destruct (childNodes n); simpl; [discriminate |].
  intros [= ->]. now left.
Qed.

Lemma item_In (n c : Node) (i : Z) : item n i = Some c -> In c (childNodes n).
Proof.
  unfold item. destruct (i <? 0); [discriminate |]. apply nth_error_In.
Qed.

Lemma lastChild_None (n : Node) : lastChild n = None -> childNodes n = [].
Proof.
  unfold lastChild. intros H.
  destruct (rev (childNodes n)) eqn:E; [| discriminate].
  apply (f_equal (@rev Node)) in E. now rewrite rev_involutive in E.
Qed.

Lemma firstChild_None (n : Node) : firstChild n = None -> childNodes n = [].
Proof. unfold firstChild. now destruct (childNodes n). Qed.

Lemma lastChild_Some (n : Node) :
  childNodes n <> [] -> exists c, lastChild n = Some c.
Proof.
  intros H. destruct (lastChild n) eqn:E; [eauto |].
  now apply lastChild_None in E.
Qed.

Lemma firstChild_Some (n : Node) :
  childNodes n <> [] -> exists c, firstChild n = Some c.
Proof.
  intros H. destruct (firstChild n) eqn:E; [eauto |].
  now apply firstChild_None in E.
Qed.

(** Removing a child that is there succeeds and leaves every other field
    of the parent as it was. *)
Lemma removeChild_In (n c : Node) :
  In c (childNodes n) ->
  exists l, removeChild n (Some c) = Done tt (setChildren n l) /\
            List.length (childNodes n) = S (List.length l).
Proof.
  intros Hin. unfold removeChild.
  destruct (without_In c _ Hin) as (l & -> & Hlen). eauto.
Qed.

(** Total correctness of a loop: an invariant that the body keeps while
    it decreases a measure holds at the end, the condition is then false,
    and as many iterations as the measure are enough. *)
Lemma while_total {St : Type} (I : St -> Node -> Prop)
    (m : St -> Node -> nat) (cond : St -> Node -> bool)
    (body : St -> Node -> Run St) :
  (forall s n, I s n -> cond s n = true ->
     exists s' n', body s n = Done s' n' /\ I s' n' /\
                   (m s' n' < m s n)%nat) ->
  forall fuel s n, I s n -> (m s n <= fuel)%nat ->
    exists s' n', while fuel cond body s n = Done s' n' /\ I s' n' /\
                  cond s' n' = false.
Proof.
  intros Hbody. induction fuel as [| fuel IH]; intros s n HI Hm.
  - simpl. destruct (cond s n) eqn:C.
    + destruct (Hbody s n HI C) as (? & ? & _ & _ & Hlt). lia.
    + eauto.
  - simpl. destruct (cond s n) eqn:C; [| eauto].
    destruct (Hbody s n HI C) as (s1 & n1 & -> & HI1 & Hlt). simpl.
    apply IH; [assumption | lia].
Qed.

(** The same with a rank that the invariant carries along. *)
Lemma while_ranked {St : Type} (I : nat -> St -> Node -> Prop)
    (cond : St -> Node -> bool) (body : St -> Node -> Run St) :
  (forall k s n, I k s n -> cond s n = true ->
     exists k' s' n', body s n = Done s' n' /\ I k' s' n' /\ (k' < k)%nat) ->
  forall fuel k s n, I k s n -> (k <= fuel)%nat ->
    exists k' s' n', while fuel cond body s n = Done s' n' /\ I k' s' n' /\
                     cond s' n' = false.
Proof.
  intros Hbody. induction fuel as [| fuel IH]; intros k s n HI Hk.
  - simpl. destruct (cond s n) eqn:C.
    + destruct (Hbody k s n HI C) as (? & ? & ? & _ & _ & Hlt). lia.
    + exists k, s, n. auto.
  - simpl. destruct (cond s n) eqn:C; [| exists k, s, n; auto].
    destruct (Hbody k s n HI C) as (k1 & s1 & n1 & -> & HI1 & Hlt). simpl.
    apply (IH k1); [assumption | lia].
Qed.

(** Safety of a loop: when the body keeps an invariant and never raises
    under it, the loop never raises. *)
Lemma while_safe {St : Type} (I : St -> Node -> Prop)
    (cond : St -> Node -> bool) (body : St -> Node -> Run St) :
  (forall s n, I s n -> cond s n = true ->
     match body s n with
     | Done s' n' => I s' n'
     | Raised _ _ => False
     | OutOfFuel => True
     end) ->
  forall fuel s n, I s n ->
    match while fuel cond body s n with
    | Done s' n' => I s' n' /\ cond s' n' = false
    | Raised _ _ => False
    | OutOfFuel => True
    end.
Proof.
  intros Hbody. induction fuel as [| fuel IH]; intros s n HI.
  - simpl. destruct (cond s n) eqn:C; auto.
  - simpl. destruct (cond s n) eqn:C; [| auto].
    specialize (Hbody s n HI C).
    destruct (body s n) as [s1 n1 | |]; simpl;
      [apply IH; exact Hbody | contradiction | exact Logic.I].
Qed.

(** Induction on a tree: a property that holds of a node whenever it
    holds of all its children holds of every node. *)
Lemma Node_induction (P : Node -> Prop) :
  (forall id type ps data children,
     Forall P children -> P (mkNode id type ps data children)) ->
  forall n, P n.
Proof.
  intros step.
  fix IH 1. intros [id type ps data children]. apply step.
  induction children as [| c r IHr]; constructor; [apply IH | exact IHr].
Qed.

End DomFacts.

(** ** src/unnamed/part_000: removeChildren *)

Module RemoveChildrenFacts.
Import JS Dom DomFacts RemoveChildren.

(** A loop that removes one child per turn, picked among the children,
    and stops when there is none left, ends with the node emptied and
    nothing else changed. *)
Lemma drain (cond : unit -> Node -> bool) (pick : Node -> option Node)
    (fuel : nat) (n : Node) :
  (forall x, cond tt x = true ->
     exists c, pick x = Some c /\ In c (childNodes x)) ->
  (forall x, cond tt x = false -> childNodes x = []) ->
  (List.length (childNodes n) <= fuel)%nat ->
  while fuel cond (fun _ x => removeChild x (pick x)) tt n
  = Done tt (replaceChildren n).
Proof.
  intros Hpick Hstop Hfuel.
  destruct (while_total
              (fun (_ : unit) x => exists l, x = setChildren n l)
              (fun _ x => List.length (childNodes x))
              cond (fun _ x => removeChild x (pick x)))
    with (fuel := fuel) (s := tt) (n := n)
    as ([] & n' & Hrun & (l & ->) & Hcond).
  - intros [] x (l & ->) C.
    destruct (Hpick _ C) as (c & -> & Hin).
    destruct (removeChild_In _ _ Hin) as (l' & -> & Hlen).
    exists tt, (setChildren n l'). repeat split.
    + now exists l'.
    + simpl in *. lia.
  - exists (childNodes n). now rewrite setChildren_same.
  - exact Hfuel.
  - rewrite Hrun. apply Hstop in Hcond. simpl in Hcond. now subst l.
Qed.

Section Loops.
Variable fuel : nat.
Variable n : Node.
Hypothesis enough : (List.length (childNodes n) <= fuel)%nat.

Lemma loopLastChild_clears :
  loopLastChild fuel n = Done tt (replaceChildren n).
Proof.
  unfold loopLastChild. apply drain with (pick := lastChild); auto.
  - intros x C. destruct (firstChild x) eqn:E; [| discriminate].
    destruct (lastChild_Some x) as (c & Hc).
    + intro H0. unfold firstChild in E. now rewrite H0 in E.
    + exists c. split; [assumption | now apply lastChild_In].
  - intros x C. destruct (firstChild x) eqn:E; [discriminate |].
    now apply firstChild_None.
Qed.

Lemma loopFirstChild_clears :
  loopFirstChild fuel n = Done tt (replaceChildren n).
Proof.
  unfold loopFirstChild. apply drain with (pick := firstChild); auto.
  - intros x C. destruct (lastChild x) eqn:E; [| discriminate].
    destruct (firstChild_Some x) as (c & Hc).
    + intro H0. unfold lastChild in E. now rewrite H0 in E.
    + exists c. split; [assumption | now apply firstChild_In].
  - intros x C. destruct (lastChild x) eqn:E; [discriminate |].
    now apply lastChild_None.
Qed.

Lemma length_zero (x : Node) : (length x =? 0) = true -> childNodes x = [].
Proof.
  unfold length. intros H. apply Z.eqb_eq in H.
  destruct (childNodes x); [reflexivity | simpl in H; lia].
Qed.

Lemma loopChildNodesLast_clears :
  loopChildNodesLast fuel n = Done tt (replaceChildren n).
Proof.
  unfold loopChildNodesLast.
  apply drain with (pick := fun x => item x (length x - 1)); auto.
  - intros x C. apply negb_true_iff in C. apply Z.eqb_neq in C.
    unfold item, length in *.
    destruct (Z.ltb_spec (Z.of_nat (List.length (childNodes x)) - 1) 0);
      [lia |].
    destruct (nth_error (childNodes x)
                (Z.to_nat (Z.of_nat (List.length (childNodes x)) - 1)))
      as [c |] eqn:E.
    + exists c. split; [reflexivity | eapply nth_error_In; eauto].
    + apply nth_error_None in E. lia.
  - intros x C. apply negb_false_iff in C. now apply length_zero.
Qed.

Lemma loopChildNodesFirst_clears :
  loopChildNodesFirst fuel n = Done tt (replaceChildren n).
Proof.
  unfold loopChildNodesFirst.
  apply drain with (pick := fun x => item x 0); auto.
  - intros x C. apply negb_true_iff in C. apply Z.eqb_neq in C.
    unfold item, length in *. simpl.
    destruct (childNodes x) as [| c r]; [simpl in C; lia |].
    exists c. split; [reflexivity | now left].
  - intros x C. apply negb_false_iff in C. now apply length_zero.
Qed.

End Loops.

(** The three ways of removing every child, given enough iterations. *)

Lemma removeAllForwards_clears (fuel : nat) (n : Node) :
  (List.length (childNodes n) <= fuel)%nat ->
  (has "firstChild" n && has "lastChild" n || has "childNodes" n)%bool = true ->
  removeAllForwards fuel n = Done true (replaceChildren n).
Proof.
  intros Hfuel Hlegacy. unfold removeAllForwards.
  destruct (has "firstChild" n && has "lastChild" n)%bool.
  - now rewrite loopFirstChild_clears.
  - simpl in Hlegacy. rewrite Hlegacy. now rewrite loopChildNodesFirst_clears.
Qed.

Lemma removeAllBackwards_clears (fuel : nat) (n : Node) :
  (List.length (childNodes n) <= fuel)%nat ->
  (has "firstChild" n && has "lastChild" n || has "childNodes" n)%bool = true ->
  removeAllBackwards fuel n = Done true (replaceChildren n).
Proof.
  intros Hfuel Hlegacy. unfold removeAllBackwards.
  destruct (has "firstChild" n && has "lastChild" n)%bool.
  - now rewrite loopLastChild_clears.
  - simpl in Hlegacy. rewrite Hlegacy. now rewrite loopChildNodesLast_clears.
Qed.

(** C2.  On a node that offers [replaceChildren] and a legacy mechanism
    ([firstChild] with [lastChild], or [childNodes]), removing the children
    one by one with [removeChild], forwards or backwards, through the child
    pointers or through the [childNodes] list, ends in the state that the
    single call [replaceChildren()] produces: no child, and the identity,
    type, properties and data of the node as before. *)
Theorem fallback_removal_equals_replaceChildren
    (fuel : nat) (h : Host) (n : Node) (removeElementsArg forwards : Prim) :
  (List.length (childNodes n) <= fuel)%nat ->
  has "replaceChildren" n = true ->
  (has "firstChild" n && has "lastChild" n || has "childNodes" n)%bool = true ->
  truthy removeElementsArg = false ->
  let modern := replaceChildren n in
  removeChildren fuel h (VNode n) removeElementsArg PUndefined
    = Returned true (VNode modern) /\
  removeChildren fuel h (VNode n) removeElementsArg forwards
    = Returned true (VNode modern) /\
  loopFirstChild fuel n = Done tt modern /\
  loopLastChild fuel n = Done tt modern /\
  loopChildNodesFirst fuel n = Done tt modern /\
  loopChildNodesLast fuel n = Done tt modern /\
  childNodes modern = [] /\
  nodeId modern = nodeId n /\ nodeType modern = nodeType n /\
  props modern = props n /\ nodeData modern = nodeData n.
Proof.
  intros Hfuel Hmodern Hlegacy Hall modern.
  assert (Hnode : forall h', isNode h' (VNode n) = true)
    by (intros h'; unfold isNode; now destruct (Node_defined h')).
  assert (Hdefault :
    removeChildren fuel h (VNode n) removeElementsArg PUndefined
    = Returned true (VNode modern)).
  { unfold removeChildren. rewrite Hnode. cbn [negb tryMethods].
    rewrite Hall. unfold removeAll. now rewrite Hmodern. }
  repeat split.
  - exact Hdefault.
  - destruct forwards as [ | | b | x | str]; try exact Hdefault;
      unfold removeChildren; rewrite Hnode; cbn [negb tryMethods];
      rewrite Hall;
      match goal with
      | |- context [if ?c then _ else _] => destruct c
      end;
      now rewrite ?removeAllForwards_clears, ?removeAllBackwards_clears.
  - now apply loopFirstChild_clears.
  - now apply loopLastChild_clears.
  - now apply loopChildNodesFirst_clears.
  - now apply loopChildNodesLast_clears.
Qed.

Lemma fallback_removal_equals_replaceChildren_witness :
  (List.length (childNodes Samples.currentDiv) <= 3)%nat /\
  removeChildren 3 Samples.standardHost (VNode Samples.currentDiv)
    (PBool false) (PBool true)
  = Returned true (VNode (replaceChildren Samples.currentDiv)) /\
  loopChildNodesFirst 3 Samples.currentDiv
  = Done tt (replaceChildren Samples.currentDiv).
Proof.
  assert (Hfuel : (List.length (childNodes Samples.currentDiv) <= 3)%nat)
    by (simpl; lia).
  pose proof (fallback_removal_equals_replaceChildren 3 Samples.standardHost
                Samples.currentDiv (PBool false) (PBool true)
                Hfuel eq_refl eq_refl eq_refl) as H.
  cbv zeta in H.
  destruct H as (_ & Hcall & _ & _ & Hloop & _).
  repeat split; assumption.
Defined.

(** *** No removal method raises *)

(** A run that did not raise. *)
Definition safe {A : Type} (r : Run A) : Prop :=
  match r with Raised _ _ => False | _ => True end.

Lemma safe_andThen {A B : Type} (m : Run A) (k : A -> Node -> Run B) :
  safe m -> (forall a x, m = Done a x -> safe (k a x)) -> safe (andThen m k).
Proof.
  destruct m as [a x | e x |]; simpl; auto.
Qed.

Lemma safe_while {St : Type} (I : St -> Node -> Prop)
    (cond : St -> Node -> bool) (body : St -> Node -> Run St)
    (fuel : nat) (s : St) (n : Node) :
  (forall s x, I s x -> cond s x = true ->
     match body s x with
     | Done s' x' => I s' x'
     | Raised _ _ => False
     | OutOfFuel => True
     end) ->
  I s n -> safe (while fuel cond body s n).
Proof.
  intros Hbody HI. pose proof (while_safe I cond body Hbody fuel s n HI) as H.
  now destruct (while fuel cond body s n).
Qed.

Lemma removeChild_safe (n c : Node) :
  In c (childNodes n) -> exists l, removeChild n (Some c) = Done tt (setChildren n l).
Proof.
  intros H. destruct (removeChild_In n c H) as (l & E & _). eauto.
Qed.

(** A loop that removes a child it picked among the children is safe. *)
Lemma drain_safe (cond : unit -> Node -> bool) (pick : Node -> option Node)
    (fuel : nat) (n : Node) :
  (forall x, cond tt x = true ->
     exists c, pick x = Some c /\ In c (childNodes x)) ->
  safe (while fuel cond (fun _ x => removeChild x (pick x)) tt n).
Proof.
  intros Hpick. apply safe_while with (I := fun _ _ => True); [| exact I].
  intros [] x _ C. destruct (Hpick x C) as (c & -> & Hin).
  destruct (removeChild_safe x c Hin) as (l & ->). exact I.
Qed.

Lemma nextIn_In (c x : Node) (l : list Node) :
  nextIn c l = Some x -> In x l.
Proof.
  induction l as [| y r IH]; simpl; [discriminate |].
  destruct (sameNode y c).
  - destruct r; simpl; [discriminate |]. intros [= ->]. right. now left.
  - intros H. right. auto.
Qed.

Lemma nextIn_without (c x : Node) (l l' : list Node) :
  nextIn c l = Some x -> without c l = Some l' -> In x l'.
Proof.
  revert l'. induction l as [| y r IH]; simpl; intros l'; [discriminate |].
  destruct (sameNode y c).
  - intros H [= <-]. destruct r; simpl in H; [discriminate |].
    injection H as ->. now left.
  - intros H. destruct (without c r) as [r' |]; [| discriminate].
    intros [= <-]. right. now apply IH.
Qed.

Lemma prevIn_In (c x : Node) (p : option Node) (l : list Node) :
  prevIn c p l = Some x -> p = Some x \/ In x l.
Proof.
  revert p. induction l as [| y r IH]; simpl; intros p; [discriminate |].
  destruct (sameNode y c); [now left |].
  intros H. destruct (IH _ H) as [[= ->] | Hin]; right; [now left | now right].
Qed.

Lemma prevIn_without (c x : Node) (p : option Node) (l l' : list Node) :
  prevIn c p l = Some x -> without c l = Some l' -> p = Some x \/ In x l'.
Proof.
  revert p l'. induction l as [| y r IH]; simpl; intros p l'; [discriminate |].
  destruct (sameNode y c); [now left |].
  intros H. destruct (without c r) as [r' |]; [| discriminate].
  intros [= <-].
  destruct (IH _ _ H eq_refl) as [[= ->] | Hin]; right; [now left | now right].
Qed.

Section Safety.
Variable fuel : nat.
Variable h : Host.

Lemma removeAll_safe (n : Node) : safe (removeAll fuel n).
Proof.
  unfold removeAll.
  repeat match goal with
         | |- safe (if ?c then _ else _) => destruct c; try exact I
         end;
    apply safe_andThen; try (intros; exact I);
    apply drain_safe; intros x C.
  - destruct (firstChild x) eqn:E; [| discriminate].
    destruct (lastChild_Some x) as (c & Hc).
    + intro H0. unfold firstChild in E. now rewrite H0 in E.
    + exists c. split; [assumption | now apply lastChild_In].
  - apply negb_true_iff in C. apply Z.eqb_neq in C.
    unfold item, length in *.
    destruct (Z.ltb_spec (Z.of_nat (List.length (childNodes x)) - 1) 0);
      [lia |].
    destruct (nth_error (childNodes x)
                (Z.to_nat (Z.of_nat (List.length (childNodes x)) - 1)))
      as [c |] eqn:E.
    + exists c. split; [reflexivity | eapply nth_error_In; eauto].
    + apply nth_error_None in E. lia.
Qed.

Lemma removeAllBackwards_safe (n : Node) : safe (removeAllBackwards fuel n).
Proof.
  unfold removeAllBackwards.
  repeat match goal with
         | |- safe (if ?c then _ else _) => destruct c; try exact I
         end;
    apply safe_andThen; try (intros; exact I);
    apply drain_safe; intros x C.
  - destruct (firstChild x) eqn:E; [| discriminate].
    destruct (lastChild_Some x) as (c & Hc).
    + intro H0. unfold firstChild in E. now rewrite H0 in E.
    + exists c. split; [assumption | now apply lastChild_In].
  - apply negb_true_iff in C. apply Z.eqb_neq in C.
    unfold item, length in *.
    destruct (Z.ltb_spec (Z.of_nat (List.length (childNodes x)) - 1) 0);
      [lia |].
    destruct (nth_error (childNodes x)
                (Z.to_nat (Z.of_nat (List.length (childNodes x)) - 1)))
      as [c |] eqn:E.
    + exists c. split; [reflexivity | eapply nth_error_In; eauto].
    + apply nth_error_None in E. lia.
Qed.

Lemma removeAllForwards_safe (n : Node) : safe (removeAllForwards fuel n).
Proof.
  unfold removeAllForwards.
  repeat match goal with
         | |- safe (if ?c then _ else _) => destruct c; try exact I
         end;
    apply safe_andThen; try (intros; exact I);
    apply drain_safe; intros x C.
  - destruct (lastChild x) eqn:E; [| discriminate].
    destruct (firstChild_Some x) as (c & Hc).
    + intro H0. unfold lastChild in E. now rewrite H0 in E.
    + exists c. split; [assumption | now apply firstChild_In].
  - apply negb_true_iff in C. apply Z.eqb_neq in C.
    unfold item, length in *. simpl.
    destruct (childNodes x) as [| c r]; [simpl in C; lia |].
    exists c. split; [reflexivity | now left].
Qed.

(** The invariant of the sibling walks: the node under the cursor is a
    child of the parent. *)
Definition attached (cur : option Node) (n : Node) : Prop :=
  forall c, cur = Some c -> In c (childNodes n).

Lemma stepForBySibl_keeps (cur : option Node) (n : Node) :
  attached cur n ->
  match stepForBySibl h cur n with
  | Done cur' n' => attached cur' n'
  | Raised _ _ => False
  | OutOfFuel => True
  end.
Proof.
  intros Hatt. unfold stepForBySibl. destruct cur as [c |]; [| exact Hatt].
  specialize (Hatt c eq_refl).
  destruct (isElement h c).
  - unfold removeChild.
    destruct (without_In c _ Hatt) as (l & El & _). rewrite El. simpl.
    intros x Hx. simpl. eapply nextIn_without; eauto.
  - intros x Hx. eapply nextIn_In; eauto.
Qed.

Lemma stepBackBySibl_keeps (cur : option Node) (n : Node) :
  attached cur n ->
  match stepBackBySibl h cur n with
  | Done cur' n' => attached cur' n'
  | Raised _ _ => False
  | OutOfFuel => True
  end.
Proof.
  intros Hatt. unfold stepBackBySibl. destruct cur as [c |]; [| exact Hatt].
  specialize (Hatt c eq_refl).
  destruct (isElement h c).
  - unfold removeChild.
    destruct (without_In c _ Hatt) as (l & El & _). rewrite El. simpl.
    intros x Hx. simpl.
    destruct (prevIn_without _ _ _ _ _ Hx El) as [? | ?];
      [discriminate | assumption].
  - intros x Hx.
    destruct (prevIn_In _ _ _ _ Hx) as [? | ?]; [discriminate | assumption].
Qed.

Lemma elForBySibl_safe (n : Node) : safe (elForBySibl fuel h n).
Proof.
  unfold elForBySibl.
  repeat match goal with
         | |- safe (if ?c then _ else _) => destruct c; try exact I
         end.
  apply safe_andThen; [| intros; exact I].
  apply safe_while with (I := attached).
  - intros s x Hs _. now apply stepForBySibl_keeps.
  - intros c Hc. now apply firstChild_In.
Qed.

Lemma elBackBySibl_safe (n : Node) : safe (elBackBySibl fuel h n).
Proof.
  unfold elBackBySibl.
  repeat match goal with
         | |- safe (if ?c then _ else _) => destruct c; try exact I
         end.
  apply safe_andThen; [| intros; exact I].
  apply safe_while with (I := attached).
  - intros s x Hs _. now apply stepBackBySibl_keeps.
  - intros c Hc. now apply lastChild_In.
Qed.

Lemma removeChild_item_safe (index : Z) (n : Node) :
  isElementOpt h (item n index) = true ->
  exists l, removeChild n (item n index) = Done tt (setChildren n l).
Proof.
  destruct (item n index) as [c |] eqn:E; simpl; [| discriminate].
  intros _. apply removeChild_safe. eapply item_In; eauto.
Qed.

Lemma elForByChildNodes_safe (n : Node) : safe (elForByChildNodes fuel h n).
Proof.
  unfold elForByChildNodes. destruct (has "childNodes" n); [| exact I].
  apply safe_andThen; [| intros; exact I].
  apply safe_while with (I := fun _ _ => True); [| exact I].
  intros index x _ _. unfold stepForByChildNodes.
  destruct (isElementOpt h (item x index)) eqn:E; [| exact I].
  destruct (removeChild_item_safe _ _ E) as (l & ->). exact I.
Qed.

Lemma elBackByChildNodes_safe (n : Node) : safe (elBackByChildNodes fuel h n).
Proof.
  unfold elBackByChildNodes. destruct (has "childNodes" n); [| exact I].
  apply safe_andThen; [| intros; exact I].
  apply safe_while with (I := fun _ _ => True); [| exact I].
  intros index x _ _. unfold stepBackByChildNodes.
  destruct (isElementOpt h (item x index)) eqn:E; [| exact I].
  destruct (removeChild_item_safe _ _ E) as (l & ->). exact I.
Qed.

Lemma orElse_safe (a b : Node -> Run bool) (n : Node) :
  (forall x, safe (a x)) -> (forall x, safe (b x)) -> safe (orElse a b n).
Proof.
  intros Ha Hb. unfold orElse. apply safe_andThen; [apply Ha |].
  intros [] x _; [exact I | apply Hb].
Qed.

Lemma tryMethods_safe (removeElementsArg forwards : Prim) (n : Node) :
  safe (tryMethods fuel h removeElementsArg forwards n).
Proof.
  unfold tryMethods, removeElements, removeElForwards, removeElBackwards.
  destruct forwards; destruct (truthy removeElementsArg);
    try match goal with
        | |- safe (if ?c then _ else _) => destruct c
        end;
    repeat (apply orElse_safe; intros);
    auto using removeAll_safe, removeAllForwards_safe,
      removeAllBackwards_safe, elForBySibl_safe, elBackBySibl_safe,
      elForByChildNodes_safe, elBackByChildNodes_safe.
Qed.

End Safety.

(** *** The default removal, [removeAll] *)

(** What [removeAll] does, mechanism by mechanism: the probes run in the
    order [replaceChildren], [textContent], [innerHTML], [firstChild] with
    [lastChild], [childNodes]; the first that exists is used and the call
    returns true; it returns false when none exists.  Every mechanism
    empties the node, except the [textContent] setter on a node that is
    neither an Element nor a DocumentFragment. *)
Lemma removeAll_cascade (fuel : nat) (n : Node) :
  (List.length (childNodes n) <= fuel)%nat ->
  removeAll fuel n =
    if has "replaceChildren" n then Done true (replaceChildren n)
    else if has "textContent" n then Done true (clearTextContent n)
    else if has "innerHTML" n then Done true (replaceChildren n)
    else if (has "firstChild" n && has "lastChild" n)%bool
      then Done true (replaceChildren n)
    else if has "childNodes" n then Done true (replaceChildren n)
    else Done false n.
Proof.
  intros Hfuel. unfold removeAll.
  rewrite loopLastChild_clears, loopChildNodesLast_clears by assumption.
  reflexivity.
Qed.

Lemma removeAll_cascade_witness :
  (List.length (childNodes Samples.currentDiv) <= 3)%nat /\
  removeAll 3 Samples.currentDiv
  = Done true (replaceChildren Samples.currentDiv).
Proof.
  assert (Hfuel : (List.length (childNodes Samples.currentDiv) <= 3)%nat)
    by (cbn; lia).
  split; [exact Hfuel |].
  exact (removeAll_cascade 3 Samples.currentDiv Hfuel).
Defined.

(** C1.  [removeChildren(document)] in a browser whose Document has
    [textContent] but not [replaceChildren]: the second probe succeeds,
    [document.textContent = ''] does nothing on a Document, and the call
    returns true with both children still in place. *)
Theorem removeChildren_keeps_children_of_document :
  removeChildren 2 Samples.standardHost (VNode Samples.olderDocument)
    PUndefined PUndefined
  = Returned true (VNode Samples.olderDocument) /\
  List.length (childNodes Samples.olderDocument) = 2%nat.
Proof.
  split; reflexivity.
Qed.

(** *** Parameter validation *)

Lemma isNode_VNode (h : Host) (n : Node) : isNode h (VNode n) = true.
Proof. unfold isNode. now destruct (Node_defined h). Qed.

(** The check comes first: a value that [isNode] rejects makes the call
    throw a TypeError, and the value is as it was passed. *)
Lemma removeChildren_rejected (fuel : nat) (h : Host) (v : Value)
    (removeElementsArg forwards : Prim) :
  isNode h v = false ->
  removeChildren fuel h v removeElementsArg forwards
  = Thrown (Js TypeError) v.
Proof.
  intros E. unfold removeChildren. rewrite E. reflexivity.
Qed.

(** Where the host binds [Node] to its interface, [isNode] accepts the
    Nodes and nothing else. *)
Lemma isNode_with_Node (h : Host) (v : Value) :
  Node_defined h = true ->
  (isNode h v = true <-> exists n, v = VNode n).
Proof.
  intros E. unfold isNode. rewrite E.
  destruct v as [p | n | o]; split; try discriminate.
  - intros [n H]; discriminate.
  - intros _. exists n. reflexivity.
  - reflexivity.
  - intros [n H]; discriminate.
Qed.

(** C5.  Where the global [Node] is bound to [undefined], [isNode]
    accepts any object with a truthy [removeChild] property, so that a
    value that is no Node is not refused with a TypeError.  The plain
    object [{removeChild: true}] passes the check and the call returns
    false; [{removeChild: true, textContent: 'x'}] passes the check, has
    its [textContent] emptied and the call returns true; where [Node] is
    bound to the interface both are refused. *)
Theorem removeChildren_accepts_object_with_removeChild :
  let o := [("removeChild"%string, DPrim (PBool true))] in
  let t := [("removeChild"%string, DPrim (PBool true));
            ("textContent"%string, DPrim (PStr "x"%string))] in
  Node_defined Samples.legacyHost = false
  /\ isNode Samples.legacyHost (VObject o) = true
  /\ removeChildren 0 Samples.legacyHost (VObject o) PUndefined PUndefined
     = Returned false (VObject o)
  /\ removeChildren 0 Samples.legacyHost (VObject t) PUndefined PUndefined
     = Returned true
         (VObject [("removeChild"%string, DPrim (PBool true));
                   ("textContent"%string, DPrim (PStr EmptyString))])
  /\ removeChildren 0 Samples.standardHost (VObject o) PUndefined
       PUndefined
     = Thrown (Js TypeError) (VObject o)
  /\ removeChildren 0 Samples.standardHost (VObject t) PUndefined
       PUndefined
     = Thrown (Js TypeError) (VObject t).
Proof.
  cbv zeta. repeat split.
Qed.

(** An accepted object with children under [firstChild] and [lastChild]:
    the TypeError comes from the call of [removeChild], which is no
    function, after the check has passed. *)
Example removeChildren_calls_what_is_no_function :
  let o := [("removeChild"%string, DPrim (PBool true));
            ("firstChild"%string, DObject); ("lastChild"%string, DObject)] in
  isNode Samples.legacyHost (VObject o) = true
  /\ removeChildren 0 Samples.legacyHost (VObject o) PUndefined PUndefined
     = Thrown (Js TypeError) (VObject o).
Proof.
  cbv zeta. split; reflexivity.
Qed.

(** Where the name [Node] does not resolve, the call throws a
    ReferenceError even for a Node. *)
Example removeChildren_without_the_name_Node :
  removeChildrenWhere Unresolvable true 3 (VNode Samples.currentDiv)
    PUndefined PUndefined
  = Thrown (Js ReferenceError) (VNode Samples.currentDiv).
Proof. reflexivity. Qed.

(** *** Removing the Element children only *)

(** The children that a removal of the Elements has to keep. *)
Definition keep (l : list Node) : list Node :=
  filter (fun c => negb (nodeType c =? ELEMENT_NODE)) l.

(** No two children are the same node. *)
Definition distinct (l : list Node) : Prop := NoDup (map nodeId l).

Lemma keep_app (a b : list Node) : keep (a ++ b) = keep a ++ keep b.
Proof. apply filter_app. Qed.

Lemma keep_In (x : Node) (l : list Node) : In x (keep l) -> In x l.
Proof. unfold keep. intros H. now apply filter_In in H. Qed.

Lemma distinct_fresh (pre post : list Node) (c x : Node) :
  distinct (pre ++ c :: post) -> In x pre -> sameNode x c = false.
Proof.
  unfold distinct, sameNode. rewrite map_app. cbn [map]. intros Hnd Hin.
  apply Nat.eqb_neq. intros E.
  apply NoDup_remove_2 in Hnd. apply Hnd.
  apply in_or_app. left. rewrite <- E. now apply in_map.
Qed.

Lemma without_fresh (pre post : list Node) (c : Node) :
  (forall x, In x pre -> sameNode x c = false) ->
  without c (pre ++ c :: post) = Some (pre ++ post).
Proof.
  induction pre as [| y r IH]; intros Hfresh; cbn [app without].
  - now rewrite sameNode_refl.
  - rewrite (Hfresh y (or_introl eq_refl)).
    rewrite IH; [reflexivity |]. intros x Hx. apply Hfresh. now right.
Qed.

Lemma nextIn_fresh (pre post : list Node) (c : Node) :
  (forall x, In x pre -> sameNode x c = false) ->
  nextIn c (pre ++ c :: post) = hd_error post.
Proof.
  induction pre as [| y r IH]; intros Hfresh; cbn [app nextIn].
  - now rewrite sameNode_refl.
  - rewrite (Hfresh y (or_introl eq_refl)).
    apply IH. intros x Hx. apply Hfresh. now right.
Qed.

Lemma prevIn_fresh (pre post : list Node) (c : Node) (p : option Node) :
  (forall x, In x pre -> sameNode x c = false) ->
  prevIn c p (pre ++ c :: post)
  = match rev pre with x :: _ => Some x | [] => p end.
Proof.
  revert p. induction pre as [| y r IH]; intros p Hfresh; cbn [app prevIn].
  - now rewrite sameNode_refl.
  - rewrite (Hfresh y (or_introl eq_refl)).
    rewrite IH by (intros x Hx; apply Hfresh; now right).
    cbn [rev]. destruct (rev r); reflexivity.
Qed.

Lemma removeChild_fresh (n c : Node) (pre post : list Node) :
  (forall x, In x pre -> sameNode x c = false) ->
  removeChild (setChildren n (pre ++ c :: post)) (Some c)
  = Done tt (setChildren n (pre ++ post)).
Proof.
  intros Hfresh. unfold removeChild. cbn [childNodes setChildren].
  now rewrite without_fresh.
Qed.

Lemma nth_error_middle (pre post : list Node) :
  nth_error (pre ++ post) (List.length pre) = hd_error post.
Proof.
  induction pre as [| y r IH]; [now destruct post | exact IH].
Qed.

Lemma split_last (l : list Node) :
  l <> [] -> exists pre c, l = pre ++ [c].
Proof.
  intros H. destruct (exists_last H) as (pre & c & ->). eauto.
Qed.

Lemma keep_all (l : list Node) :
  filter (fun c => nodeType c =? ELEMENT_NODE) l = [] -> keep l = l.
Proof.
  unfold keep. induction l as [| c r IH]; [reflexivity |].
  cbn. destruct (nodeType c =? ELEMENT_NODE); [discriminate |].
  cbn. intros H. now rewrite IH.
Qed.

Section ElementsOnly.
Variable h : Host.
Hypothesis elementInterface : Element_defined h = true.
Variable n : Node.
Hypothesis distinctChildren : distinct (childNodes n).
Variable fuel : nat.
Hypothesis enough : (List.length (childNodes n) <= fuel)%nat.

Lemma isElement_nodeType (c : Node) :
  isElement h c = (nodeType c =? ELEMENT_NODE).
Proof. unfold isElement. now rewrite elementInterface. Qed.

Lemma keep_element (l : list Node) (c : Node) :
  isElement h c = true -> keep (l ++ [c]) = keep l.
Proof.
  rewrite isElement_nodeType. intros E. rewrite keep_app. cbn.
  rewrite E. cbn. apply app_nil_r.
Qed.

Lemma keep_other (l : list Node) (c : Node) :
  isElement h c = false -> keep (l ++ [c]) = keep l ++ [c].
Proof.
  rewrite isElement_nodeType. intros E. rewrite keep_app. cbn.
  now rewrite E.
Qed.

Lemma keep_cons_element (l : list Node) (c : Node) :
  isElement h c = true -> keep (c :: l) = keep l.
Proof. rewrite isElement_nodeType. intros E. cbn. now rewrite E. Qed.

Lemma keep_cons_other (l : list Node) (c : Node) :
  isElement h c = false -> keep (c :: l) = c :: keep l.
Proof. rewrite isElement_nodeType. intros E. cbn. now rewrite E. Qed.

(** The children already walked forwards are filtered, the others are as
    they were. *)
Definition walkedForwards (n' : Node) (done rest : list Node) : Prop :=
  childNodes n = done ++ rest /\ n' = setChildren n (keep done ++ rest).

(** The same for a walk from the end. *)
Definition walkedBackwards (n' : Node) (rest done : list Node) : Prop :=
  childNodes n = rest ++ done /\ n' = setChildren n (rest ++ keep done).

Lemma fresh_forwards (done rest : list Node) (c : Node) :
  childNodes n = done ++ c :: rest ->
  forall x, In x (keep done) -> sameNode x c = false.
Proof.
  intros E x Hx. apply (distinct_fresh done rest).
  - rewrite <- E. exact distinctChildren.
  - now apply keep_In.
Qed.

Lemma fresh_backwards (rest done : list Node) (c : Node) :
  childNodes n = (rest ++ [c]) ++ done ->
  forall x, In x rest -> sameNode x c = false.
Proof.
  intros E x Hx. apply (distinct_fresh rest done).
  - rewrite <- app_assoc in E. cbn in E. rewrite <- E.
    exact distinctChildren.
  - exact Hx.
Qed.

Lemma elForByChildNodes_filters :
  has "childNodes" n = true ->
  elForByChildNodes fuel h n = Done true (setChildren n (keep (childNodes n))).
Proof.
  intros Hsup. unfold elForByChildNodes. rewrite Hsup.
  destruct (while_ranked
              (fun (k : nat) (index : Z) n' =>
                 exists done rest, walkedForwards n' done rest /\
                   index = Z.of_nat (List.length (keep done)) /\
                   k = List.length rest)
              (fun index n' => index <? length n')
              (stepForByChildNodes h))
    with (fuel := fuel) (k := List.length (childNodes n)) (s := 0) (n := n)
    as (k & index & n' & Hrun & (done & rest & (E & ->) & -> & ->) & Hcond).
  - intros k index n' (done & rest & (E & ->) & -> & ->) C.
    unfold length in C. cbn [childNodes setChildren] in C.
    rewrite length_app in C. apply Z.ltb_lt in C.
    destruct rest as [| c rest]; [cbn in C; lia |].
    unfold stepForByChildNodes, item. cbn [childNodes setChildren].
    destruct (Z.ltb_spec (Z.of_nat (List.length (keep done))) 0); [lia |].
    rewrite Nat2Z.id, nth_error_middle. cbn [hd_error isElementOpt].
    destruct (isElement h c) eqn:Ec.
    + rewrite removeChild_fresh by (eapply fresh_forwards; eauto).
      cbn [andThen].
      exists (List.length rest), (Z.of_nat (List.length (keep done))),
             (setChildren n (keep done ++ rest)).
      repeat split; [| cbn; lia].
      exists (done ++ [c]), rest. repeat split.
      * rewrite <- app_assoc. exact E.
      * now rewrite keep_element.
      * now rewrite keep_element.
    + exists (List.length rest), (Z.of_nat (List.length (keep done)) + 1),
             (setChildren n (keep done ++ c :: rest)).
      repeat split; [| cbn; lia].
      exists (done ++ [c]), rest. repeat split.
      * rewrite <- app_assoc. exact E.
      * rewrite keep_other by assumption. now rewrite <- app_assoc.
      * rewrite keep_other by assumption. rewrite length_app.
        cbn [List.length]. lia.
  - exists [], (childNodes n). repeat split.
    cbn. now rewrite setChildren_same.
  - exact enough.
  - rewrite Hrun. cbn [andThen]. f_equal.
    apply Z.ltb_ge in Hcond. unfold length in Hcond.
    cbn [childNodes setChildren] in Hcond. rewrite length_app in Hcond.
    destruct rest as [| c rest]; [| cbn in Hcond; lia].
    rewrite app_nil_r in E. now rewrite E, app_nil_r.
Qed.

Lemma nth_error_last (rest done : list Node) (c : Node) :
  nth_error ((rest ++ [c]) ++ done) (List.length rest) = Some c.
Proof.
  rewrite <- app_assoc. now rewrite nth_error_middle.
Qed.

Lemma elBackByChildNodes_filters :
  has "childNodes" n = true ->
  elBackByChildNodes fuel h n
  = Done true (setChildren n (keep (childNodes n))).
Proof.
  intros Hsup. unfold elBackByChildNodes. rewrite Hsup.
  destruct (while_ranked
              (fun (k : nat) (index : Z) n' =>
                 exists rest done, walkedBackwards n' rest done /\
                   index = Z.of_nat (List.length rest) - 1 /\
                   k = List.length rest)
              (fun index _ => 0 <=? index)
              (stepBackByChildNodes h))
    with (fuel := fuel) (k := List.length (childNodes n))
         (s := length n - 1) (n := n)
    as (k & index & n' & Hrun & (rest & done & (E & ->) & -> & ->) & Hcond).
  - intros k index n' (rest & done & (E & ->) & -> & ->) C.
    apply Z.leb_le in C.
    destruct (split_last rest) as (rest' & c & ->);
      [intros ->; cbn in C; lia |].
    rewrite length_app in *. cbn [List.length] in *.
    unfold stepBackByChildNodes, item. cbn [childNodes setChildren].
    destruct (Z.ltb_spec (Z.of_nat (List.length rest' + 1) - 1) 0); [lia |].
    replace (Z.to_nat (Z.of_nat (List.length rest' + 1) - 1))
      with (List.length rest') by lia.
    rewrite nth_error_last. cbn [isElementOpt].
    destruct (isElement h c) eqn:Ec.
    + rewrite <- app_assoc. cbn [app].
      rewrite removeChild_fresh by (eapply fresh_backwards; eauto).
      cbn [andThen].
      exists (List.length rest'), (Z.of_nat (List.length rest' + 1) - 1 - 1),
             (setChildren n (rest' ++ keep done)).
      repeat split; [| lia].
      exists rest', (c :: done). repeat split.
      * rewrite E, <- app_assoc. reflexivity.
      * now rewrite keep_cons_element.
      * lia.
    + exists (List.length rest'), (Z.of_nat (List.length rest' + 1) - 1 - 1),
             (setChildren n ((rest' ++ [c]) ++ keep done)).
      repeat split; [| lia].
      exists rest', (c :: done). repeat split.
      * rewrite E, <- app_assoc. reflexivity.
      * rewrite keep_cons_other by assumption.
        now rewrite <- app_assoc.
      * lia.
  - exists (childNodes n), []. repeat split.
    + now rewrite app_nil_r.
    + cbn. now rewrite app_nil_r, setChildren_same.
  - exact enough.
  - rewrite Hrun. cbn [andThen]. f_equal.
    apply Z.leb_gt in Hcond.
    destruct rest as [| c rest]; [| cbn [List.length] in Hcond; lia].
    cbn [app] in E |- *. now rewrite E.
Qed.

Lemma isSome_hd_error (l : list Node) :
  isSome (hd_error l) = true -> exists c rest, l = c :: rest.
Proof. destruct l as [| c rest]; [discriminate | eauto]. Qed.

Lemma elForBySibl_walk :
  while fuel (fun cur _ => isSome cur) (stepForBySibl h) (firstChild n) n
  = Done None (setChildren n (keep (childNodes n))).
Proof.
  destruct (while_ranked
              (fun (k : nat) (cur : option Node) n' =>
                 exists done rest, walkedForwards n' done rest /\
                   cur = hd_error rest /\ k = List.length rest)
              (fun cur _ => isSome cur)
              (stepForBySibl h))
    with (fuel := fuel) (k := List.length (childNodes n))
         (s := firstChild n) (n := n)
    as (k & cur & n' & Hrun & (done & rest & (E & ->) & -> & ->) & Hcond).
  - intros k cur n' (done & rest & (E & ->) & -> & ->) C.
    destruct (isSome_hd_error _ C) as (c & rest' & ->).
    cbn [hd_error]. unfold stepForBySibl, nextSibling.
    cbn [childNodes setChildren].
    rewrite nextIn_fresh by (eapply fresh_forwards; eauto).
    destruct (isElement h c) eqn:Ec.
    + rewrite removeChild_fresh by (eapply fresh_forwards; eauto).
      cbn [andThen].
      exists (List.length rest'), (hd_error rest'),
             (setChildren n (keep done ++ rest')).
      repeat split; [| cbn; lia].
      exists (done ++ [c]), rest'. repeat split.
      * rewrite <- app_assoc. exact E.
      * now rewrite keep_element.
    + exists (List.length rest'), (hd_error rest'),
             (setChildren n (keep done ++ c :: rest')).
      repeat split; [| cbn; lia].
      exists (done ++ [c]), rest'. repeat split.
      * rewrite <- app_assoc. exact E.
      * rewrite keep_other by assumption. now rewrite <- app_assoc.
  - exists [], (childNodes n). repeat split.
    cbn. now rewrite setChildren_same.
  - exact enough.
  - rewrite Hrun.
    destruct rest as [| c rest]; [| discriminate].
    rewrite app_nil_r in E. now rewrite E, app_nil_r.
Qed.

Lemma hd_error_rev_last (rest : list Node) (c : Node) :
  hd_error (rev (rest ++ [c])) = Some c.
Proof. now rewrite rev_app_distr. Qed.

Lemma elBackBySibl_walk :
  while fuel (fun cur _ => isSome cur) (stepBackBySibl h) (lastChild n) n
  = Done None (setChildren n (keep (childNodes n))).
Proof.
  destruct (while_ranked
              (fun (k : nat) (cur : option Node) n' =>
                 exists rest done, walkedBackwards n' rest done /\
                   cur = hd_error (rev rest) /\ k = List.length rest)
              (fun cur _ => isSome cur)
              (stepBackBySibl h))
    with (fuel := fuel) (k := List.length (childNodes n))
         (s := lastChild n) (n := n)
    as (k & cur & n' & Hrun & (rest & done & (E & ->) & -> & ->) & Hcond).
  - intros k cur n' (rest & done & (E & ->) & -> & ->) C.
    destruct (split_last rest) as (rest' & c & ->);
      [intros ->; discriminate |].
    rewrite hd_error_rev_last. unfold stepBackBySibl, previousSibling.
    cbn [childNodes setChildren]. rewrite <- app_assoc. cbn [app].
    rewrite prevIn_fresh by (eapply fresh_backwards; eauto).
    assert (Eprev : match rev rest' with x :: _ => Some x | [] => None end
                    = hd_error (rev rest'))
      by now destruct (rev rest').
    rewrite Eprev. rewrite length_app. cbn [List.length].
    destruct (isElement h c) eqn:Ec.
    + rewrite removeChild_fresh by (eapply fresh_backwards; eauto).
      cbn [andThen].
      exists (List.length rest'), (hd_error (rev rest')),
             (setChildren n (rest' ++ keep done)).
      repeat split; [| lia].
      exists rest', (c :: done). repeat split.
      * rewrite E, <- app_assoc. reflexivity.
      * now rewrite keep_cons_element.
    + exists (List.length rest'), (hd_error (rev rest')),
             (setChildren n (rest' ++ c :: keep done)).
      repeat split; [| lia].
      exists rest', (c :: done). repeat split.
      * rewrite E, <- app_assoc. reflexivity.
      * now rewrite keep_cons_other.
  - exists (childNodes n), []. repeat split.
    + now rewrite app_nil_r.
    + cbn. now rewrite app_nil_r, setChildren_same.
  - exact enough.
  - rewrite Hrun.
    destruct (rev rest) as [| c r] eqn:Er; [| discriminate].
    apply (f_equal (@rev Node)) in Er. rewrite rev_involutive in Er.
    subst rest. cbn [app rev] in E |- *. now rewrite E.
Qed.

(** When the host counts no Element child, there is nothing to remove. *)
Lemma hasChildElements_false :
  hasChildElements n = false -> keep (childNodes n) = childNodes n.
Proof.
  unfold hasChildElements, childElementCount. intros H.
  assert (Hnone : filter (fun c => nodeType c =? ELEMENT_NODE) (childNodes n)
                  = []).
  { destruct (has "childElementCount" n);
      [| destruct (has "children" n); [| discriminate]];
      apply negb_false_iff, Z.eqb_eq in H;
      destruct (filter _ (childNodes n)); [reflexivity | | reflexivity |];
      cbn in H; lia. }
  now apply keep_all.
Qed.

Definition filtered : Node := setChildren n (keep (childNodes n)).

Lemma elForBySibl_filters :
  elForBySibl fuel h n
  = if negb (hasChildElements n) then Done true filtered
    else if (has "firstChild" n && has "nextSibling" n)%bool
      then Done true filtered
    else Done false n.
Proof.
  unfold elForBySibl, filtered.
  destruct (hasChildElements n) eqn:Hce; cbn [negb].
  - destruct (has "firstChild" n && has "nextSibling" n)%bool;
      [now rewrite elForBySibl_walk | reflexivity].
  - now rewrite hasChildElements_false, setChildren_same.
Qed.

Lemma elBackBySibl_filters :
  elBackBySibl fuel h n
  = if negb (hasChildElements n) then Done true filtered
    else if (has "lastChild" n && has "previousSibling" n)%bool
      then Done true filtered
    else Done false n.
Proof.
  unfold elBackBySibl, filtered.
  destruct (hasChildElements n) eqn:Hce; cbn [negb].
  - destruct (has "lastChild" n && has "previousSibling" n)%bool;
      [now rewrite elBackBySibl_walk | reflexivity].
  - now rewrite hasChildElements_false, setChildren_same.
Qed.

Lemma removeElements_filters :
  exists b : bool,
    removeElements fuel h n = Done b (if b then filtered else n).
Proof.
  unfold removeElements, orElse.
  rewrite elBackBySibl_filters.
  destruct (negb (hasChildElements n)); [now exists true |].
  destruct (has "lastChild" n && has "previousSibling" n)%bool;
    [now exists true |].
  cbn [andThen]. rewrite elForBySibl_filters.
  destruct (negb (hasChildElements n)); [now exists true |].
  destruct (has "firstChild" n && has "nextSibling" n)%bool;
    [now exists true |].
  cbn [andThen]. unfold filtered.
  destruct (has "childNodes" n) eqn:Hc.
  - rewrite elBackByChildNodes_filters by assumption. now exists true.
  - unfold elBackByChildNodes. rewrite Hc. now exists false.
Qed.

Lemma removeElForwards_filters :
  exists b : bool,
    removeElForwards fuel h n = Done b (if b then filtered else n).
Proof.
  unfold removeElForwards, orElse.
  rewrite elForBySibl_filters.
  destruct (negb (hasChildElements n)); [now exists true |].
  destruct (has "firstChild" n && has "nextSibling" n)%bool;
    [now exists true |].
  cbn [andThen]. unfold filtered.
  destruct (has "childNodes" n) eqn:Hc.
  - rewrite elForByChildNodes_filters by assumption. now exists true.
  - unfold elForByChildNodes. rewrite Hc. now exists false.
Qed.

Lemma removeElBackwards_filters :
  exists b : bool,
    removeElBackwards fuel h n = Done b (if b then filtered else n).
Proof.
  unfold removeElBackwards, orElse.
  rewrite elBackBySibl_filters.
  destruct (negb (hasChildElements n)); [now exists true |].
  destruct (has "lastChild" n && has "previousSibling" n)%bool;
    [now exists true |].
  cbn [andThen]. unfold filtered.
  destruct (has "childNodes" n) eqn:Hc.
  - rewrite elBackByChildNodes_filters by assumption. now exists true.
  - unfold elBackByChildNodes. rewrite Hc. now exists false.
Qed.

End ElementsOnly.

(** Where the host defines [Element], removing the Element children does
    what it says.  On a node whose children are distinct nodes, each of the
    four walks (by sibling pointers or by [childNodes], forwards or
    backwards), when its properties are there, returns true and leaves
    exactly the children that are not Elements, in their order; and
    [removeChildren] with a truthy [removeElements] either returns true
    with the node so filtered or returns false with the node untouched. *)
Theorem removeChildren_removes_exactly_the_elements
    (h : Host) (n : Node) (fuel : nat) (removeElementsArg forwards : Prim) :
  Element_defined h = true ->
  distinct (childNodes n) ->
  (List.length (childNodes n) <= fuel)%nat ->
  truthy removeElementsArg = true ->
  let kept := setChildren n (keep (childNodes n)) in
  (has "childNodes" n = true ->
     elBackByChildNodes fuel h n = Done true kept /\
     elForByChildNodes fuel h n = Done true kept) /\
  ((has "lastChild" n && has "previousSibling" n)%bool = true ->
     elBackBySibl fuel h n = Done true kept) /\
  ((has "firstChild" n && has "nextSibling" n)%bool = true ->
     elForBySibl fuel h n = Done true kept) /\
  (exists b : bool,
     removeChildren fuel h (VNode n) removeElementsArg forwards
     = Returned b (VNode (if b then kept else n))) /\
  Forall (fun c => nodeType c <> ELEMENT_NODE) (childNodes kept) /\
  (forall c, In c (childNodes n) -> nodeType c <> ELEMENT_NODE ->
             In c (childNodes kept)).
Proof.
  intros He Hd Hfuel Htruthy kept. repeat split.
  - now apply elBackByChildNodes_filters.
  - now apply elForByChildNodes_filters.
  - intros Hs. rewrite elBackBySibl_filters by assumption. rewrite Hs.
    now destruct (negb (hasChildElements n)).
  - intros Hs. rewrite elForBySibl_filters by assumption. rewrite Hs.
    now destruct (negb (hasChildElements n)).
  - unfold removeChildren. rewrite isNode_VNode. cbn [negb].
    assert (exists b : bool,
              tryMethods fuel h removeElementsArg forwards n
              = Done b (if b then kept else n)) as (b & ->).
    { unfold tryMethods. rewrite Htruthy.
      destruct forwards as [ | | f | x | str];
        try (apply removeElements_filters; assumption);
        match goal with
        | |- context [if ?c then _ else _] => destruct c
        end;
        solve [apply removeElForwards_filters; assumption
              | apply removeElBackwards_filters; assumption]. }
    now exists b.
  - apply Forall_forall. intros c Hc. cbn in Hc. unfold keep in Hc.
    apply filter_In in Hc as [_ Hc]. apply negb_true_iff in Hc.
    now apply Z.eqb_neq.
  - intros c Hin Hne. cbn. unfold keep. apply filter_In. split; [exact Hin |].
    apply negb_true_iff. now apply Z.eqb_neq.
Qed.

Lemma removeChildren_removes_exactly_the_elements_witness :
  Element_defined Samples.standardHost = true /\
  (List.length (childNodes Samples.currentDiv) <= 3)%nat /\
  elBackBySibl 3 Samples.standardHost Samples.currentDiv
  = Done true
      (setChildren Samples.currentDiv (keep (childNodes Samples.currentDiv))) /\
  map nodeId (keep (childNodes Samples.currentDiv)) = [2; 4]%nat.
Proof.
  assert (Hd : distinct (childNodes Samples.currentDiv)).
  { unfold distinct. cbn.
    repeat (constructor; [cbn; intuition discriminate |]). constructor. }
  assert (Hfuel : (List.length (childNodes Samples.currentDiv) <= 3)%nat)
    by (cbn; lia).
  pose proof (removeChildren_removes_exactly_the_elements
                Samples.standardHost Samples.currentDiv 3 (PBool true)
                PUndefined eq_refl Hd Hfuel eq_refl) as H.
  cbv zeta in H. destruct H as (_ & Hback & _).
  split; [reflexivity |]. split; [exact Hfuel |].
  split; [apply Hback; reflexivity | reflexivity].
Defined.



(** C10.  In a host where the global [Element] is undefined, [isElement]
    tests [nodeType === 9]; no child is a Document, so
    [removeChildren(p, true)] on [<p><b></b>text</p>] walks the children,
    removes nothing and returns true: the Element child is still there. *)
Theorem removeChildren_keeps_elements_without_Element_interface :
  removeChildren 3 Samples.legacyHost (VNode Samples.legacyParagraph)
    (PBool true) PUndefined
  = Returned true (VNode Samples.legacyParagraph) /\
  map nodeType (childNodes Samples.legacyParagraph)
  = [ELEMENT_NODE; TEXT_NODE] /\
  elBackBySibl 3 Samples.legacyHost Samples.legacyParagraph
  = Done true Samples.legacyParagraph /\
  elForBySibl 3 Samples.legacyHost Samples.legacyParagraph
  = Done true Samples.legacyParagraph /\
  elBackByChildNodes 3 Samples.legacyHost Samples.legacyParagraph
  = Done true Samples.legacyParagraph.
Proof.
  repeat split; reflexivity.
Qed.

End RemoveChildrenFacts.

(** ** src/comment/GetAllComments.js *)

Module GetAllCommentsFacts.
Import JS Dom DomFacts GetAllComments.

Lemma size_child (c : Node) (l : list Node) :
  In c l -> (size c <= list_sum (map size l))%nat.
Proof.
  induction l as [| x r IH]; simpl; [contradiction |].
  intros [-> | H]; [lia | specialize (IH H); lia].
Qed.

Lemma size_positive (n : Node) : (1 <= size n)%nat.
Proof. destruct n; simpl; lia. Qed.

Lemma length_le_sizes (l : list Node) :
  (List.length l <= list_sum (map size l))%nat.
Proof.
  induction l as [| x r IH]; simpl; [lia |].
  pose proof (size_positive x). lia.
Qed.

Lemma skipn_cons_nth {A : Type} (l : list A) (i : nat) (c : A) (r : list A) :
  skipn i l = c :: r ->
  nth_error l i = Some c /\ skipn (S i) l = r /\ (i < List.length l)%nat.
Proof.
  revert l. induction i as [| i IH]; intros [| x l]; simpl;
    try discriminate.
  - intros [= -> ->]. repeat split. lia.
  - intros H. destruct (IH _ H) as (A1 & A2 & A3). repeat split; auto. lia.
Qed.

(** The loop over [index] and the loop along the sibling chain do the same
    work from any position on, when their recursive calls agree. *)
Lemma indexLoop_siblingLoop
    (recF : Node -> Fueled (list Node)) (recS : Node -> Outcome (list Node))
    (validFn : Node -> Outcome bool) (hasChildFn : Node -> bool)
    (nodeParent : Node) :
  (forall c, In c (childNodes nodeParent) ->
     hasChildFn c = match firstChild c with Some _ => true | None => false end) ->
  (forall c, In c (childNodes nodeParent) -> recF c = Some (recS c)) ->
  forall (siblings : list Node) (k : nat) (index : nat) (result : list Node),
    skipn index (childNodes nodeParent) = siblings ->
    (List.length siblings <= k)%nat ->
    indexLoop recF validFn hasChildFn nodeParent k (Z.of_nat index) result
    = Some (siblingLoop recS validFn siblings result).
Proof.
  intros HhasChild Hrec.
  induction siblings as [| current next IH]; intros k index result Hskip Hk.
  - assert (List.length (childNodes nodeParent) <= index)%nat as Hend.
    { destruct (Nat.le_gt_cases (List.length (childNodes nodeParent)) index)
        as [H | H]; [exact H |].
      apply (f_equal (@List.length Node)) in Hskip.
      rewrite length_skipn in Hskip. simpl in Hskip. lia. }
    destruct k; simpl; unfold length;
      destruct (Z.ltb_spec (Z.of_nat index)
                  (Z.of_nat (List.length (childNodes nodeParent))));
      try lia; reflexivity.
  - destruct (skipn_cons_nth _ _ _ _ Hskip) as (Hnth & Hnext & Hlt).
    destruct k as [| k]; [simpl in Hk; lia |].
    assert (In current (childNodes nodeParent)) as Hin
      by (eapply nth_error_In; eauto).
    cbn [indexLoop siblingLoop]. unfold length.
    destruct (Z.ltb_spec (Z.of_nat index)
                (Z.of_nat (List.length (childNodes nodeParent)))); [| lia].
    unfold item.
    destruct (Z.ltb_spec (Z.of_nat index) 0); [lia |].
    rewrite Nat2Z.id, Hnth.
    replace (Z.of_nat index + 1) with (Z.of_nat (S index)) by lia.
    simpl in Hk.
    destruct (validFn current) as [[|] | e]; cbn [bindF bind].
    + apply IH; [exact Hnext | lia].
    + rewrite (HhasChild _ Hin).
      destruct (firstChild current).
      * rewrite (Hrec _ Hin).
        destruct (recS current) as [sub | e]; cbn [bindF bind];
          [apply IH; [exact Hnext | lia] | reflexivity].
      * apply IH; [exact Hnext | lia].
    + reflexivity.
Qed.

Lemma hasChildNodes_firstChild (c : Node) :
  hasChildNodes c = match firstChild c with Some _ => true | None => false end.
Proof. unfold hasChildNodes, firstChild. now destruct (childNodes c). Qed.

Lemma hasChildNodesByLength_firstChild (c : Node) :
  hasChildNodesByLength c
  = match firstChild c with Some _ => true | None => false end.
Proof.
  unfold hasChildNodesByLength, firstChild, length.
  now destruct (childNodes c).
Qed.

Lemma childNodesTraversal_bySiblingTraversal
    (validFn : Node -> Outcome bool) (hasChildFn : Node -> bool) :
  (forall c, hasChildFn c
             = match firstChild c with Some _ => true | None => false end) ->
  forall (fuel : nat) (nodeParent : Node),
    (size nodeParent <= fuel)%nat ->
    childNodesTraversal fuel validFn hasChildFn nodeParent
    = Some (bySiblingTraversal validFn nodeParent).
Proof.
  intros HhasChild. induction fuel as [| fuel IH]; intros nodeParent Hsize.
  - pose proof (size_positive nodeParent). lia.
  - destruct nodeParent as [id type ps data children].
    cbn [childNodesTraversal bySiblingTraversal]. simpl in Hsize.
    apply (indexLoop_siblingLoop _ _ _ _ (mkNode id type ps data children))
      with (index := 0%nat).
    + intros c _. apply HhasChild.
    + intros c Hin. apply IH. simpl in Hin.
      pose proof (size_child c children Hin). lia.
    + reflexivity.
    + pose proof (length_le_sizes children). lia.
Qed.

(** C6.  On every tree and for every function that decides which nodes are
    valid (a function that may throw included), the traversal by index over
    the [childNodes] lists, with either of the two functions the script
    uses to ask whether a node has children, gives what the traversal along
    the sibling pointers gives: the same nodes in the same order, or the
    same exception.  As many steps as the tree has nodes are enough. *)
Theorem childNodes_traversal_equals_sibling_traversal
    (validFn : Node -> Outcome bool) (container : Node) (fuel : nat) :
  (size container <= fuel)%nat ->
  childNodesTraversal fuel validFn hasChildNodes container
  = Some (bySiblingTraversal validFn container) /\
  childNodesTraversal fuel validFn hasChildNodesByLength container
  = Some (bySiblingTraversal validFn container).
Proof.
  intros Hfuel. split.
  - apply childNodesTraversal_bySiblingTraversal;
      [apply hasChildNodes_firstChild | exact Hfuel].
  - apply childNodesTraversal_bySiblingTraversal;
      [apply hasChildNodesByLength_firstChild | exact Hfuel].
Qed.

Lemma childNodes_traversal_equals_sibling_traversal_witness :
  (size Samples.currentDiv <= 4)%nat /\
  childNodesTraversal 4
    (siblingValidFn Samples.currentCommentsHost None) hasChildNodes
    Samples.currentDiv
  = Some (bySiblingTraversal
            (siblingValidFn Samples.currentCommentsHost None)
            Samples.currentDiv).
Proof.
  assert (Hfuel : (size Samples.currentDiv <= 4)%nat) by (simpl; lia).
  split; [exact Hfuel |].
  exact (proj1 (childNodes_traversal_equals_sibling_traversal
                  (siblingValidFn Samples.currentCommentsHost None)
                  Samples.currentDiv 4 Hfuel)).
Defined.

(** *** The cascade of [tryMethods] *)

Definition returns {A : Type} (o : Outcome A) : bool :=
  match o with Return _ => true | Throw _ => false end.

Lemma isComment_nodeType (h : Host) (n : Node) :
  isComment h n = (nodeType n =? COMMENT_NODE).
Proof. unfold isComment, instanceOf. now destruct (Comment_defined h). Qed.

Lemma getCommentText_readable (n : Node) :
  readable n = true -> exists t, getCommentText n = Return t.
Proof.
  unfold readable, getCommentText.
  destruct (has "nodeValue" n); [eauto |].
  destruct (has "textContent" n); [eauto |].
  destruct (has "innerHTML" n); [eauto | discriminate].
Qed.

(** A traversal whose validity function returns on every descendant
    returns. *)
Lemma bySiblingTraversal_returns (validFn : Node -> Outcome bool) (n : Node) :
  allDescendants (fun c => returns (validFn c)) n = true ->
  exists l, bySiblingTraversal validFn n = Return l.
Proof.
  induction n as [id type ps data children IH] using Node_induction.
  cbn [allDescendants bySiblingTraversal]. intros Hall.
  generalize (@nil Node) as result.
  induction children as [| c r IHr]; intros result; [simpl; eauto |].
  cbn [forallb] in Hall. apply andb_prop in Hall as [Hc Hr].
  apply andb_prop in Hc as [Hvalid Hsub].
  inversion IH as [| ? ? IHc IHrest]; subst.
  cbn [siblingLoop].
  destruct (validFn c) as [[|] | e]; [| | discriminate]; cbn [bind].
  - apply IHr; assumption.
  - destruct (firstChild c).
    + destruct (IHc Hsub) as (sub & ->). cbn [bind]. apply IHr; assumption.
    + apply IHr; assumption.
Qed.

Lemma walkFrom_returns (accept : Node -> Outcome bool) (n : Node) :
  allDescendants
    (fun c => (negb (nodeType c =? COMMENT_NODE) || returns (accept c))%bool)
    n = true ->
  exists l, walkFrom accept n = Return l.
Proof.
  unfold walkFrom.
  induction n as [id type ps data children IH] using Node_induction.
  cbn [allDescendants childNodes]. intros Hall.
  induction children as [| c r IHr]; [simpl; eauto |].
  cbn [forallb] in Hall. apply andb_prop in Hall as [Hc Hr].
  apply andb_prop in Hc as [Hok Hsub].
  inversion IH as [| ? ? IHc IHrest]; subst.
  destruct (IHr IHrest Hr) as (lr & Er).
  cbn [concatOutcomes]. fold (concatOutcomes (visit accept)).
  assert (exists lc, visit accept c = Return lc) as (lc & Ec).
  { destruct c as [cid ctype cps cdata cchildren].
    cbn [visit]. cbn [nodeType] in Hok.
    cbn [childNodes] in IHc.
    destruct (ctype =? COMMENT_NODE); cbn [negb orb] in Hok.
    - destruct (accept (mkNode cid ctype cps cdata cchildren)) as [[|] | e];
        cbn [bind returns] in *.
      + destruct (IHc Hsub) as (l & ->). cbn [bind]. eauto.
      + eauto.
      + discriminate.
    - apply IHc. exact Hsub. }
  rewrite Ec. cbn [bind]. change (concatOutcomes (visit accept) r)
    with (concatOutcomes (visit accept) r). rewrite Er. cbn [bind]. eauto.
Qed.

Lemma allDescendants_impl (p q : Node -> bool) (n : Node) :
  (forall c, p c = true -> q c = true) ->
  allDescendants p n = true -> allDescendants q n = true.
Proof.
  intros Hpq.
  induction n as [id type ps data children IH] using Node_induction.
  cbn [allDescendants].
  induction children as [| c r IHr]; [reflexivity |].
  inversion IH as [| ? ? IHc IHrest]; subst.
  cbn [forallb]. intros H. apply andb_prop in H as [Hc Hr].
  apply andb_prop in Hc as [Hp Hsub].
  rewrite (Hpq _ Hp), (IHc Hsub), (IHr IHrest Hr). reflexivity.
Qed.

Lemma allDescendants_true (n : Node) : allDescendants (fun _ => true) n = true.
Proof.
  induction n as [id type ps data children IH] using Node_induction.
  cbn [allDescendants].
  induction children as [| c r IHr]; [reflexivity |].
  inversion IH as [| ? ? IHc IHrest]; subst.
  cbn [forallb]. now rewrite IHc, (IHr IHrest).
Qed.

Lemma siblingValidFn_returns (h : Host) (search : Search) (n : Node) :
  commentsReadable search n = true ->
  allDescendants (fun c => returns (siblingValidFn h search c)) n = true.
Proof.
  destruct search as [test |]; cbn [commentsReadable siblingValidFn].
  - apply allDescendants_impl. intros c Hc.
    rewrite isComment_nodeType.
    destruct (nodeType c =? COMMENT_NODE); [| reflexivity].
    cbn [negb orb] in Hc.
    destruct (getCommentText_readable c Hc) as (t & ->). reflexivity.
  - intros _. apply allDescendants_true.
Qed.

Lemma walkerFilter_returns (search : Search) (n : Node) :
  commentsReadable search n = true ->
  allDescendants
    (fun c => (negb (nodeType c =? COMMENT_NODE)
               || returns (walkerFilter search c))%bool) n = true.
Proof.
  destruct search as [test |]; cbn [commentsReadable walkerFilter].
  - apply allDescendants_impl. intros c Hc.
    destruct (nodeType c =? COMMENT_NODE); [| reflexivity].
    cbn [negb orb] in Hc |- *.
    destruct (getCommentText_readable c Hc) as (t & ->). reflexivity.
  - intros _. apply (allDescendants_impl (fun _ => true));
      [intros; apply orb_true_r | apply allDescendants_true].
Qed.

Lemma byTreeWalker_walkFrom (h : Host) (container : Node) (search : Search) :
  byTreeWalker h container search
  = if createTreeWalker h then
      bind (walkFrom (walkerFilter search) container)
           (fun result => Return (Some result))
    else Return None.
Proof.
  unfold byTreeWalker, walkerFilter.
  destruct (createTreeWalker h); cbn [negb]; [| reflexivity].
  now destruct search.
Qed.

Lemma childNodesValidFn_siblingValidFn (h : Host) (search : Search) :
  childNodesValidFn h search = siblingValidFn h search.
Proof. now destruct search. Qed.

(** The strategy that [tryMethods] runs, and its result. *)
Lemma tryMethods_cascade
    (fuel : nat) (h : Host) (container : Node) (search : Search) :
  (size container <= fuel)%nat ->
  tryMethods fuel h container search
  = Some
      (if createTreeWalker h then walkFrom (walkerFilter search) container
       else if (has "firstChild" container && has "nextSibling" container)%bool
         then bySiblingTraversal (siblingValidFn h search) container
       else if has "childNodes" container
         then bySiblingTraversal (siblingValidFn h search) container
       else Throw ReferenceError).
Proof.
  intros Hfuel. unfold tryMethods. rewrite byTreeWalker_walkFrom.
  destruct (createTreeWalker h); cbn [bindF].
  - now destruct (walkFrom (walkerFilter search) container).
  - unfold bySibling.
    destruct (has "firstChild" container && has "nextSibling" container)%bool;
      cbn [bindF].
    + now destruct (bySiblingTraversal (siblingValidFn h search) container).
    + unfold byChildNodes. destruct (has "childNodes" container);
        [| reflexivity].
      rewrite childNodesValidFn_siblingValidFn.
      destruct (has "hasChildNodes" container);
        rewrite childNodesTraversal_bySiblingTraversal
          by auto using hasChildNodes_firstChild,
                        hasChildNodesByLength_firstChild;
        cbn [bindF];
        now destruct (bySiblingTraversal (siblingValidFn h search) container).
Qed.

(** C7, the claim as stated fails: with a search phrase, the strategy that
    runs reads the text of each Comment through [getCommentText], which
    throws a ReferenceError of its own on a Comment without [nodeValue],
    [textContent] and [innerHTML].  Here the sibling traversal is supported
    and runs, and the call still ends in a ReferenceError. *)
Lemma getAllComments_throws_with_supported_strategy :
  getAllComments Text.literalRegExp 2 Samples.hostWithoutTreeWalker
    Samples.searchNote
  = Some (Throw ReferenceError) /\
  (has "firstChild" Samples.divWithOpaqueComment
   && has "nextSibling" Samples.divWithOpaqueComment)%bool = true /\
  checkContOption Samples.hostWithoutTreeWalker
    (mkOptions (Some (VNode Samples.divWithOpaqueComment)) (PStr "note")
       false true)
  = Return Samples.divWithOpaqueComment.
Proof.
  repeat split; vm_compute; reflexivity.
Qed.

(** C7, amended.  For options that pass the checks with the container
    [container] and the search [search], [getAllComments] returns the
    result of the first supported strategy in the order TreeWalker, sibling
    pointers, [childNodes], and throws a ReferenceError when none is
    supported.  When every Comment the search would read offers its text
    (always so without a search phrase), that is the only case in which it
    throws a ReferenceError. *)
Theorem getAllComments_first_supported_strategy
    (RegExp : string -> string -> option (string -> bool))
    (fuel : nat) (h : Host) (options : OptionsArg)
    (container : Node) (search : Search) :
  checkOptions RegExp h options = Return (container, search) ->
  (size container <= fuel)%nat ->
  getAllComments RegExp fuel h options
  = Some
      (if createTreeWalker h then walkFrom (walkerFilter search) container
       else if (has "firstChild" container && has "nextSibling" container)%bool
         then bySiblingTraversal (siblingValidFn h search) container
       else if has "childNodes" container
         then bySiblingTraversal (siblingValidFn h search) container
       else Throw ReferenceError) /\
  (commentsReadable search container = true ->
   (getAllComments RegExp fuel h options = Some (Throw ReferenceError)
    <-> createTreeWalker h = false /\
        (has "firstChild" container && has "nextSibling" container)%bool
        = false /\
        has "childNodes" container = false)).
Proof.
  intros Hopts Hfuel.
  assert (Hrun : getAllComments RegExp fuel h options
                 = tryMethods fuel h container search)
    by (unfold getAllComments; now rewrite Hopts).
  rewrite Hrun, (tryMethods_cascade fuel h container search Hfuel).
  split; [reflexivity |].
  intros Hread.
  destruct (walkFrom_returns _ _ (walkerFilter_returns search _ Hread))
    as (lw & Ew).
  destruct (bySiblingTraversal_returns _ _
              (siblingValidFn_returns h search _ Hread)) as (ls & Es).
  rewrite Ew, Es.
  destruct (createTreeWalker h);
    destruct (has "firstChild" container && has "nextSibling" container)%bool;
    destruct (has "childNodes" container);
    split; try discriminate; try tauto;
    intros (A & B & C); discriminate.
Qed.

(** *** The TreeWalker and the traversals find the same nodes *)

Lemma siblingLoop_concat (h : Host) (search : Search) (l : list Node) :
  Forall (fun c =>
            ((nodeType c =? COMMENT_NODE) = true -> childNodes c = []) /\
            bySiblingTraversal (siblingValidFn h search) c
            = concatOutcomes (visit (walkerFilter search)) (childNodes c)) l ->
  forall result,
    siblingLoop (bySiblingTraversal (siblingValidFn h search))
      (siblingValidFn h search) l result
    = bind (concatOutcomes (visit (walkerFilter search)) l)
           (fun r => Return (result ++ r)).
Proof.
  induction 1 as [| c r [Hleaf Hrec] _ IH]; intros result.
  - cbn. now rewrite app_nil_r.
  - cbn [siblingLoop concatOutcomes].
    assert (Hvalid : siblingValidFn h search c
                     = if nodeType c =? COMMENT_NODE
                       then walkerFilter search c else Return false).
    { unfold siblingValidFn, walkerFilter. rewrite isComment_nodeType.
      destruct search; now destruct (nodeType c =? COMMENT_NODE). }
    rewrite Hvalid.
    destruct c as [id type ps data children]. cbn [nodeType childNodes] in *.
    cbn [visit]. unfold firstChild. cbn [childNodes].
    destruct (type =? COMMENT_NODE) eqn:Etype.
    + rewrite (Hleaf eq_refl). cbn [concatOutcomes hd_error].
      destruct (walkerFilter search (mkNode id type ps data []))
        as [[|] | e]; cbn [bind]; [| | reflexivity].
      * rewrite IH.
        destruct (concatOutcomes (visit (walkerFilter search)) r);
          cbn [bind]; [| reflexivity].
        now rewrite <- app_assoc.
      * rewrite IH.
        now destruct (concatOutcomes (visit (walkerFilter search)) r).
    + cbn [bind]. destruct children as [| x children'].
      * cbn [hd_error concatOutcomes bind]. rewrite IH.
        now destruct (concatOutcomes (visit (walkerFilter search)) r).
      * cbn [hd_error]. rewrite Hrec.
        destruct (concatOutcomes (visit (walkerFilter search))
                    (x :: children')) as [sub | e]; cbn [bind];
          [| reflexivity].
        rewrite IH.
        destruct (concatOutcomes (visit (walkerFilter search)) r);
          cbn [bind]; [| reflexivity].
        now rewrite <- app_assoc.
Qed.

(** On a document in which Comments have no children, the sibling
    traversal returns what a TreeWalker over the Comments returns: the
    same nodes in the same order, or the same exception. *)
Theorem bySiblingTraversal_equals_TreeWalker
    (h : Host) (search : Search) (container : Node) :
  commentsAreLeaves container = true ->
  bySiblingTraversal (siblingValidFn h search) container
  = walkFrom (walkerFilter search) container.
Proof.
  unfold walkFrom, commentsAreLeaves.
  induction container as [id type ps data children IH] using Node_induction.
  cbn [allDescendants bySiblingTraversal childNodes]. intros Hwf.
  rewrite siblingLoop_concat.
  - now destruct (concatOutcomes (visit (walkerFilter search)) children).
  - induction children as [| c r IHr]; constructor.
    + cbn [forallb] in Hwf. apply andb_prop in Hwf as [Hc _].
      apply andb_prop in Hc as [Hleaf Hsub].
      inversion IH as [| ? ? IHc _]; subst. split.
      * intros E. rewrite E in Hleaf. cbn in Hleaf.
        now destruct (childNodes c).
      * now apply IHc.
    + inversion IH; subst. cbn [forallb] in Hwf.
      apply andb_prop in Hwf as [_ Hr]. now apply IHr.
Qed.

Lemma bySiblingTraversal_equals_TreeWalker_witness :
  commentsAreLeaves Samples.currentDiv = true /\
  bySiblingTraversal
    (siblingValidFn Samples.currentCommentsHost None) Samples.currentDiv
  = walkFrom (walkerFilter None) Samples.currentDiv.
Proof.
  split; [reflexivity |].
  exact (bySiblingTraversal_equals_TreeWalker Samples.currentCommentsHost
           None Samples.currentDiv eq_refl).
Defined.

Lemma getAllComments_first_supported_strategy_witness :
  (size Samples.currentDiv <= 4)%nat /\
  getAllComments Text.literalRegExp 4 Samples.currentCommentsHost
    Samples.searchNoteInDiv
  = Some (walkFrom
            (walkerFilter (Text.literalRegExp "NOTE" "i"))
            Samples.currentDiv).
Proof.
  assert (Hfuel : (size Samples.currentDiv <= 4)%nat) by (simpl; lia).
  split; [exact Hfuel |].
  exact (proj1 (getAllComments_first_supported_strategy Text.literalRegExp 4
                  Samples.currentCommentsHost Samples.searchNoteInDiv
                  Samples.currentDiv (Text.literalRegExp "NOTE" "i")
                  eq_refl Hfuel)).
Defined.

End GetAllCommentsFacts.

(** ** src/class/ContainsCSSClass.js *)

Module ContainsCSSClassFacts.
Import JS ClassParam ContainsCSSClass.

Lemma overwriteSingleMatch_falsy (singleMatch : Prim) :
  truthy (overwriteSingleMatch singleMatch) = false.
Proof. now destruct singleMatch. Qed.

(** With a falsy [singleMatch], [checkClassEntries] takes the branch that
    requires every entry. *)
Lemma checkClassEntries_all (searchClass : list string) (singleMatch : Prim)
    (searchFn : SearchFn) (elementClass : option string) :
  checkClassEntries searchClass (overwriteSingleMatch singleMatch) searchFn
    elementClass
  = match elementClass with
    | Some c =>
        if String.eqb c EmptyString
        then allMatchOneParam searchClass searchFn
        else allMatchClassString searchClass searchFn c
    | None => allMatchOneParam searchClass searchFn
    end.
Proof.
  unfold checkClassEntries. rewrite overwriteSingleMatch_falsy.
  destruct elementClass as [c |]; [| reflexivity].
  now destruct (String.eqb c EmptyString).
Qed.

Lemma tryMethods_ignores_singleMatch
    (RegExp : string -> string -> option (string -> bool))
    (e : Element) (classes : list string) (a b : Prim) :
  tryMethods RegExp e classes (overwriteSingleMatch a)
  = tryMethods RegExp e classes (overwriteSingleMatch b).
Proof.
  assert (HclassList : byClassList e classes (overwriteSingleMatch a)
                       = byClassList e classes (overwriteSingleMatch b))
    by (unfold byClassList; now rewrite !checkClassEntries_all).
  assert (HclassName :
            byClassName RegExp e classes (overwriteSingleMatch a)
            = byClassName RegExp e classes (overwriteSingleMatch b))
    by (unfold byClassName; now rewrite !checkClassEntries_all).
  assert (Hattribute :
            byAttribute RegExp e classes (overwriteSingleMatch a)
            = byAttribute RegExp e classes (overwriteSingleMatch b)).
  { unfold byAttribute.
    destruct (negb (getAttributeSupported e)); [reflexivity |].
    destruct (classAttr e) as [v |]; [| reflexivity].
    destruct (String.eqb v EmptyString); [reflexivity |].
    destruct (String.eqb (Text.trim v) EmptyString); [reflexivity |].
    now rewrite !checkClassEntries_all. }
  unfold tryMethods. rewrite HclassList.
  destruct (byClassList e classes (overwriteSingleMatch b)) as [[r |] | err];
    cbn [bind]; try reflexivity.
  rewrite HclassName.
  destruct (byClassName RegExp e classes (overwriteSingleMatch b))
    as [[r |] | err]; cbn [bind]; try reflexivity.
  now rewrite Hattribute.
Qed.

(** C8.  The result of [containsCSSClass] does not depend on
    [singleMatch]: two calls with the same Element and the same classes
    give the same Boolean (or the same exception) whatever the third
    argument is, and the search that runs is the one that requires all
    entries. *)
Theorem containsCSSClass_independent_of_singleMatch
    (RegExp : string -> string -> option (string -> bool))
    (Element_defined : bool) (fuel : nat) (elementTarget : Value)
    (searchClass : ClassArg) (singleMatch singleMatch' : Prim) :
  containsCSSClass RegExp Element_defined fuel elementTarget searchClass
    singleMatch
  = containsCSSClass RegExp Element_defined fuel elementTarget searchClass
      singleMatch' /\
  forall (searchFn : SearchFn) (classes : list string)
         (elementClass : option string),
    checkClassEntries classes (overwriteSingleMatch singleMatch) searchFn
      elementClass
    = match elementClass with
      | Some c =>
          if String.eqb c EmptyString
          then allMatchOneParam classes searchFn
          else allMatchClassString classes searchFn c
      | None => allMatchOneParam classes searchFn
      end.
Proof.
  split.
  - unfold containsCSSClass.
    destruct (negb (isElement Element_defined elementTarget)); [reflexivity |].
    destruct elementTarget as [p | e |]; try reflexivity.
    destruct (supportsCSS3 e) as [css3 | err]; [| reflexivity].
    destruct (checkClassParameter fuel css3 searchClass)
      as [[[classes | err] after] |]; try reflexivity.
    f_equal. apply tryMethods_ignores_singleMatch.
  - intros. apply checkClassEntries_all.
Qed.

End ContainsCSSClassFacts.

(** ** src/class/AddCSSClass.js *)

Module AddCSSClassFacts.
Import JS ClassParam AddCSSClass.

(** C9.  Without [classList], [addCSSClass(div, "-a")] on
    [<div class="-a">] adds the class again: the expression [\b-a\b] does
    not match ["-a"], because no word boundary stands before a hyphen at the
    start of the string.  The call returns 1 and leaves [class="-a -a"];
    a second call with the same arguments returns 1 again.  The same
    happens through the attribute methods. *)
Theorem addCSSClass_adds_present_class_again :
  let call (page0 : Store) :=
    addCSSClass Text.literalRegExp Samples.hostWithoutClassList 2
      page0 (TElement 1) (CString "-a"%string) in
  let summary (r : option Result) :=
    option_map (fun r => (outcome r, page r 1%nat)) r in
  let first := call Samples.pageWithHyphenClass in
  let second :=
    match first with
    | Some r => call (page r)
    | None => None
    end in
  summary first = Some (Return 1, Some "-a -a"%string) /\
  summary second = Some (Return 1, Some "-a -a -a"%string) /\
  Text.tokens "-a"%string = ["-a"%string] /\
  fst (byAttributeAdd Text.literalRegExp Samples.pageWithHyphenClass 1%nat
         "-a"%string) = Return true.
Proof.
  repeat split; vm_compute; reflexivity.
Qed.

End AddCSSClassFacts.

(** ** src/replace/ReplaceNode.js *)

Module ReplaceNodeFacts.
Import JS Dom ReplaceNode.

(** The tests of the cases overlap: for a Document as replacement and an
    unattached DocumentFragment as original the tests of two cases hold,
    and the first in the order of the source is chosen. *)
Example tests_overlap :
  test Samples.replaceHost Samples.otherDocument Samples.looseFragment None
    false DocumentToDocument = true /\
  test Samples.replaceHost Samples.otherDocument Samples.looseFragment None
    false FragmentOriginal = true /\
  chosen Samples.replaceHost Samples.otherDocument Samples.looseFragment
    None false = DocumentToDocument.
Proof.
  repeat split.
Qed.






(** The run of the witness: one call of [replaceWith], and 1 returned. *)
Example replaceNode_of_an_attached_span :
  replaceNode Samples.hierarchyRule Samples.replaceHost
    Samples.attachedSpan Samples.looseSpan NoOptions
  = (Normal (RNumber 1),
     [ReplaceWith (node Samples.attachedSpan) (node Samples.looseSpan)]).
Proof. reflexivity. Qed.

End ReplaceNodeFacts.

(* ================================================================= *)
(** ** Strings: trimming and splitting *)

Module TextFacts.
Import Text.

Lemma chars_text (l : list ascii) : chars (text l) = l.
Proof. apply list_ascii_of_string_of_list_ascii. Qed.

Lemma text_chars (s : string) : text (chars s) = s.
Proof. apply string_of_list_ascii_of_string. Qed.

Lemma text_nil (l : list ascii) : text l = EmptyString -> l = [].
Proof.
  intros H. rewrite <- (chars_text l), H. reflexivity.
Qed.

(** A string without white space. *)
Definition clean (s : string) : Prop := hasSpace s = false.

Lemma dropSpaces_clean (l : list ascii) :
  existsb isSpace l = false -> dropSpaces l = l.
Proof.
  destruct l as [| c r]; simpl; [reflexivity |].
  intros H. apply orb_false_iff in H. destruct H as [Hc _].
  rewrite Hc. reflexivity.
Qed.

Lemma existsb_rev {A : Type} (p : A -> bool) (l : list A) :
  existsb p (rev l) = existsb p l.
Proof.
  induction l as [| x r IH]; simpl; [reflexivity |].
  rewrite existsb_app, IH. simpl. rewrite orb_false_r. apply orb_comm.
Qed.

(** Trimming leaves a string without white space as it is. *)
Lemma trim_clean (s : string) : clean s -> trim s = s.
Proof.
  unfold clean, hasSpace, trim. intros H.
  rewrite (dropSpaces_clean _ H).
  rewrite dropSpaces_clean by (rewrite existsb_rev; exact H).
  rewrite rev_involutive. apply text_chars.
Qed.

Lemma splitFrom_clean (l piece : list ascii) (inRun : bool) :
  existsb isSpace l = false ->
  splitFrom l piece inRun = [text (rev piece ++ l)].
Proof.
  revert piece inRun.
  induction l as [| c r IH]; intros piece inRun H; simpl.
  - rewrite app_nil_r. reflexivity.
  - simpl in H. apply orb_false_iff in H. destruct H as [Hc Hr].
    rewrite Hc, (IH _ _ Hr). simpl. rewrite <- app_assoc. reflexivity.
Qed.

(** A string without white space is its own single piece. *)
Lemma split_clean (s : string) : clean s -> split s = [s].
Proof.
  intros H. unfold split. rewrite (splitFrom_clean _ _ _ H).
  simpl. rewrite text_chars. reflexivity.
Qed.

Lemma splitFrom_pieces_clean (l piece : list ascii) (inRun : bool) :
  existsb isSpace piece = false ->
  Forall clean (splitFrom l piece inRun).
Proof.
  revert piece inRun.
  induction l as [| c r IH]; intros piece inRun H; simpl.
  - constructor; [| constructor].
    unfold clean, hasSpace. rewrite chars_text, existsb_rev. exact H.
  - destruct (isSpace c) eqn:Hc.
    + destruct inRun.
      * apply IH. exact H.
      * constructor.
        -- unfold clean, hasSpace. rewrite chars_text, existsb_rev. exact H.
        -- apply IH. reflexivity.
    + apply IH. simpl. rewrite Hc, H. reflexivity.
Qed.

(** No piece of a split holds white space. *)
Lemma split_pieces_clean (s : string) : Forall clean (split s).
Proof. apply splitFrom_pieces_clean. reflexivity. Qed.

Lemma splitFrom_nonempty (l piece : list ascii) (inRun : bool) :
  splitFrom l piece inRun <> [].
Proof.
  revert piece inRun.
  induction l as [| c r IH]; intros piece inRun; simpl.
  - discriminate.
  - destruct (isSpace c); [destruct inRun |]; try apply IH. discriminate.
Qed.

(** A split has at least one piece. *)
Lemma split_nonempty (s : string) : split s <> [].
Proof. apply splitFrom_nonempty. Qed.

(** The last character of a list, if any, is not white space. *)
Definition endsClean (l : list ascii) : Prop :=
  match rev l with c :: _ => isSpace c = false | [] => True end.

Lemma endsClean_tail (c : ascii) (r : list ascii) :
  r <> [] -> endsClean (c :: r) -> endsClean r.
Proof.
  unfold endsClean. simpl. intros Hr.
  destruct (rev r) as [| x y] eqn:E.
  - apply (f_equal (@rev ascii)) in E. rewrite rev_involutive in E.
    contradiction.
  - simpl. trivial.
Qed.

Lemma endsClean_space (c : ascii) (r : list ascii) :
  isSpace c = true -> endsClean (c :: r) -> r <> [].
Proof.
  unfold endsClean. intros Hc H E. subst r. simpl in H. congruence.
Qed.

Lemma splitFrom_pieces_nonempty (l piece : list ascii) (inRun : bool) :
  endsClean l ->
  (inRun = false -> piece <> []) ->
  (inRun = true -> l <> []) ->
  Forall (fun p => p <> EmptyString) (splitFrom l piece inRun).
Proof.
  revert piece inRun.
  induction l as [| c r IH]; intros piece inRun Hend Hpiece Hrun; simpl.
  - constructor; [| constructor].
    intros E. apply text_nil in E.
    destruct inRun; [now apply Hrun |].
    apply Hpiece; [reflexivity |].
    apply (f_equal (@rev ascii)) in E. rewrite rev_involutive in E. exact E.
  - destruct (isSpace c) eqn:Hc.
    + pose proof (endsClean_space _ _ Hc Hend) as Hr.
      pose proof (endsClean_tail _ _ Hr Hend) as Hend'.
      destruct inRun.
      * apply IH; auto; discriminate.
      * constructor.
        -- intros E. apply text_nil in E.
           apply Hpiece; [reflexivity |].
           apply (f_equal (@rev ascii)) in E.
           rewrite rev_involutive in E. exact E.
        -- apply IH; auto; discriminate.
    + apply IH.
      * destruct r as [| x y]; [exact I |].
        apply (endsClean_tail c); [discriminate | exact Hend].
      * discriminate.
      * discriminate.
Qed.

Lemma dropSpaces_head (l : list ascii) :
  match dropSpaces l with c :: _ => isSpace c = false | [] => True end.
Proof.
  induction l as [| c r IH]; simpl; [exact I |].
  destruct (isSpace c) eqn:Hc; [exact IH | exact Hc].
Qed.

Lemma dropSpaces_suffix (l : list ascii) :
  exists pre, l = pre ++ dropSpaces l.
Proof.
  induction l as [| c r [pre IH]]; simpl.
  - exists []. reflexivity.
  - destruct (isSpace c).
    + exists (c :: pre). simpl. rewrite <- IH. reflexivity.
    + exists []. reflexivity.
Qed.

(** The characters of a trimmed string: white space at neither end. *)
Lemma trim_ends (s : string) :
  match chars (trim s) with
  | c :: _ => isSpace c = false /\ endsClean (chars (trim s))
  | [] => True
  end.
Proof.
  unfold trim. rewrite chars_text.
  set (a := dropSpaces (chars s)).
  set (b := dropSpaces (rev a)).
  destruct (rev b) as [| c t] eqn:E; [exact I |].
  split.
  - (* the first character of [rev b] is the last one of [b], which is the
       last one of [rev a], the first one of [a] *)
    destruct (dropSpaces_suffix (rev a)) as [pre Hpre]. fold b in Hpre.
    assert (Ha : a = rev b ++ rev pre).
    { rewrite <- (rev_involutive a), Hpre, rev_app_distr. reflexivity. }
    rewrite E in Ha. simpl in Ha.
    pose proof (dropSpaces_head (chars s)) as Hh. fold a in Hh.
    rewrite Ha in Hh. exact Hh.
  - unfold endsClean. rewrite <- E, rev_involutive.
    exact (dropSpaces_head (rev a)).
Qed.

(** The pieces of a trimmed string that is not empty are not empty. *)
Lemma split_trim_nonempty (s : string) :
  trim s <> EmptyString ->
  Forall (fun p => p <> EmptyString) (split (trim s)).
Proof.
  intros Hne. pose proof (trim_ends s) as H.
  unfold split. destruct (chars (trim s)) as [| c r] eqn:E.
  - exfalso. apply Hne. rewrite <- (text_chars (trim s)), E. reflexivity.
  - destruct H as [Hc Hend]. simpl. rewrite Hc.
    apply splitFrom_pieces_nonempty.
    + destruct r as [| x y]; [exact I |].
      apply (endsClean_tail c); [discriminate | exact Hend].
    + discriminate.
    + discriminate.
Qed.

End TextFacts.

(* ================================================================= *)
(** ** src/class: the class-name argument *)

Module ClassParamFacts.
Import JS ClassParam TextFacts.

(** The pieces of an entry: what is left of it between its runs of white
    space once it is trimmed. *)
Definition pieces (raw : string) : list string :=
  Text.split (Text.trim raw).

(** The syntax check of a piece: with CSS 3 the NUL characters are dropped,
    without it the piece must be a class name of CSS 2. *)
Definition validate (css3 : bool) (p : string) : Outcome string :=
  if css3 then Return (Text.removeNul p)
  else if Text.isCss2Name p then Return p else Throw RangeError.

(** One piece against the names seen so far; [k] is what follows. *)
Definition keepOne (css3 : bool) (p : string) (checked : list string)
    (k : list string -> Outcome (list string)) : Outcome (list string) :=
  bind (validate css3 p) (fun c =>
    if String.eqb c EmptyString then
      bind (k checked) (fun l => Return (c :: l))
    else if inChecked c checked then k checked
    else bind (k (c :: checked)) (fun l => Return (c :: l))).

(** Pieces that are entries of their own. *)
Fixpoint keepNames (css3 : bool) (ps : list string) (checked : list string)
    (k : list string -> Outcome (list string)) : Outcome (list string) :=
  match ps with
  | [] => k checked
  | p :: r =>
      if String.eqb p EmptyString then Throw RangeError
      else keepOne css3 p checked (fun ch => keepNames css3 r ch k)
  end.

(** The entries from left to right, each one by its pieces. *)
Fixpoint keepEntries (css3 : bool) (todo : list Entry) (checked : list string)
  : Outcome (list string) :=
  match todo with
  | [] => Return []
  | EStr raw :: r =>
      if String.eqb (Text.trim raw) EmptyString then Throw RangeError
      else
        keepOne css3 (hd EmptyString (pieces raw)) checked (fun ch =>
          keepNames css3 (tl (pieces raw)) ch (fun ch' =>
            keepEntries css3 r ch'))
  | _ :: _ => Throw TypeError
  end.

(** The turns of the loop that an array needs: one per piece. *)
Definition turns (e : Entry) : nat :=
  match e with
  | EStr raw => List.length (pieces raw)
  | _ => 1
  end.

Definition steps (l : list Entry) : nat := list_sum (map turns l).

Lemma keepOne_ext (css3 : bool) (p : string) (checked : list string)
    (k k' : list string -> Outcome (list string)) :
  (forall ch, k ch = k' ch) ->
  keepOne css3 p checked k = keepOne css3 p checked k'.
Proof.
  intros H. unfold keepOne. destruct (validate css3 p) as [c | e]; simpl;
    [| reflexivity].
  rewrite !H. reflexivity.
Qed.

Lemma pieces_clean (p : string) : clean p -> pieces p = [p].
Proof.
  intros H. unfold pieces. rewrite (trim_clean _ H). apply split_clean, H.
Qed.

Lemma turns_positive (e : Entry) : (1 <= turns e)%nat.
Proof.
  destruct e as [raw | |]; simpl; try lia.
  unfold pieces. pose proof (split_nonempty (Text.trim raw)) as H.
  destruct (Text.split (Text.trim raw)); [contradiction | simpl; lia].
Qed.

Lemma steps_cons (e : Entry) (rest : list Entry) :
  steps (e :: rest) = (turns e + steps rest)%nat.
Proof. reflexivity. Qed.

Lemma steps_clean (ps : list string) (rest : list Entry) :
  Forall clean ps ->
  steps (map EStr ps ++ rest) = (List.length ps + steps rest)%nat.
Proof.
  unfold steps. induction 1 as [| p r Hp _ IH]; simpl; [reflexivity |].
  rewrite (pieces_clean _ Hp), IH. reflexivity.
Qed.

(** Entries without white space are handled as pieces. *)
Lemma keepEntries_clean (css3 : bool) (ps : list string) (rest : list Entry) :
  Forall clean ps ->
  forall checked,
    keepEntries css3 (map EStr ps ++ rest) checked
    = keepNames css3 ps checked (fun ch => keepEntries css3 rest ch).
Proof.
  induction 1 as [| p r Hp _ IH]; intros checked; simpl; [reflexivity |].
  rewrite (trim_clean _ Hp), (pieces_clean _ Hp). simpl.
  destruct (String.eqb p EmptyString); [reflexivity |].
  apply keepOne_ext. exact IH.
Qed.

Lemma strings_app (a b : list Entry) : strings (a ++ b) = strings a ++ strings b.
Proof.
  induction a as [| [s | |] r IH]; simpl; rewrite ?IH; reflexivity.
Qed.

Lemma nth_after {A : Type} (done rest : list A) (e d : A) :
  nth (List.length done) (done ++ e :: rest) d = e.
Proof.
  rewrite app_nth2 by lia. rewrite Nat.sub_diag. reflexivity.
Qed.

Lemma firstn_after {A : Type} (done rest : list A) (e : A) :
  firstn (S (List.length done)) (done ++ e :: rest) = done ++ [e].
Proof.
  rewrite firstn_app.
  replace (S (List.length done) - List.length done)%nat with 1%nat by lia.
  rewrite firstn_all2 by lia. reflexivity.
Qed.

Lemma skipn_after {A : Type} (done rest : list A) (e : A) :
  skipn (S (List.length done)) (done ++ e :: rest) = rest.
Proof.
  rewrite skipn_app.
  replace (S (List.length done) - List.length done)%nat with 1%nat by lia.
  rewrite skipn_all2 by lia. reflexivity.
Qed.

Lemma store_after (done rest : list Entry) (e v : Entry) :
  store (done ++ e :: rest) (List.length done) v = done ++ v :: rest.
Proof.
  unfold store. rewrite skipn_after.
  rewrite firstn_app, Nat.sub_diag, firstn_all. simpl.
  rewrite app_nil_r. reflexivity.
Qed.

(** The entry at [index] and the array, after the entry was split where it
    holds white space. *)
Lemma split_step (arr : list Entry) (entry : string) (index : nat) :
  (if Text.hasSpace entry then splitClassEntry arr entry index
   else (entry, arr))
  = (hd EmptyString (Text.split entry),
     firstn (S index) arr ++ map EStr (tl (Text.split entry))
       ++ skipn (S index) arr).
Proof.
  destruct (Text.hasSpace entry) eqn:Hs.
  - unfold splitClassEntry. destruct (Text.split entry) as [| first others];
      cbn [hd tl map app]; [| reflexivity].
    rewrite firstn_skipn. reflexivity.
  - rewrite (split_clean entry Hs). cbn [hd tl map app].
    rewrite firstn_skipn. reflexivity.
Qed.

(** The result of the loop, read against [keepEntries]. *)
Definition agrees (done : list Entry) (r : Outcome Loop) (after : list Entry)
    (expected : Outcome (list string)) : Prop :=
  match expected with
  | Return names =>
      exists st,
        r = Return st /\ after = argArray st
        /\ strings (argArray st) = strings done ++ names
  | Throw e => r = Throw e
  end.

Lemma agrees_keep (done : list Entry) (c : string) (r : Outcome Loop)
    (after : list Entry) (expected : Outcome (list string)) :
  agrees (done ++ [EStr c]) r after expected ->
  agrees done r after (bind expected (fun l => Return (c :: l))).
Proof.
  destruct expected as [names | e]; simpl; [| trivial].
  intros [st [Hr [Ha Hs]]]. exists st. repeat split; [exact Hr | exact Ha |].
  rewrite Hs, strings_app. simpl. rewrite <- app_assoc. reflexivity.
Qed.

Lemma agrees_drop (done : list Entry) (r : Outcome Loop) (after : list Entry)
    (expected : Outcome (list string)) :
  agrees (done ++ [ENull]) r after expected -> agrees done r after expected.
Proof.
  destruct expected as [names | e]; simpl; [| trivial].
  intros [st [Hr [Ha Hs]]]. exists st. repeat split; [exact Hr | exact Ha |].
  rewrite Hs, strings_app. simpl. rewrite app_nil_r. reflexivity.
Qed.

(** The loop of [checkClassArray] from [index] on, with the entries before
    [index] in [done] and the others in [todo]: it ends within [steps todo]
    turns, and with the outcome of [keepEntries]. *)
Lemma checkLoop_keepEntries (css3 : bool) (fuel : nat) :
  forall (todo done : list Entry) (checked : list string) (numDup : nat),
    (steps todo <= fuel)%nat ->
    exists r after,
      checkLoop fuel css3 true (List.length done)
        (mkLoop (done ++ todo) checked numDup) = Some (r, after)
      /\ agrees done r after (keepEntries css3 todo checked).
Proof.
  induction fuel as [| fuel IH]; intros todo done checked numDup Hfuel.
  - destruct todo as [| e rest].
    + exists (Return (mkLoop (done ++ []) checked numDup)), (done ++ []).
      simpl. rewrite app_nil_r, Nat.ltb_irrefl. split; [reflexivity |].
      eexists. repeat split. simpl. rewrite app_nil_r. reflexivity.
    + exfalso. pose proof (turns_positive e) as H.
      rewrite steps_cons in Hfuel. lia.
  - destruct todo as [| e rest].
    + exists (Return (mkLoop (done ++ []) checked numDup)), (done ++ []).
      simpl. rewrite app_nil_r, Nat.ltb_irrefl. split; [reflexivity |].
      eexists. repeat split. simpl. rewrite app_nil_r. reflexivity.
    + cbn [checkLoop argArray]. 
      replace (List.length done <? List.length (done ++ e :: rest))%nat
        with true
        by (symmetry; apply Nat.ltb_lt; rewrite length_app; simpl; lia).
      rewrite nth_after.
      destruct e as [raw | |];
        [| eexists; eexists; split; reflexivity
         | eexists; eexists; split; reflexivity].
      cbn [keepEntries]. rewrite andb_true_r.
      destruct (String.eqb (Text.trim raw) EmptyString) eqn:Hempty.
      { eexists; eexists; split; reflexivity. }
      rewrite split_step, firstn_after, skipn_after.
      fold (pieces raw).
      pose proof (split_pieces_clean (Text.trim raw)) as Hclean.
      fold (pieces raw) in Hclean.
      assert (Hsteps : (steps (map EStr (tl (pieces raw)) ++ rest) <= fuel)%nat).
      { rewrite steps_clean.
        - rewrite steps_cons in Hfuel. cbn [turns] in Hfuel.
          pose proof (split_nonempty (Text.trim raw)) as Hne.
          fold (pieces raw) in Hne.
          destruct (pieces raw); [contradiction |].
          cbn [tl List.length] in *. lia.
        - destruct (pieces raw); [constructor | now inversion Hclean]. }
      assert (Hrest : forall ch,
        keepNames css3 (tl (pieces raw)) ch (fun ch' => keepEntries css3 rest ch')
        = keepEntries css3 (map EStr (tl (pieces raw)) ++ rest) ch).
      { intros ch. symmetry. apply keepEntries_clean.
        destruct (pieces raw); [constructor | now inversion Hclean]. }
      rewrite (keepOne_ext _ _ _ _ _ Hrest).
      set (first := hd EmptyString (pieces raw)).
      set (others := map EStr (tl (pieces raw)) ++ rest) in *.
      unfold keepOne, validate.
      replace ((done ++ [EStr raw]) ++ others)
        with (done ++ EStr raw :: others)
        by (rewrite <- app_assoc; reflexivity).
      cbn [ClassParam.checked ClassParam.numDup].
      assert (Hlen : forall v : Entry,
        S (List.length done) = List.length (done ++ [v])).
      { intros v. rewrite length_app. simpl. lia. }
      assert (Harr : forall v : Entry,
        done ++ v :: others = (done ++ [v]) ++ others).
      { intros v. rewrite <- app_assoc. reflexivity. }
      destruct css3.
      * cbn [bind negb]. 
        destruct (String.eqb (Text.removeNul first) EmptyString) eqn:Hc;
          cbn [negb].
        -- rewrite store_after, (Hlen (EStr (Text.removeNul first))), Harr.
           destruct (IH others (done ++ [EStr (Text.removeNul first)])
                       checked numDup Hsteps) as [r [after [Hrun Hagree]]].
           exists r, after. split; [exact Hrun |].
           apply agrees_keep. exact Hagree.
        -- destruct (inChecked (Text.removeNul first) checked).
           ++ rewrite store_after, (Hlen ENull), Harr.
              destruct (IH others (done ++ [ENull]) checked (S numDup) Hsteps)
                as [r [after [Hrun Hagree]]].
              exists r, after. split; [exact Hrun |].
              apply agrees_drop. exact Hagree.
           ++ rewrite store_after, (Hlen (EStr (Text.removeNul first))), Harr.
              destruct (IH others (done ++ [EStr (Text.removeNul first)])
                          (Text.removeNul first :: checked) numDup Hsteps)
                as [r [after [Hrun Hagree]]].
              exists r, after. split; [exact Hrun |].
              apply agrees_keep. exact Hagree.
      * destruct (Text.isCss2Name first) eqn:Hvalid; cbn [negb bind].
        2: { eexists; eexists; split; reflexivity. }
        destruct (String.eqb first EmptyString) eqn:Hc; cbn [negb].
        -- rewrite store_after, (Hlen (EStr first)), Harr.
           destruct (IH others (done ++ [EStr first]) checked numDup Hsteps)
             as [r [after [Hrun Hagree]]].
           exists r, after. split; [exact Hrun |].
           apply agrees_keep. exact Hagree.
        -- destruct (inChecked first checked).
           ++ rewrite store_after, (Hlen ENull), Harr.
              destruct (IH others (done ++ [ENull]) checked (S numDup) Hsteps)
                as [r [after [Hrun Hagree]]].
              exists r, after. split; [exact Hrun |].
              apply agrees_drop. exact Hagree.
           ++ rewrite store_after, (Hlen (EStr first)), Harr.
              destruct (IH others (done ++ [EStr first]) (first :: checked)
                          numDup Hsteps) as [r [after [Hrun Hagree]]].
              exists r, after. split; [exact Hrun |].
              apply agrees_keep. exact Hagree.
Qed.


(** [name in {}]: the property names an empty object inherits. *)
Definition inherited (name : string) : bool :=
  existsb (String.eqb name) objectPrototypeKeys.

(** The names that are kept of a list of pieces: the first occurrence of
    each, but none of the inherited property names. *)
Definition kept (ps : list string) : list string :=
  filter (fun c => negb (inherited c)) (Text.dedupe ps).

(** All the pieces of the strings of an array. *)
Definition allPieces (raws : list string) : list string :=
  flat_map pieces raws.

Lemma filter_filter {A : Type} (f g : A -> bool) (l : list A) :
  filter f (filter g l) = filter (fun x => (g x && f x)%bool) l.
Proof.
  induction l as [| x r IH]; simpl; [reflexivity |].
  destruct (g x); simpl; [destruct (f x) |]; rewrite IH; reflexivity.
Qed.

Lemma keepNames_app (css3 : bool) (a b : list string)
    (k : list string -> Outcome (list string)) :
  forall checked,
    keepNames css3 (a ++ b) checked k
    = keepNames css3 a checked (fun ch => keepNames css3 b ch k).
Proof.
  induction a as [| p r IH]; intros checked; simpl; [reflexivity |].
  destruct (String.eqb p EmptyString); [reflexivity |].
  apply keepOne_ext. exact IH.
Qed.

(** An entry is handled by its pieces, the empty one included. *)
Lemma keepEntries_pieces (css3 : bool) (raw : string) (rest : list Entry)
    (checked : list string) :
  keepEntries css3 (EStr raw :: rest) checked
  = keepNames css3 (pieces raw) checked (fun ch => keepEntries css3 rest ch).
Proof.
  cbn [keepEntries].
  destruct (String.eqb (Text.trim raw) EmptyString) eqn:E.
  - apply String.eqb_eq in E. unfold pieces. rewrite E. reflexivity.
  - assert (Hne : Text.trim raw <> EmptyString).
    { intros H. rewrite H in E. discriminate. }
    pose proof (split_trim_nonempty raw Hne) as Hall. fold (pieces raw) in Hall.
    pose proof (split_nonempty (Text.trim raw)) as Hsome.
    fold (pieces raw) in Hsome.
    destruct (pieces raw) as [| first others]; [contradiction |].
    cbn [hd tl keepNames].
    inversion Hall as [| ? ? Hfirst _]; subst.
    destruct (String.eqb first EmptyString) eqn:F; [| reflexivity].
    apply String.eqb_eq in F. contradiction.
Qed.

Lemma keepEntries_strings (css3 : bool) (raws : list string) :
  forall checked,
    keepEntries css3 (map EStr raws) checked
    = keepNames css3 (allPieces raws) checked (fun _ => Return []).
Proof.
  induction raws as [| raw r IH]; intros checked; [reflexivity |].
  cbn [map]. rewrite keepEntries_pieces. unfold allPieces. cbn [flat_map].
  rewrite keepNames_app. destruct (pieces raw) as [| p ps]; simpl.
  - apply IH.
  - destruct (String.eqb p EmptyString); [reflexivity |].
    apply keepOne_ext. intros ch.
    clear - IH. revert ch. induction ps as [| q qs IHq]; intros ch; simpl.
    + apply IH.
    + destruct (String.eqb q EmptyString); [reflexivity |].
      apply keepOne_ext. exact IHq.
Qed.

(** Pieces that pass the syntax check unchanged: the loop keeps the first
    occurrence of each name that is not among [checked]. *)
Lemma keepNames_kept (css3 : bool) (ps : list string) :
  (forall p, In p ps -> validate css3 p = Return p /\ p <> EmptyString) ->
  forall checked,
    keepNames css3 ps checked (fun _ => Return [])
    = Return (filter (fun c => negb (inChecked c checked)) (Text.dedupe ps)).
Proof.
  induction ps as [| p r IH]; intros Hvalid checked; [reflexivity |].
  destruct (Hvalid p (or_introl eq_refl)) as [Hp Hne].
  assert (Hr : forall q, In q r ->
                 validate css3 q = Return q /\ q <> EmptyString).
  { intros q Hq. apply Hvalid. right. exact Hq. }
  cbn [keepNames Text.dedupe].
  assert (E : String.eqb p EmptyString = false).
  { apply String.eqb_neq. exact Hne. }
  rewrite E. unfold keepOne. rewrite Hp. cbn [bind]. rewrite E.
  cbn [filter].
  destruct (inChecked p checked) eqn:Hin; cbn [negb].
  - rewrite (IH Hr). f_equal. rewrite filter_filter.
    apply filter_ext. intros x.
    destruct (String.eqb p x) eqn:Hx; [| reflexivity].
    apply String.eqb_eq in Hx. subst x. rewrite Hin. reflexivity.
  - rewrite (IH Hr). cbn [bind]. f_equal. f_equal. rewrite filter_filter.
    apply filter_ext. intros x. unfold inChecked. cbn [existsb].
    rewrite (String.eqb_sym x p).
    destruct (String.eqb p x); reflexivity.
Qed.

(** Without CSS 3, a piece that is no class name of CSS 2 ends the loop with
    a RangeError, wherever it stands. *)
Lemma keepNames_rejects (ps : list string) :
  forallb Text.isCss2Name ps = false ->
  forall checked k, keepNames false ps checked k = Throw RangeError.
Proof.
  induction ps as [| p r IH]; intros Hbad checked k; [discriminate |].
  cbn [keepNames forallb] in *.
  destruct (String.eqb p EmptyString); [reflexivity |].
  unfold keepOne, validate.
  destruct (Text.isCss2Name p); [| reflexivity].
  cbn [bind]. simpl in Hbad.
  destruct (String.eqb p EmptyString); [rewrite IH; auto |].
  destruct (inChecked p checked); rewrite IH; auto.
Qed.

Lemma isCss2Name_nonempty (p : string) :
  Text.isCss2Name p = true -> p <> EmptyString.
Proof. intros H E. subst p. discriminate. Qed.

(** The names that [checkClassArray] keeps of strings checked against
    CSS 2. *)
Lemma keepNames_css2 (ps : list string) :
  keepNames false ps [] (fun _ => Return [])
  = if forallb Text.isCss2Name ps then Return (kept ps) else Throw RangeError.
Proof.
  destruct (forallb Text.isCss2Name ps) eqn:Hall.
  - rewrite keepNames_kept; [reflexivity |].
    intros p Hp. rewrite forallb_forall in Hall. specialize (Hall p Hp).
    split; [| apply isCss2Name_nonempty; exact Hall].
    unfold validate. rewrite Hall. reflexivity.
  - apply keepNames_rejects. exact Hall.
Qed.


(** *** The number of turns *)

Lemma length_chars (s : string) : List.length (Text.chars s) = String.length s.
Proof.
  unfold Text.chars. induction s as [| a r IH]; simpl; [reflexivity |].
  rewrite IH. reflexivity.
Qed.

Lemma length_dropSpaces (l : list ascii) :
  (List.length (Text.dropSpaces l) <= List.length l)%nat.
Proof.
  induction l as [| c r IH]; simpl; [lia |].
  destruct (Text.isSpace c); simpl; lia.
Qed.

Lemma length_trim (s : string) :
  (String.length (Text.trim s) <= String.length s)%nat.
Proof.
  rewrite <- !length_chars. unfold Text.trim. rewrite chars_text, length_rev.
  etransitivity; [apply length_dropSpaces |].
  rewrite length_rev. apply length_dropSpaces.
Qed.

Lemma length_splitFrom (l piece : list ascii) (inRun : bool) :
  (List.length (Text.splitFrom l piece inRun) <= S (List.length l))%nat.
Proof.
  revert piece inRun.
  induction l as [| c r IH]; intros piece inRun; simpl; [lia |].
  destruct (Text.isSpace c).
  - destruct inRun.
    + specialize (IH piece true). lia.
    + simpl. specialize (IH [] true). lia.
  - specialize (IH (c :: piece) false). lia.
Qed.

(** An entry has at most one piece more than it has characters. *)
Lemma length_pieces (raw : string) :
  (List.length (pieces raw) <= S (String.length raw))%nat.
Proof.
  unfold pieces, Text.split.
  etransitivity; [apply length_splitFrom |].
  rewrite length_chars. pose proof (length_trim raw). lia.
Qed.

(** A bound on the turns of the loop that is read off the array as it is
    passed: one turn per entry and one per character. *)
Definition extent (e : Entry) : nat :=
  match e with
  | EStr raw => S (String.length raw)
  | _ => 1
  end.

Definition size (l : list Entry) : nat := list_sum (map extent l).

Lemma steps_le_size (l : list Entry) : (steps l <= size l)%nat.
Proof.
  unfold steps, size. induction l as [| e r IH]; simpl; [lia |].
  assert (turns e <= extent e)%nat.
  { destruct e as [raw | |]; simpl; try lia. apply length_pieces. }
  lia.
Qed.

Lemma size_strings (raws : list string) :
  size (map EStr raws)
  = list_sum (map (fun raw => S (String.length raw)) raws).
Proof.
  unfold size. rewrite map_map. reflexivity.
Qed.

Lemma allPieces_clean (ps : list string) :
  Forall clean ps -> allPieces ps = ps.
Proof.
  unfold allPieces. induction 1 as [| p r Hp _ IH]; simpl; [reflexivity |].
  rewrite (pieces_clean _ Hp), IH. reflexivity.
Qed.

(** The check that lets a piece through unchanged: a class name of CSS 2,
    or with CSS 3 a piece that is not empty and holds no NUL character. *)
Definition accepted (css3 : bool) (p : string) : bool :=
  if css3 then
    (negb (String.eqb p EmptyString) && String.eqb (Text.removeNul p) p)%bool
  else Text.isCss2Name p.

Lemma accepted_validate (css3 : bool) (p : string) :
  accepted css3 p = true -> validate css3 p = Return p /\ p <> EmptyString.
Proof.
  unfold accepted, validate. destruct css3.
  - intros H. apply andb_true_iff in H. destruct H as [Hne Hnul].
    apply String.eqb_eq in Hnul. rewrite Hnul. split; [reflexivity |].
    intros E. subst p. discriminate.
  - intros H. rewrite H. split; [reflexivity |].
    apply isCss2Name_nonempty. exact H.
Qed.

(** The run of [checkClassArray] over an array of strings. *)
Lemma checkClassArray_strings (css3 : bool) (fuel : nat) (raws : list string) :
  (steps (map EStr raws) <= fuel)%nat ->
  exists r after,
    checkClassArray fuel css3 true (map EStr raws) = Some (r, after)
    /\ match keepNames css3 (allPieces raws) [] (fun _ => Return []) with
       | Return names => r = Return names /\ strings after = names
       | Throw e => r = Throw e
       end.
Proof.
  intros Hsteps.
  destruct (checkLoop_keepEntries css3 fuel (map EStr raws) [] [] 0 Hsteps)
    as [r [after [Hrun Hagree]]].
  cbn [List.length app] in Hrun. unfold checkClassArray. rewrite Hrun.
  rewrite keepEntries_strings in Hagree. unfold agrees in Hagree.
  destruct (keepNames css3 (allPieces raws) [] (fun _ => Return []))
    as [names | e].
  - destruct Hagree as [st [Hr [Ha Hs]]]. subst r after.
    eexists. eexists. split; [reflexivity |].
    split; [f_equal |]; exact Hs.
  - subst r. eexists. eexists. split; reflexivity.
Qed.

(** The run of [checkClassParameter] on a class string. *)
Lemma checkClassParameter_string (css3 : bool) (fuel : nat) (s : string) :
  (String.length s < fuel)%nat ->
  checkClassParameter fuel css3 (CString s)
  = Some (keepNames css3 (pieces s) [] (fun _ => Return []), CString s).
Proof.
  intros Hfuel. unfold checkClassParameter.
  destruct (String.eqb (Text.trim s) EmptyString) eqn:Hempty.
  { apply String.eqb_eq in Hempty. unfold pieces. rewrite Hempty.
    reflexivity. }
  pose proof (split_pieces_clean (Text.trim s)) as Hclean.
  fold (pieces s) in Hclean |- *.
  destruct (checkClassArray_strings css3 fuel (pieces s))
    as [r [after [Hrun Hres]]].
  { replace (map EStr (pieces s)) with (map EStr (pieces s) ++ [])
      by apply app_nil_r.
    rewrite steps_clean by exact Hclean.
    pose proof (length_pieces s). unfold steps. simpl. lia. }
  rewrite Hrun. rewrite (allPieces_clean _ Hclean) in Hres.
  destruct (keepNames css3 (pieces s) [] (fun _ => Return []))
    as [names | e].
  - destruct Hres as [Hr _]. subst r. reflexivity.
  - subst r. reflexivity.
Qed.

Lemma keepNames_accepted (css3 : bool) (ps : list string) :
  forallb (accepted css3) ps = true ->
  keepNames css3 ps [] (fun _ => Return []) = Return (kept ps).
Proof.
  intros Hok. rewrite keepNames_kept; [reflexivity |].
  intros p Hp. apply accepted_validate.
  rewrite forallb_forall in Hok. apply Hok. exact Hp.
Qed.

(** X8.  [checkClassParameter] on a class string whose pieces all pass the
    syntax check (class names of CSS 2, or with CSS 3 pieces that are not
    empty and hold no NUL): the call returns the pieces of the trimmed
    string in their order, each name once (its first occurrence), without
    the names that an empty object inherits ([constructor], [toString] and
    the like, for which [entry in checked] holds from the start).  The
    result is reached within one turn more than the string has
    characters. *)
Theorem checkClassParameter_keeps_first_occurrences
    (css3 : bool) (fuel : nat) (s : string) :
  (String.length s < fuel)%nat ->
  forallb (accepted css3) (pieces s) = true ->
  checkClassParameter fuel css3 (CString s)
  = Some (Return (kept (pieces s)), CString s).
Proof.
  intros Hfuel Hok.
  rewrite (checkClassParameter_string css3 fuel s Hfuel).
  rewrite (keepNames_accepted css3 (pieces s) Hok). reflexivity.
Qed.

Lemma checkClassParameter_keeps_first_occurrences_witness :
  checkClassParameter 20 false (CString "  menu item  menu ")
  = Some (Return ["menu"; "item"]%string, CString "  menu item  menu ").
Proof.
  apply (checkClassParameter_keeps_first_occurrences false 20
           "  menu item  menu ").
  - simpl. lia.
  - reflexivity.
Defined.

(** X9.  [checkClassParameter] on an Array of strings whose pieces all pass
    the syntax check: the names returned are those of X8 over the pieces of
    all entries, and the caller's Array is rewritten in place; afterwards
    its strings are exactly the names returned (an entry with white space
    was split into entries of its own, a repeated name left [null]). *)
Theorem checkClassParameter_rewrites_the_array
    (css3 : bool) (fuel : nat) (raws : list string) :
  raws <> [] ->
  (size (map EStr raws) <= fuel)%nat ->
  forallb (accepted css3) (allPieces raws) = true ->
  exists after,
    checkClassParameter fuel css3 (CArray (map EStr raws))
    = Some (Return (kept (allPieces raws)), CArray after)
    /\ strings after = kept (allPieces raws).
Proof.
  intros Hsome Hfuel Hok. unfold checkClassParameter.
  destruct raws as [| raw rest]; [contradiction |].
  destruct (checkClassArray_strings css3 fuel (raw :: rest))
    as [r [after [Hrun Hres]]].
  { etransitivity; [apply steps_le_size | exact Hfuel]. }
  cbn [map] in Hrun |- *. rewrite Hrun.
  rewrite (keepNames_accepted css3 _ Hok) in Hres.
  destruct Hres as [Hr Hs]. subst r. exists after. split; [reflexivity |].
  exact Hs.
Qed.

Lemma checkClassParameter_rewrites_the_array_witness :
  exists after,
    checkClassParameter 30 true
      (CArray [EStr " x y "; EStr "x"; EStr "z y"])
    = Some (Return ["x"; "y"; "z"]%string, CArray after)
    /\ strings after = ["x"; "y"; "z"]%string.
Proof.
  apply (checkClassParameter_rewrites_the_array true 30
           [" x y "; "x"; "z y"]%string).
  - discriminate.
  - vm_compute. lia.
  - reflexivity.
Defined.

(** X10.  The loop of [checkClassArray] ends although the Array grows while
    it runs: whatever the entries are, a result (returned or thrown) is
    reached within one turn per entry and one per character of the strings
    passed. *)
Theorem checkClassArray_terminates (css3 : bool) (fuel : nat)
    (arr : list Entry) :
  (size arr <= fuel)%nat ->
  exists r after, checkClassArray fuel css3 true arr = Some (r, after).
Proof.
  intros Hfuel.
  assert (Hsteps : (steps arr <= fuel)%nat).
  { etransitivity; [apply steps_le_size | exact Hfuel]. }
  destruct (checkLoop_keepEntries css3 fuel arr [] [] 0 Hsteps)
    as [r [after [Hrun _]]].
  cbn [List.length app] in Hrun. unfold checkClassArray. rewrite Hrun.
  destruct r; eexists; eexists; reflexivity.
Qed.

Lemma checkClassArray_terminates_witness :
  exists r after,
    checkClassArray 12 false true [EStr "a b c"; ENull; EStr "d"]
    = Some (r, after).
Proof.
  apply (checkClassArray_terminates false 12 [EStr "a b c"; ENull; EStr "d"]).
  vm_compute. lia.
Defined.

(** Without CSS 3 a class string with a piece that is no class name of
    CSS 2 is refused. *)
Lemma checkClassParameter_refuses (fuel : nat) (s : string) :
  (String.length s < fuel)%nat ->
  forallb Text.isCss2Name (pieces s) = false ->
  checkClassParameter fuel false (CString s)
  = Some (Throw RangeError, CString s).
Proof.
  intros Hfuel Hbad.
  rewrite (checkClassParameter_string false fuel s Hfuel).
  rewrite keepNames_rejects by exact Hbad. reflexivity.
Qed.

End ClassParamFacts.

(* ================================================================= *)
(** ** src/class/ContainsCSSClass.js: the search *)

Module ClassSearchFacts.
Import JS ClassParam ContainsCSSClass ClassParamFacts.

(** The value of the [class] attribute, empty when the attribute is
    absent. *)
Definition classOf (e : Element) : string :=
  match classAttr e with Some v => v | None => EmptyString end.

(** [c] is one of the tokens of the [class] attribute. *)
Definition hasToken (e : Element) (c : string) : bool :=
  existsb (String.eqb c) (Text.tokens (classOf e)).

Lemma allMatchOneParam_byClSearch (e : Element) (l : list string) :
  allMatchOneParam l (byClSearch e) = Return (forallb (hasToken e) l).
Proof.
  induction l as [| c r IH]; [reflexivity |].
  cbn [allMatchOneParam forallb]. unfold byClSearch at 1. cbn [bind].
  fold (classOf e). fold (hasToken e c).
  destruct (hasToken e c); [exact IH | reflexivity].
Qed.

(** [style.backgroundSize] is never the text "string", so that
    [supportsCSS3] answers false. *)
Lemma supportsCSS3_false (e : Element) (v : Prim) :
  style_backgroundSize e = Some v -> v <> PStr "string" ->
  supportsCSS3 e = Return false.
Proof.
  intros Hstyle Hv. unfold supportsCSS3. rewrite Hstyle.
  destruct v as [| | b | n | t]; try reflexivity.
  destruct (String.eqb t "string") eqn:E; [| reflexivity].
  apply String.eqb_eq in E. subst t. contradiction.
Qed.

Lemma isElement_styled (Element_defined : bool) (e : Element) (v : Prim) :
  style_backgroundSize e = Some v ->
  isElement Element_defined (VElement e) = true.
Proof.
  intros Hstyle. unfold isElement. rewrite Hstyle.
  destruct Element_defined; reflexivity.
Qed.

(** X11.  [containsCSSClass] on an Element with [classList], for a class
    string of CSS 2 names: the call returns true exactly when every name
    kept by [checkClassParameter] is a token of the Element's [class]
    attribute, whatever [singleMatch] is.  ([style.backgroundSize] is any
    value but the text "string", as in every browser.) *)
Theorem containsCSSClass_finds_every_token
    (RegExp : string -> string -> option (string -> bool))
    (Element_defined : bool) (fuel : nat) (e : Element) (v : Prim)
    (s : string) (singleMatch : Prim) :
  classListSupported e = true ->
  style_backgroundSize e = Some v -> v <> PStr "string" ->
  (String.length s < fuel)%nat ->
  forallb Text.isCss2Name (pieces s) = true ->
  containsCSSClass RegExp Element_defined fuel (VElement e) (CString s)
    singleMatch
  = Some (Return (forallb (hasToken e) (kept (pieces s)))).
Proof.
  intros Hlist Hstyle Hv Hfuel Hok. unfold containsCSSClass.
  rewrite (isElement_styled _ _ _ Hstyle). cbn [negb].
  rewrite (supportsCSS3_false _ _ Hstyle Hv).
  rewrite (checkClassParameter_string false fuel s Hfuel).
  rewrite (keepNames_accepted false (pieces s) Hok).
  unfold tryMethods, byClassList. rewrite Hlist.
  rewrite ContainsCSSClassFacts.checkClassEntries_all.
  rewrite allMatchOneParam_byClSearch. reflexivity.
Qed.


Lemma containsCSSClass_finds_every_token_witness :
  containsCSSClass Text.literalRegExp true 20 (VElement Cases.menuItem)
    (CString " item menu item ") PUndefined
  = Some (Return true).
Proof.
  apply (containsCSSClass_finds_every_token Text.literalRegExp true 20
           Cases.menuItem (PStr EmptyString) " item menu item " PUndefined).
  - reflexivity.
  - reflexivity.
  - discriminate.
  - simpl. lia.
  - reflexivity.
Defined.

(** X12.  [supportsCSS3] compares [style.backgroundSize] with the text
    "string" and so answers false in every browser; hence
    [containsCSSClass] throws a RangeError for a class string with a piece
    that is no class name of CSS 1 or 2 (a colon, a digit in front, ...),
    whichever search method the Element offers. *)
Theorem containsCSSClass_refuses_names_beyond_css2
    (RegExp : string -> string -> option (string -> bool))
    (Element_defined : bool) (fuel : nat) (e : Element) (v : Prim)
    (s : string) (singleMatch : Prim) :
  style_backgroundSize e = Some v -> v <> PStr "string" ->
  (String.length s < fuel)%nat ->
  forallb Text.isCss2Name (pieces s) = false ->
  containsCSSClass RegExp Element_defined fuel (VElement e) (CString s)
    singleMatch
  = Some (Throw RangeError).
Proof.
  intros Hstyle Hv Hfuel Hbad. unfold containsCSSClass.
  rewrite (isElement_styled _ _ _ Hstyle). cbn [negb].
  rewrite (supportsCSS3_false _ _ Hstyle Hv).
  rewrite (checkClassParameter_refuses fuel s Hfuel Hbad). reflexivity.
Qed.

Lemma containsCSSClass_refuses_names_beyond_css2_witness :
  containsCSSClass Text.literalRegExp true 20 (VElement Cases.menuItem)
    (CString "menu md:flex") PUndefined
  = Some (Throw RangeError).
Proof.
  apply (containsCSSClass_refuses_names_beyond_css2 Text.literalRegExp true 20
           Cases.menuItem (PStr EmptyString) "menu md:flex" PUndefined).
  - reflexivity.
  - discriminate.
  - simpl. lia.
  - reflexivity.
Defined.

End ClassSearchFacts.

(* ================================================================= *)
(** ** Strings: the tokens of a [class] attribute *)

Module TokenFacts.
Import Text TextFacts.

(** A character on which the white space of the scripts ([\s], U+FEFF,
    U+00A0) and the ASCII white space of the [class] attribute agree: any
    character but the vertical tab and the no-break space. *)
Definition plainChar (x : ascii) : bool := Bool.eqb (isSpace x) (isAsciiSpace x).

Definition plainList (l : list ascii) : Prop := forallb plainChar l = true.

(** A string without vertical tab and no-break space. *)
Definition plain (s : string) : Prop := plainList (chars s).

(** What a token is: not empty and without ASCII white space. *)
Definition tokenish (t : string) : Prop :=
  t <> EmptyString /\ existsb isAsciiSpace (chars t) = false.

Lemma asciiSpace_isSpace (x : ascii) :
  isAsciiSpace x = true -> isSpace x = true.
Proof.
  unfold isAsciiSpace, isSpace. set (k := code x).
  rewrite !orb_true_iff, andb_true_iff, !Nat.eqb_eq, !Nat.leb_le. lia.
Qed.

Lemma plainChar_space (x : ascii) :
  plainChar x = true -> isSpace x = true -> isAsciiSpace x = true.
Proof.
  unfold plainChar. intros H Hs. rewrite Hs in H.
  destruct (isAsciiSpace x); [reflexivity | discriminate].
Qed.

Lemma clean_plainChar (x : ascii) : isSpace x = false -> plainChar x = true.
Proof.
  unfold plainChar. intros H. rewrite H.
  destruct (isAsciiSpace x) eqn:E; [| reflexivity].
  apply asciiSpace_isSpace in E. congruence.
Qed.

Lemma plainList_app (a b : list ascii) :
  plainList (a ++ b) <-> plainList a /\ plainList b.
Proof. unfold plainList. rewrite forallb_app. apply andb_true_iff. Qed.

Lemma plainList_incl (a b : list ascii) :
  incl a b -> plainList b -> plainList a.
Proof.
  unfold plainList. rewrite !forallb_forall. intros Hincl H x Hx.
  apply H, Hincl, Hx.
Qed.

Lemma plainList_rev (a : list ascii) : plainList (rev a) <-> plainList a.
Proof.
  split; apply plainList_incl; intros x Hx.
  - apply (proj1 (in_rev a x)). exact Hx.
  - apply (proj2 (in_rev a x)). exact Hx.
Qed.

Lemma chars_append (a b : string) : chars (a ++ b) = chars a ++ chars b.
Proof.
  unfold chars. induction a as [| c r IH]; simpl; [reflexivity |].
  rewrite IH. reflexivity.
Qed.

(** *** Tokens and the cleanup of the scripts *)

Lemma tokensFrom_dropSpaces (l : list ascii) :
  plainList l -> tokensFrom (dropSpaces l) [] = tokensFrom l [].
Proof.
  induction l as [| x r IH]; intros Hp; [reflexivity |].
  unfold plainList in Hp. cbn [forallb] in Hp.
  apply andb_true_iff in Hp. destruct Hp as [Hx Hr].
  cbn [dropSpaces]. destruct (isSpace x) eqn:Hs; [| reflexivity].
  cbn [tokensFrom]. rewrite (plainChar_space _ Hx Hs). apply IH, Hr.
Qed.

Lemma tokensFrom_trailing (l : list ascii) (x : ascii) :
  isAsciiSpace x = true ->
  forall piece, tokensFrom (l ++ [x]) piece = tokensFrom l piece.
Proof.
  intros Hx. induction l as [| y r IH]; intros piece.
  - cbn [app tokensFrom]. rewrite Hx. reflexivity.
  - cbn [app tokensFrom]. destruct (isAsciiSpace y); rewrite IH; reflexivity.
Qed.

Lemma tokensFrom_trailing_run (run l : list ascii) :
  forallb isAsciiSpace run = true ->
  forall piece, tokensFrom (l ++ run) piece = tokensFrom l piece.
Proof.
  revert l. induction run as [| x r IH]; intros l Hrun piece.
  - rewrite app_nil_r. reflexivity.
  - cbn [forallb] in Hrun. apply andb_true_iff in Hrun.
    destruct Hrun as [Hx Hr].
    replace (l ++ x :: r) with ((l ++ [x]) ++ r)
      by (rewrite <- app_assoc; reflexivity).
    rewrite (IH _ Hr). apply tokensFrom_trailing, Hx.
Qed.

Lemma dropSpaces_split (l : list ascii) :
  exists pre, l = pre ++ dropSpaces l /\ forallb isSpace pre = true.
Proof.
  induction l as [| c r [pre [IH Hpre]]]; simpl.
  - exists []. split; reflexivity.
  - destruct (isSpace c) eqn:Hc.
    + exists (c :: pre). simpl. rewrite <- IH, Hc, Hpre. split; reflexivity.
    + exists []. split; reflexivity.
Qed.

Lemma spaces_ascii (pre : list ascii) :
  plainList pre -> forallb isSpace pre = true ->
  forallb isAsciiSpace pre = true.
Proof.
  unfold plainList. rewrite !forallb_forall. intros Hp Hs x Hx.
  apply plainChar_space; auto.
Qed.

(** Trimming keeps the tokens. *)
Lemma tokens_trim (s : string) : plain s -> tokens (trim s) = tokens s.
Proof.
  unfold plain, tokens, trim. intros Hp. rewrite chars_text.
  set (a := dropSpaces (chars s)).
  destruct (dropSpaces_split (chars s)) as [pre0 [Hsplit0 _]]. fold a in Hsplit0.
  assert (Ha : plainList a).
  { rewrite Hsplit0 in Hp. apply plainList_app in Hp. tauto. }
  destruct (dropSpaces_split (rev a)) as [pre [Hsplit Hpre]].
  set (b := dropSpaces (rev a)) in *.
  assert (Hrev : a = rev b ++ rev pre).
  { rewrite <- (rev_involutive a), Hsplit, rev_app_distr. reflexivity. }
  assert (Hpre' : forallb isAsciiSpace (rev pre) = true).
  { apply spaces_ascii.
    - rewrite Hrev in Ha. apply plainList_app in Ha. tauto.
    - rewrite forallb_forall in *. intros x Hx. apply Hpre, in_rev, Hx. }
  rewrite <- (tokensFrom_trailing_run _ (rev b) Hpre'), <- Hrev.
  apply tokensFrom_dropSpaces, Hp.
Qed.



Lemma dropSpaces_incl (l : list ascii) : incl (dropSpaces l) l.
Proof.
  destruct (dropSpaces_split l) as [pre [H _]]. intros x Hx.
  rewrite H. apply in_or_app. right. exact Hx.
Qed.

Lemma plain_trim (s : string) : plain s -> plain (trim s).
Proof.
  unfold plain, trim. rewrite chars_text. intros Hp.
  apply plainList_rev. eapply plainList_incl; [apply dropSpaces_incl |].
  apply plainList_rev. eapply plainList_incl; [apply dropSpaces_incl |].
  exact Hp.
Qed.



(** *** Tokens and the text a DOMTokenList writes back *)

Lemma tokensFrom_word (w rest : list ascii) :
  existsb isAsciiSpace w = false ->
  forall piece, tokensFrom (w ++ rest) piece = tokensFrom rest (rev w ++ piece).
Proof.
  induction w as [| x r IH]; intros Hw piece; [reflexivity |].
  cbn [existsb] in Hw. apply orb_false_iff in Hw. destruct Hw as [Hx Hr].
  cbn [app tokensFrom]. rewrite Hx, (IH Hr). cbn [rev].
  rewrite <- app_assoc. reflexivity.
Qed.

Lemma tokenish_chars (t : string) : tokenish t -> chars t <> [].
Proof.
  intros [Hne _] E. apply Hne. rewrite <- (text_chars t), E. reflexivity.
Qed.

Lemma tokens_word (t : string) : tokenish t -> tokens t = [t].
Proof.
  intros Ht. pose proof (tokenish_chars t Ht) as Hne.
  destruct Ht as [_ Hw]. unfold tokens.
  rewrite <- (app_nil_r (chars t)), (tokensFrom_word _ _ Hw).
  cbn [tokensFrom]. rewrite app_nil_r.
  destruct (rev (chars t)) as [| x y] eqn:E.
  - apply (f_equal (@rev ascii)) in E. rewrite rev_involutive in E.
    contradiction.
  - rewrite <- E, rev_involutive, text_chars. reflexivity.
Qed.









Lemma dedupe_incl (l : list string) : incl (dedupe l) l.
Proof.
  induction l as [| x r IH]; [apply incl_refl |].
  cbn [dedupe]. intros y [Hy | Hy]; [left; exact Hy |].
  apply filter_In in Hy. right. apply IH. tauto.
Qed.


End TokenFacts.

(* ================================================================= *)
(** ** src/class/AddCSSClass.js: adding through [classList] *)

Module ClassAddFacts.
Import JS ClassParam AddCSSClass TextFacts TokenFacts ClassParamFacts.


(** A class name as the loop of [addEachClass] meets it. *)
Definition name (c : string) : Prop := c <> EmptyString /\ clean c.





























(** *** A list of Elements *)

















End ClassAddFacts.

(* ================================================================= *)
(** ** src/unnamed/part_001 and part_002 *)

Module AncestryFacts.
Import JS Ancestry.

(** [a] is [n] or lies above it, along parents. *)
Inductive upFrom (n : Node) : Node -> Prop :=
| upFrom_self : upFrom n n
| upFrom_parent (p a : Node) :
    parentNode n = Some p -> upFrom p a -> upFrom n a.

(** [a] is [n] or lies above it, along parents and, from a ShadowRoot
    without a parent, its host. *)
Inductive upThrough (n : Node) : Node -> Prop :=
| upThrough_self : upThrough n n
| upThrough_parent (p a : Node) :
    parentNode n = Some p -> upThrough p a -> upThrough n a
| upThrough_host (x a : Node) :
    parentNode n = None -> isShadowRoot n = true -> host n = Some x ->
    upThrough x a -> upThrough n a.

Lemma Node_up (P : Node -> Prop) :
  (forall n,
     (forall p, parentNode n = Some p -> P p) ->
     (forall x, host n = Some x -> P x) ->
     P n) ->
  forall n, P n.
Proof.
  intros step.
  fix IH 1. intros [id type html shadow parent shadowHost owner].
  apply step; cbn [parentNode host].
  - intros p Hp. destruct parent as [q |]; [| discriminate].
    injection Hp as <-. apply IH.
  - intros x Hx. destruct shadowHost as [y |]; [| discriminate].
    injection Hx as <-. apply IH.
Qed.

Lemma climb_parent (n p : Node) :
  parentNode n = Some p -> climb n = climb p.
Proof.
  destruct n as [id type html shadow parent shadowHost owner].
  cbn [parentNode]. intros ->. reflexivity.
Qed.

Lemma climb_top (n : Node) : parentNode n = None -> climb n = n.
Proof.
  destruct n as [id type html shadow parent shadowHost owner].
  cbn [parentNode]. intros ->. reflexivity.
Qed.

(** The loop ends on a node without a parent that lies above the start. *)
Lemma climb_spec (n : Node) :
  parentNode (climb n) = None /\ upFrom n (climb n).
Proof.
  induction n as [n IHp _] using Node_up.
  destruct (parentNode n) as [p |] eqn:Hp.
  - rewrite (climb_parent _ _ Hp). destruct (IHp p eq_refl) as [Htop Hup].
    split; [exact Htop | econstructor; eassumption].
  - rewrite (climb_top _ Hp). split; [exact Hp | constructor].
Qed.

Lemma climb_idempotent (n : Node) : climb (climb n) = climb n.
Proof. apply climb_top, climb_spec. Qed.

Lemma upFrom_upThrough (n a : Node) : upFrom n a -> upThrough n a.
Proof.
  induction 1 as [| n p a Hp _ IH]; [constructor |].
  eapply upThrough_parent; eassumption.
Qed.

Lemma upThrough_trans (n a b : Node) :
  upThrough n a -> upThrough a b -> upThrough n b.
Proof.
  induction 1 as [| n p a Hp _ IH | n x a Hp Hs Hx _ IH]; intros Hab;
    [exact Hab | |].
  - eapply upThrough_parent; [eassumption | apply IH, Hab].
  - eapply upThrough_host; try eassumption. apply IH, Hab.
Qed.


(** *** part_002: getRootNodePolyfill *)

Section Root.
Import RootNode.
Variable h : Host.
Variable composed : bool.

Lemma height_positive (n : Node) : (1 <= height n)%nat.
Proof. destruct n. simpl. lia. Qed.

Lemma height_parent (n p : Node) :
  parentNode n = Some p -> (height p < height n)%nat.
Proof.
  destruct n as [id type html shadow parent shadowHost owner].
  cbn [parentNode]. intros ->. simpl. lia.
Qed.

Lemma height_host (n x : Node) :
  host n = Some x -> (height x < height n)%nat.
Proof.
  destruct n as [id type html shadow parent shadowHost owner].
  cbn [host]. intros ->. simpl. lia.
Qed.

Lemma height_climb (n : Node) : (height (climb n) <= height n)%nat.
Proof.
  induction n as [n IHp _] using Node_up.
  destruct (parentNode n) as [p |] eqn:Hp.
  - rewrite (climb_parent _ _ Hp).
    pose proof (IHp p eq_refl). pose proof (height_parent _ _ Hp). lia.
  - rewrite (climb_top _ Hp). lia.
Qed.

(** The shadow-including root, by the root. *)
Lemma shadowIncludingRoot_climb (n : Node) :
  shadowIncludingRoot n
  = if isShadowRoot (climb n) then
      match host (climb n) with
      | Some x => shadowIncludingRoot x
      | None => climb n
      end
    else climb n.
Proof.
  induction n as [n IHp _] using Node_up.
  destruct n as [id type html shadow [p |] shadowHost owner].
  - cbn [shadowIncludingRoot climb]. destruct shadow; apply (IHp p); reflexivity.
  - cbn [shadowIncludingRoot climb isShadowRoot host].
    destruct shadow; [destruct shadowHost |]; reflexivity.
Qed.

(** One turn of [upwardsTraversal]: the test it makes on the node the loop
    ends on. *)
Definition crosses (t : Node) : bool :=
  (ShadowRoot_defined h && isShadowRoot t && composed && isSome (host t))%bool.

(** What [upwardsTraversal] returns. *)
Record found (n r : Node) : Prop := mkFound {
  found_top : parentNode r = None;
  found_above : upThrough n r;
  found_root : crosses (climb n) = false -> r = climb n;
  found_last : crosses r = false
}.

Lemma upwardsTraversal_found (fuel : nat) :
  forall n, (height n <= fuel)%nat ->
    exists r, upwardsTraversal fuel h composed n = Some r /\ found n r.
Proof.
  induction fuel as [| fuel IH]; intros n Hfuel.
  - pose proof (height_positive n). lia.
  - cbn [upwardsTraversal]. fold (crosses (climb n)).
    destruct (climb_spec n) as [Htop Hup].
    destruct (crosses (climb n)) eqn:Hcross.
    + pose proof Hcross as Hparts. unfold crosses in Hparts.
      rewrite !andb_true_iff in Hparts.
      destruct Hparts as [[[_ Hshadow] _] Hhost].
      destruct (host (climb n)) as [x |] eqn:Hx; [| discriminate].
      destruct (IH x) as [r [Hrun Hfound]].
      { pose proof (height_host _ _ Hx). pose proof (height_climb n). lia. }
      exists r. split; [exact Hrun |]. destruct Hfound. constructor.
      * assumption.
      * eapply upThrough_trans; [apply upFrom_upThrough, Hup |].
        eapply upThrough_host; eassumption.
      * intros H. congruence.
      * assumption.
    + exists (climb n). split; [reflexivity |]. constructor.
      * exact Htop.
      * apply upFrom_upThrough, Hup.
      * reflexivity.
      * exact Hcross.
Qed.

(** A node the traversal ends on is where a further traversal ends. *)
Lemma upwardsTraversal_fixed (fuel : nat) (r : Node) :
  parentNode r = None -> crosses r = false ->
  upwardsTraversal (S fuel) h composed r = Some r.
Proof.
  intros Htop Hcross. cbn [upwardsTraversal]. rewrite (climb_top _ Htop).
  fold (crosses r). rewrite Hcross. reflexivity.
Qed.

(** With [ShadowRoot] defined the traversal ends where the [getRootNode] of
    the DOM Standard does. *)
Lemma upwardsTraversal_native (fuel : nat) :
  ShadowRoot_defined h = true ->
  forall n, (height n <= fuel)%nat ->
    upwardsTraversal fuel h composed n = Some (nativeGetRootNode composed n).
Proof.
  intros Hdefined. induction fuel as [| fuel IH]; intros n Hfuel.
  - pose proof (height_positive n). lia.
  - cbn [upwardsTraversal]. unfold nativeGetRootNode.
    rewrite Hdefined. cbn [andb].
    destruct composed.
    + rewrite andb_true_r, shadowIncludingRoot_climb.
      destruct (isShadowRoot (climb n)); cbn [andb]; [| reflexivity].
      destruct (host (climb n)) as [x |] eqn:Hx; cbn [isSome];
        [| reflexivity].
      apply IH. pose proof (height_host _ _ Hx).
      pose proof (height_climb n). lia.
    + rewrite andb_false_r. reflexivity.
Qed.

End Root.


Lemma isNode_of_node (h : Host) (n : Node) : isNode h (VNode n) = true.
Proof. unfold isNode. destruct (Node_defined h); reflexivity. Qed.

(** X16.  [getRootNodePolyfill] on a node of a host without a [getRootNode]
    of its own, with valid options: the call returns a node without a
    parent that is the node itself or lies above it (along parents and the
    hosts of ShadowRoots).  Without [composed], or where [ShadowRoot] is
    undefined, it is the node on which the chain of parents ends; with
    [composed] it is no ShadowRoot that has a host.  The node returned is
    its own root: the call on it returns it again. *)
Theorem getRootNodePolyfill_reaches_the_top
    (fuel : nat) (h : Host) (n : Node) (options : RootNode.OptionsArg)
    (composed : bool) (overridden : Prim) :
  getRootNode_native h = false ->
  RootNode.checkOptionsParam options = Return composed ->
  (RootNode.height n < fuel)%nat ->
  exists r,
    RootNode.getRootNodePolyfill fuel h (VNode n) options overridden
    = Some (Return (VNode r))
    /\ parentNode r = None
    /\ upThrough n r
    /\ (composed = false \/ ShadowRoot_defined h = false -> r = climb n)
    /\ (composed = true -> ShadowRoot_defined h = true ->
        isShadowRoot r = true -> host r = None)
    /\ RootNode.getRootNodePolyfill fuel h (VNode r) options overridden
       = Some (Return (VNode r)).
Proof.
  intros Hnative Hoptions Hfuel.
  destruct (upwardsTraversal_found h composed fuel n) as [r [Hrun Hfound]];
    [lia |].
  destruct Hfound as [Htop Habove Hroot Hlast].
  assert (Hcall : forall m,
    RootNode.getRootNodePolyfill fuel h (VNode m) options overridden
    = match RootNode.upwardsTraversal fuel h composed m with
      | Some x => Some (Return (VNode x))
      | None => None
      end).
  { intros m. unfold RootNode.getRootNodePolyfill, RootNode.tryMethods.
    rewrite isNode_of_node, Hoptions, Hnative. cbn [negb].
    destruct (truthy overridden); reflexivity. }
  exists r. rewrite !Hcall, Hrun.
  split; [reflexivity |]. split; [exact Htop |]. split; [exact Habove |].
  split; [| split].
  - intros Hcase. apply Hroot. unfold crosses.
    destruct Hcase as [-> | ->].
    + rewrite andb_false_r. reflexivity.
    + reflexivity.
  - intros -> Hdefined Hshadow. unfold crosses in Hlast.
    rewrite Hdefined, Hshadow in Hlast. cbn [andb] in Hlast.
    destruct (host r); [discriminate | reflexivity].
  - destruct fuel as [| fuel']; [lia |].
    rewrite (upwardsTraversal_fixed h composed fuel' r Htop Hlast).
    reflexivity.
Qed.

Lemma getRootNodePolyfill_reaches_the_top_witness :
  exists r,
    RootNode.getRootNodePolyfill 9 Cases.legacyBrowser
      (VNode Cases.slottedText) (RootNode.TheOptions (PBool true)) PUndefined
    = Some (Return (VNode r))
    /\ parentNode r = None
    /\ upThrough Cases.slottedText r
    /\ (true = false \/ ShadowRoot_defined Cases.legacyBrowser = false ->
        r = climb Cases.slottedText)
    /\ (true = true -> ShadowRoot_defined Cases.legacyBrowser = true ->
        isShadowRoot r = true -> host r = None)
    /\ RootNode.getRootNodePolyfill 9 Cases.legacyBrowser (VNode r)
         (RootNode.TheOptions (PBool true)) PUndefined
       = Some (Return (VNode r)).
Proof.
  apply (getRootNodePolyfill_reaches_the_top 9 Cases.legacyBrowser
           Cases.slottedText (RootNode.TheOptions (PBool true)) true
           PUndefined).
  - reflexivity.
  - reflexivity.
  - vm_compute. lia.
Defined.

(** X17.  Where [ShadowRoot] is defined, the traversal of the script ends
    on the node that the [getRootNode] of the DOM Standard returns (the
    root, or with [composed] the shadow-including root): the result of
    [getRootNodePolyfill] is the same whether the call is made with
    [overridden] or without it, in a host with a [getRootNode] of its own
    or in one without. *)
Theorem getRootNodePolyfill_traversal_equals_native
    (fuel : nat) (h : Host) (n : Node) (options : RootNode.OptionsArg)
    (overridden : Prim) :
  ShadowRoot_defined h = true ->
  (RootNode.height n <= fuel)%nat ->
  RootNode.getRootNodePolyfill fuel h (VNode n) options overridden
  = match RootNode.checkOptionsParam options with
    | Return composed =>
        Some (Return (VNode (RootNode.nativeGetRootNode composed n)))
    | Throw e => Some (Throw e)
    end.
Proof.
  intros Hdefined Hfuel.
  unfold RootNode.getRootNodePolyfill, RootNode.tryMethods.
  rewrite isNode_of_node. cbn [negb].
  destruct (RootNode.checkOptionsParam options) as [composed | e];
    [| reflexivity].
  rewrite (upwardsTraversal_native h composed fuel Hdefined n Hfuel).
  destruct (truthy overridden); [reflexivity |].
  destruct (getRootNode_native h); reflexivity.
Qed.

Lemma getRootNodePolyfill_traversal_equals_native_witness :
  RootNode.getRootNodePolyfill 9 Cases.shadowBrowser
    (VNode Cases.slottedText) (RootNode.TheOptions (PBool true)) (PBool true)
  = Some (Return (VNode Cases.pageDocument)).
Proof.
  apply (getRootNodePolyfill_traversal_equals_native 9 Cases.shadowBrowser
           Cases.slottedText (RootNode.TheOptions (PBool true)) (PBool true)).
  - reflexivity.
  - vm_compute. lia.
Defined.

(** X18.  The exceptions of [getRootNodePolyfill].  A TypeError is
    thrown exactly when [node] is no Node (by [instanceof], or where
    [Node] is undefined by a truthy [appendChild]), or [options] is
    defined and is no object or is [null], or the checks passed on an
    object that is no Node and holds data under [getRootNode] while
    [overridden] is falsy (the script calls [node.getRootNode], which is
    no function).  A ReferenceError is thrown exactly when [node] passed
    the check and [options] is an object whose [composed] is not a
    Boolean.  Nothing else is thrown.  (An object with methods or with a
    [parentNode] of its own is outside the model.) *)
Theorem getRootNodePolyfill_throws
    (fuel : nat) (h : Host) (node : Value) (options : RootNode.OptionsArg)
    (overridden : Prim) (e : Exn) :
  RootNode.getRootNodePolyfill fuel h node options overridden
  = Some (Throw e)
  <-> (e = TypeError
       /\ (isNode h node = false
           \/ options = RootNode.NotAnObject
           \/ (isNode h node = true
               /\ (exists composed,
                      RootNode.checkOptionsParam options = Return composed)
               /\ truthy overridden = false
               /\ exists appendChildProp getRootNodeProp,
                    node = VObject appendChildProp getRootNodeProp
                    /\ truthy getRootNodeProp = true)))
      \/ (e = ReferenceError
          /\ isNode h node = true
          /\ exists p, options = RootNode.TheOptions p
                       /\ forall b, p <> PBool b).
Proof.
  unfold RootNode.getRootNodePolyfill.
  destruct (isNode h node) eqn:Hnode; cbn [negb].
  - destruct (RootNode.checkOptionsParam options) as [composed | err]
      eqn:Hoptions.
    + (* the options pass *)
      assert (Hvalid : options <> RootNode.NotAnObject)
        by (intros ->; discriminate).
      assert (Hbool : forall p, options = RootNode.TheOptions p ->
                        exists b, p = PBool b).
      { intros p ->. destruct p as [| | b | x | t]; try discriminate.
        exists b. reflexivity. }
      split.
      * destruct node as [q | n | ac gr].
        -- discriminate.
        -- destruct (RootNode.tryMethods fuel h n composed overridden);
             discriminate.
        -- unfold RootNode.tryMethodsOnObject.
           destruct (truthy overridden) eqn:Hover; [discriminate |].
           destruct (truthy gr) eqn:Hgr; [| discriminate].
           intros H. injection H as <-. left. split; [reflexivity |].
           right. right. split; [reflexivity |].
           split; [exists composed; reflexivity |].
           split; [reflexivity |]. exists ac, gr.
           split; [reflexivity | exact Hgr].
      * intros [[-> [H | [H | [_ [_ [Hover [ac [gr [-> Hgr]]]]]]]]]
               | [_ [_ [p [Hp Hnot]]]]].
        -- discriminate.
        -- contradiction.
        -- unfold RootNode.tryMethodsOnObject. rewrite Hover, Hgr.
           reflexivity.
        -- destruct (Hbool p Hp) as [b ->]. exfalso. apply (Hnot b).
           reflexivity.
    + (* the options are refused *)
      destruct options as [| | p]; cbn [RootNode.checkOptionsParam] in Hoptions.
      * discriminate.
      * injection Hoptions as <-. split.
        -- intros H. injection H as <-. left. split; [reflexivity |].
           right. left. reflexivity.
        -- intros [[-> _] | [_ [_ [p [Hp _]]]]];
             [reflexivity | discriminate].
      * assert (Hnot : forall b, p <> PBool b).
        { intros b ->. discriminate. }
        assert (Herr : err = ReferenceError).
        { destruct p; try discriminate; injection Hoptions as <-;
            reflexivity. }
        subst err. split.
        -- intros H. injection H as <-. right. split; [reflexivity |].
           split; [reflexivity |]. exists p. split; [reflexivity | exact Hnot].
        -- intros [[-> [H | [H | [_ [[c Hc] _]]]]] | [-> _]];
             try discriminate; reflexivity.
  - split.
    + intros H. injection H as <-. left. split; [reflexivity | left].
      reflexivity.
    + intros [[-> _] | [_ [H _]]]; [reflexivity | discriminate].
Qed.

(** Where [Node] is undefined an object that holds data under
    [appendChild] and [getRootNode] passes for a node, and the call of its
    [getRootNode] is a TypeError; with [overridden] set it is returned
    itself. *)
Example getRootNodePolyfill_on_a_plain_object :
  let o := VObject (PNum (ofZ 1)) (PNum (ofZ 1)) in
  RootNode.getRootNodePolyfill 1 Cases.legacyBrowser o
    RootNode.NoOptions PUndefined = Some (Throw TypeError)
  /\ RootNode.getRootNodePolyfill 1 Cases.legacyBrowser o
       RootNode.NoOptions (PBool true) = Some (Return o).
Proof.
  split; reflexivity.
Qed.


End AncestryFacts.

(* ================================================================= *)
(** ** Strings: whole words and tokens *)

Module WordFacts.
Import Text TextFacts TokenFacts.

(** A name made of word characters ([\w]) only. *)
Definition wordy (s : string) : Prop :=
  s <> EmptyString /\ forallb isWordChar (chars s) = true.

(** An attribute value made of word characters and ASCII white space. *)
Definition wordyList (l : list ascii) : Prop :=
  forallb (fun c => (isWordChar c || isAsciiSpace c)%bool) l = true.

Definition wordyValue (s : string) : Prop := wordyList (chars s).

Lemma asciiSpace_not_word (c : ascii) :
  isAsciiSpace c = true -> isWordChar c = false.
Proof.
  unfold isAsciiSpace, isWordChar. set (k := code c).
  rewrite !orb_true_iff, !Nat.eqb_eq. intros H.
  apply not_true_is_false. rewrite !orb_true_iff, !andb_true_iff, !Nat.leb_le,
    Nat.eqb_eq. lia.
Qed.

Lemma word_not_space (c : ascii) : isWordChar c = true -> isSpace c = false.
Proof.
  unfold isSpace, isWordChar. set (k := code c).
  rewrite !orb_true_iff, !andb_true_iff, !Nat.leb_le, Nat.eqb_eq. intros H.
  apply not_true_is_false.
  rewrite !orb_true_iff, !andb_true_iff, !Nat.leb_le, !Nat.eqb_eq. lia.
Qed.

Lemma word_not_asciiSpace (c : ascii) :
  isWordChar c = true -> isAsciiSpace c = false.
Proof.
  intros H. destruct (isAsciiSpace c) eqn:E; [| reflexivity].
  apply asciiSpace_not_word in E. congruence.
Qed.

(** The word at the start of a list, and what follows it. *)
Fixpoint takeWord (l : list ascii) : list ascii :=
  match l with
  | c :: r => if isAsciiSpace c then [] else c :: takeWord r
  | [] => []
  end.

Fixpoint dropWord (l : list ascii) : list ascii :=
  match l with
  | c :: r => if isAsciiSpace c then l else dropWord r
  | [] => []
  end.

(** The tokens from inside a token: the token that is being read, then the
    tokens of the rest. *)
Lemma tokensFrom_inside (l piece : list ascii) :
  piece <> [] ->
  tokensFrom l piece
  = text (rev piece ++ takeWord l) :: tokensFrom (dropWord l) [].
Proof.
  revert piece. induction l as [| c r IH]; intros piece Hp.
  - cbn [tokensFrom takeWord dropWord]. rewrite app_nil_r.
    destruct piece; [contradiction | reflexivity].
  - cbn [tokensFrom takeWord dropWord]. destruct (isAsciiSpace c) eqn:Hc.
    + rewrite app_nil_r. cbn [tokensFrom]. rewrite Hc.
      destruct piece; [contradiction | reflexivity].
    + rewrite IH by discriminate. cbn [rev]. rewrite <- app_assoc.
      reflexivity.
Qed.

Section Whole.
Variable name : string.
Hypothesis name_wordy : wordy name.

Let pat : list ascii := chars name.

Definition isWord (o : option ascii) : bool :=
  match o with Some c => isWordChar c | None => false end.

(** What follows the literal is a word boundary exactly when the literal is
    the whole word at the start of [l]. *)
Lemma literal_is_word (p l : list ascii) (prev : option ascii) :
  forallb isWordChar p = true -> wordyList l ->
  (p = [] -> isWord prev = true) ->
  match afterLiteral false p l prev with
  | Some (last, rest) => boundary last (hd_error rest)
  | None => false
  end
  = String.eqb (text p) (text (takeWord l)).
Proof.
  revert l prev. induction p as [| x p' IH]; intros l prev Hp Hl Hprev.
  - cbn [afterLiteral]. unfold boundary. fold (isWord prev).
    rewrite (Hprev eq_refl).
    destruct l as [| c r]; [reflexivity |].
    cbn [hd_error takeWord]. unfold wordyList in Hl. cbn [forallb] in Hl.
    apply andb_true_iff in Hl. destruct Hl as [Hc _].
    destruct (isAsciiSpace c) eqn:Hs.
    + rewrite (asciiSpace_not_word _ Hs). reflexivity.
    + rewrite orb_false_r in Hc. rewrite Hc. reflexivity.
  - cbn [forallb] in Hp. apply andb_true_iff in Hp. destruct Hp as [Hx Hp'].
    destruct l as [| c r]; [reflexivity |].
    unfold wordyList in Hl. cbn [forallb] in Hl.
    apply andb_true_iff in Hl. destruct Hl as [Hc Hr].
    cbn [afterLiteral takeWord]. unfold sameChar.
    destruct (isAsciiSpace c) eqn:Hs.
    + (* a white-space character is no word character *)
      destruct (Ascii.eqb x c) eqn:E; [| reflexivity].
      apply Ascii.eqb_eq in E. subst c.
      rewrite (asciiSpace_not_word _ Hs) in Hx. discriminate.
    + rewrite orb_false_r in Hc.
      change (text (x :: p')) with (String x (text p')).
      change (text (c :: takeWord r)) with (String c (text (takeWord r))).
      cbn [String.eqb].
      destruct (Ascii.eqb x c) eqn:E; [| reflexivity].
      apply IH; [exact Hp' | exact Hr | intros _; exact Hc].
Qed.

(** [\bname\b] at the start of [l], which follows a character that is no
    word character: the word at the start of [l] is [name]. *)
Lemma matchesHere_word (l : list ascii) (prev : option ascii) :
  wordyList l -> isWord prev = false ->
  matchesHere false true true pat prev l
  = String.eqb name (text (takeWord l)).
Proof.
  intros Hl Hprev. destruct name_wordy as [Hne Hword].
  unfold matchesHere. cbn [negb orb].
  rewrite (literal_is_word pat l prev Hword Hl).
  2: { intros E. exfalso. apply Hne. unfold pat in E.
       rewrite <- (text_chars name), E. reflexivity. }
  unfold pat. rewrite text_chars.
  unfold boundary. fold (isWord prev). rewrite Hprev.
  destruct l as [| c r].
  - cbn [hd_error takeWord]. cbn [xorb andb].
    destruct name; [contradiction | reflexivity].
  - cbn [hd_error takeWord]. unfold wordyList in Hl. cbn [forallb] in Hl.
    apply andb_true_iff in Hl. destruct Hl as [Hc _].
    destruct (isAsciiSpace c) eqn:Hs.
    + rewrite (asciiSpace_not_word _ Hs). cbn [xorb andb].
      destruct name; [contradiction | reflexivity].
    + rewrite orb_false_r in Hc. rewrite Hc. reflexivity.
Qed.

(** [\bname\b] within a word that has begun: no match. *)
Lemma matchesHere_inside (l : list ascii) (prev : option ascii) :
  wordyList l -> isWord prev = true ->
  matchesHere false true true pat prev l = false.
Proof.
  intros Hl Hprev. destruct name_wordy as [Hne Hword].
  unfold matchesHere. cbn [negb orb]. unfold boundary at 1.
  fold (isWord prev). rewrite Hprev.
  destruct l as [| c r].
  - cbn [hd_error xorb]. unfold pat. destruct (chars name) eqn:E.
    + exfalso. apply Hne. rewrite <- (text_chars name), E. reflexivity.
    + reflexivity.
  - cbn [hd_error]. unfold wordyList in Hl. cbn [forallb] in Hl.
    apply andb_true_iff in Hl. destruct Hl as [Hc _].
    destruct (isWordChar c) eqn:Hw; [reflexivity |].
    cbn [xorb andb]. cbn [orb] in Hc.
    unfold pat. destruct (chars name) as [| x p'] eqn:E.
    + exfalso. apply Hne. rewrite <- (text_chars name), E. reflexivity.
    + cbn [afterLiteral]. unfold sameChar.
      destruct (Ascii.eqb x c) eqn:Ex; [| reflexivity].
      apply Ascii.eqb_eq in Ex. subst c.
      cbn [forallb] in Hword.
      rewrite Hw in Hword. discriminate.
Qed.

(** [\bname\b] matches in a value of word characters and ASCII white space
    exactly when [name] is one of its tokens. *)
Lemma matchesFrom_tokens (l : list ascii) :
  wordyList l ->
  forall prev,
    matchesFrom false true true pat prev l
    = if isWord prev
      then existsb (String.eqb name) (tokensFrom (dropWord l) [])
      else existsb (String.eqb name) (tokensFrom l []).
Proof.
  induction l as [| c r IH]; intros Hl prev.
  - cbn [matchesFrom]. rewrite orb_false_r.
    destruct (isWord prev) eqn:Hprev.
    + apply matchesHere_inside; assumption.
    + rewrite matchesHere_word by assumption.
      cbn [takeWord]. destruct name_wordy as [Hne _].
      destruct name; [contradiction | reflexivity].
  - pose proof Hl as Hl'. unfold wordyList in Hl'. cbn [forallb] in Hl'.
    apply andb_true_iff in Hl'. destruct Hl' as [Hc Hr].
    cbn [matchesFrom]. rewrite (IH Hr (Some c)). cbn [isWord].
    destruct (isAsciiSpace c) eqn:Hs.
    + rewrite (asciiSpace_not_word _ Hs).
      cbn [dropWord]. rewrite Hs. cbn [tokensFrom]. rewrite Hs.
      destruct (isWord prev) eqn:Hprev.
      * rewrite matchesHere_inside by assumption. reflexivity.
      * rewrite matchesHere_word by assumption. cbn [takeWord].
        rewrite Hs. destruct name_wordy as [Hne _].
        destruct name; [contradiction | reflexivity].
    + rewrite orb_false_r in Hc. rewrite Hc.
      cbn [dropWord]. rewrite Hs. cbn [tokensFrom]. rewrite Hs.
      destruct (isWord prev) eqn:Hprev.
      * rewrite matchesHere_inside by assumption. reflexivity.
      * rewrite matchesHere_word by assumption.
        rewrite (tokensFrom_inside r [c]) by discriminate.
        cbn [takeWord existsb rev app]. rewrite Hs. reflexivity.
Qed.

End Whole.

(** A word character has no meaning of its own in a pattern. *)
Lemma word_not_meta (c : ascii) : isWordChar c = true -> isMeta c = false.
Proof.
  intros Hw. apply not_true_is_false. intros Hm.
  unfold isMeta in Hm. apply existsb_exists in Hm.
  destruct Hm as [m [Hin Hm]]. apply Ascii.eqb_eq in Hm. subst m.
  cbn in Hin.
  repeat (destruct Hin as [Hin | Hin];
          [subst c; vm_compute in Hw; discriminate |]).
  contradiction.
Qed.

(** The sample engine on [\bname\b]. *)
Lemma literalRegExp_word (name : string) :
  wordy name ->
  literalRegExp ("\b" ++ name ++ "\b") EmptyString
  = Some (fun subject =>
            matchesFrom false true true (chars name) None (chars subject)).
Proof.
  intros [_ Hword]. unfold literalRegExp.
  change (chars ("\b" ++ name ++ "\b"))
    with ("\"%char :: "b"%char :: chars (name ++ "\b")).
  cbn [stripPrefixB]. rewrite chars_append.
  change (chars "\b") with ["\"%char; "b"%char].
  rewrite rev_app_distr. cbn [rev app]. rewrite rev_involutive.
  assert (Hmeta : existsb isMeta (chars name) = false).
  { apply not_true_is_false. intros H. apply existsb_exists in H.
    destruct H as [c [Hc Hm]]. rewrite forallb_forall in Hword.
    rewrite (word_not_meta c (Hword c Hc)) in Hm. discriminate. }
  rewrite Hmeta. reflexivity.
Qed.

(** With it, the whole-word search of the scripts finds exactly the
    tokens. *)
Lemma whole_word_is_token (name value : string) (test : string -> bool) :
  wordy name -> wordyValue value ->
  literalRegExp ("\b" ++ name ++ "\b") EmptyString = Some test ->
  test value = existsb (String.eqb name) (tokens value).
Proof.
  intros Hname Hvalue Hengine.
  rewrite (literalRegExp_word name Hname) in Hengine.
  injection Hengine as <-.
  rewrite (matchesFrom_tokens name Hname (chars value) Hvalue None).
  reflexivity.
Qed.

End WordFacts.

(* ================================================================= *)
(** ** src/class/ContainsCSSClass.js: the search by whole words *)

Module WordSearchFacts.
Import JS ClassParam ContainsCSSClass.
Import TextFacts TokenFacts WordFacts ClassParamFacts ClassSearchFacts.

Lemma wordyList_incl (a b : list ascii) :
  incl a b -> wordyList b -> wordyList a.
Proof.
  unfold wordyList. rewrite !forallb_forall. intros Hincl H x Hx.
  apply H, Hincl, Hx.
Qed.

Lemma wordyValue_trim (v : string) : wordyValue v -> wordyValue (Text.trim v).
Proof.
  unfold wordyValue, Text.trim. rewrite chars_text. intros H.
  eapply wordyList_incl; [| exact H].
  intros x Hx. apply in_rev in Hx. apply dropSpaces_incl in Hx.
  apply in_rev in Hx. apply dropSpaces_incl in Hx. exact Hx.
Qed.

Lemma wordyValue_plain (v : string) : wordyValue v -> plain v.
Proof.
  unfold wordyValue, wordyList, plain, plainList.
  rewrite !forallb_forall. intros H x Hx. specialize (H x Hx).
  apply orb_true_iff in H. destruct H as [Hw | Hs].
  - apply clean_plainChar, word_not_space, Hw.
  - unfold plainChar. rewrite Hs, (asciiSpace_isSpace _ Hs). reflexivity.
Qed.

Section Engine.

(** The RegExp engine of the host; on the patterns [\bname\b] for names of
    word characters it is the sample engine. *)
Variable RegExp : string -> string -> option (string -> bool).
Hypothesis whole_words :
  forall name, wordy name ->
    RegExp ("\b" ++ name ++ "\b")%string EmptyString
    = Text.literalRegExp ("\b" ++ name ++ "\b") EmptyString.

Lemma checkWithRegex_token (value name : string) :
  wordy name -> wordyValue value ->
  checkWithRegex RegExp value (Some name)
  = Return (existsb (String.eqb name) (Text.tokens value)).
Proof.
  intros Hname Hvalue. unfold checkWithRegex.
  rewrite (whole_words name Hname), (literalRegExp_word name Hname).
  rewrite (matchesFrom_tokens name Hname (Text.chars value) Hvalue None).
  reflexivity.
Qed.

Lemma allMatchClassString_tokens (names : list string) (value : string) :
  Forall wordy names -> wordyValue value ->
  allMatchClassString names (checkWithRegex RegExp) value
  = Return (forallb (fun c => existsb (String.eqb c) (Text.tokens value))
              names).
Proof.
  intros Hnames Hvalue. induction Hnames as [| c r Hc _ IH]; [reflexivity |].
  cbn [allMatchClassString forallb].
  rewrite (checkWithRegex_token value c Hc Hvalue). cbn [bind].
  destruct (existsb (String.eqb c) (Text.tokens value)); [exact IH |].
  reflexivity.
Qed.

(** X20.  [containsCSSClass] on an Element without [classList], through
    [className] or [getAttribute]: when the [class] attribute is not empty
    and holds word characters and ASCII white space only, and the class
    string names classes of word characters, the whole-word search
    [\bname\b] finds exactly the tokens: the call returns true exactly when
    every name kept is a token of the attribute, as the search through
    [classList] does. *)
Theorem containsCSSClass_whole_words_are_tokens
    (Element_defined : bool) (fuel : nat) (e : Element) (v : Prim)
    (s : string) (singleMatch : Prim) :
  classListSupported e = false ->
  (classNameIsString e || getAttributeSupported e)%bool = true ->
  style_backgroundSize e = Some v -> v <> PStr "string" ->
  classOf e <> EmptyString -> wordyValue (classOf e) ->
  (String.length s < fuel)%nat ->
  forallb Text.isCss2Name (pieces s) = true ->
  Forall wordy (pieces s) ->
  kept (pieces s) <> [] ->
  containsCSSClass RegExp Element_defined fuel (VElement e) (CString s)
    singleMatch
  = Some (Return (forallb (hasToken e) (kept (pieces s)))).
Proof.
  intros Hlist Hmethod Hstyle Hv Hnonempty Hvalue Hfuel Hok Hwordy Hnames.
  unfold containsCSSClass.
  rewrite (isElement_styled _ _ _ Hstyle). cbn [negb].
  rewrite (supportsCSS3_false _ _ Hstyle Hv).
  rewrite (checkClassParameter_string false fuel s Hfuel).
  rewrite (keepNames_accepted false (pieces s) Hok).
  assert (Hkept : Forall wordy (kept (pieces s))).
  { apply Forall_forall. intros c Hc. unfold kept in Hc.
    apply filter_In in Hc. destruct Hc as [Hc _]. apply dedupe_incl in Hc.
    rewrite Forall_forall in Hwordy. apply Hwordy, Hc. }
  unfold tryMethods, byClassList. rewrite Hlist. cbn [bind].
  unfold byClassName. destruct (classNameIsString e) eqn:Hcn.
  - (* through className *)
    rewrite ContainsCSSClassFacts.checkClassEntries_all.
    fold (classOf e).
    rewrite (proj2 (String.eqb_neq (classOf e) EmptyString) Hnonempty).
    rewrite (allMatchClassString_tokens _ _ Hkept Hvalue). reflexivity.
  - (* through getAttribute *)
    cbn [orb] in Hmethod. cbn [bind]. unfold byAttribute.
    rewrite Hmethod. cbn [negb].
    unfold classOf in Hnonempty, Hvalue. unfold hasToken, classOf.
    destruct (classAttr e) as [value |]; [| contradiction].
    rewrite (proj2 (String.eqb_neq value EmptyString) Hnonempty).
    rewrite <- (tokens_trim value (wordyValue_plain _ Hvalue)).
    destruct (String.eqb (Text.trim value) EmptyString) eqn:Hempty.
    + apply String.eqb_eq in Hempty. rewrite Hempty. cbn [bind].
      destruct (kept (pieces s)) as [| c r]; [contradiction | reflexivity].
    + rewrite ContainsCSSClassFacts.checkClassEntries_all, Hempty.
      rewrite (allMatchClassString_tokens _ _ Hkept
                 (wordyValue_trim _ Hvalue)).
      reflexivity.
Qed.

End Engine.

Lemma containsCSSClass_whole_words_are_tokens_witness :
  containsCSSClass Text.literalRegExp false 20 (VElement Cases.legacyMenuItem)
    (CString "item menu") PUndefined
  = Some (Return true).
Proof.
  apply (containsCSSClass_whole_words_are_tokens Text.literalRegExp
           (fun name _ => eq_refl) false 20 Cases.legacyMenuItem
           (PStr EmptyString) "item menu" PUndefined).
  - reflexivity.
  - reflexivity.
  - reflexivity.
  - discriminate.
  - discriminate.
  - reflexivity.
  - simpl. lia.
  - reflexivity.
  - repeat constructor; discriminate.
  - discriminate.
Defined.

End WordSearchFacts.

(* ================================================================= *)
(** ** src/class/ElementsByClass.js *)

Module ElementsByClassFacts.
Import JS ClassParam ContainsCSSClass.
Import TextFacts TokenFacts WordFacts ClassParamFacts ClassSearchFacts.
Import WordSearchFacts.

(** *** Pieces and tokens *)

Definition nonEmpty (t : string) : bool := negb (String.eqb t EmptyString).

Lemma text_empty (l : list ascii) :
  String.eqb (Text.text l) EmptyString = match l with [] => true | _ => false end.
Proof. destruct l; reflexivity. Qed.

(** On a string without vertical tab and no-break space the tokens are the
    pieces of [split] that are not empty. *)
Lemma tokensFrom_splitFrom (l piece : list ascii) (inRun : bool) :
  plainList l -> (inRun = true -> piece = []) ->
  Text.tokensFrom l piece = filter nonEmpty (Text.splitFrom l piece inRun).
Proof.
  revert piece inRun. induction l as [| c r IH]; intros piece inRun Hp Hrun.
  - cbn [Text.tokensFrom Text.splitFrom filter]. unfold nonEmpty.
    rewrite text_empty.
    destruct piece as [| x y]; [reflexivity |].
    destruct (rev (x :: y)) eqn:E; [| reflexivity].
    apply (f_equal (@List.length ascii)) in E. rewrite length_rev in E.
    discriminate.
  - unfold plainList in Hp. cbn [forallb] in Hp.
    apply andb_true_iff in Hp. destruct Hp as [Hc Hr].
    unfold plainChar in Hc. apply eqb_prop in Hc.
    cbn [Text.tokensFrom Text.splitFrom]. rewrite <- Hc.
    destruct (Text.isSpace c) eqn:Hs.
    + destruct inRun.
      * rewrite (Hrun eq_refl). apply (IH [] true Hr). reflexivity.
      * cbn [filter]. unfold nonEmpty at 1. rewrite text_empty.
        rewrite <- (IH [] true Hr (fun _ => eq_refl)).
        destruct piece as [| x y]; [reflexivity |].
        destruct (rev (x :: y)) eqn:E; [| reflexivity].
        apply (f_equal (@List.length ascii)) in E. rewrite length_rev in E.
        discriminate.
    + apply (IH (c :: piece) false Hr). discriminate.
Qed.

Lemma tokens_pieces (s : string) :
  plain s -> Text.tokens s = filter nonEmpty (pieces s).
Proof.
  intros Hp. rewrite <- (tokens_trim s Hp). unfold Text.tokens, pieces, Text.split.
  apply tokensFrom_splitFrom; [apply plain_trim, Hp | discriminate].
Qed.

(** *** The names a search is asked for *)

(** A class name that the search by whole words can tell from its
    neighbours: word characters only, a class name of CSS 2, none of the
    property names of [Object.prototype], and not the text "undefined". *)
Definition simple (c : string) : Prop :=
  wordy c /\ Text.isCss2Name c = true /\ inherited c = false
  /\ c <> "undefined"%string.

(** An Element that [containsCSSClass] can search: it has [style], and
    either [classList], or [className] or [getAttribute] with a [class]
    attribute of word characters and ASCII white space. *)
Definition searchable (e : Element) : Prop :=
  (exists v, style_backgroundSize e = Some v /\ v <> PStr "string")
  /\ (classListSupported e = true
      \/ ((classNameIsString e || getAttributeSupported e)%bool = true
          /\ wordyValue (classOf e))).

Lemma forallb_without (f : string -> bool) (x : string) (l : list string) :
  f x = true ->
  forallb f (filter (fun y => negb (String.eqb x y)) l) = forallb f l.
Proof.
  intros Hx. induction l as [| y r IH]; [reflexivity |].
  cbn [filter forallb]. destruct (String.eqb x y) eqn:E; cbn [negb].
  - apply String.eqb_eq in E. subst y. rewrite Hx, IH. reflexivity.
  - cbn [forallb]. rewrite IH. reflexivity.
Qed.

Lemma forallb_dedupe (f : string -> bool) (l : list string) :
  forallb f (Text.dedupe l) = forallb f l.
Proof.
  induction l as [| x r IH]; [reflexivity |].
  cbn [Text.dedupe forallb]. destruct (f x) eqn:Hx; [| reflexivity].
  cbn [andb]. rewrite (forallb_without f x _ Hx). exact IH.
Qed.

Lemma filter_all {A : Type} (f : A -> bool) (l : list A) :
  (forall x, In x l -> f x = true) -> filter f l = l.
Proof.
  induction l as [| x r IH]; intros H; [reflexivity |].
  cbn [filter]. rewrite (H x (or_introl eq_refl)).
  f_equal. apply IH. intros y Hy. apply H. right. exact Hy.
Qed.

Lemma kept_simple (ps : list string) :
  Forall simple ps -> kept ps = Text.dedupe ps.
Proof.
  intros H. unfold kept. apply filter_all. intros x Hx.
  apply dedupe_incl in Hx. rewrite Forall_forall in H.
  destruct (H x Hx) as [_ [_ [Hi _]]]. rewrite Hi. reflexivity.
Qed.

Lemma dedupe_wordy (ps : list string) :
  Forall simple ps -> Forall wordy (Text.dedupe ps).
Proof.
  intros H. apply Forall_forall. intros x Hx. apply dedupe_incl in Hx.
  rewrite Forall_forall in H. apply (H x Hx).
Qed.

Lemma dedupe_nonempty (ps : list string) : ps <> [] -> Text.dedupe ps <> [].
Proof. destruct ps; [contradiction | discriminate]. Qed.

Lemma wordy_tokenish (c : string) : wordy c -> tokenish c.
Proof.
  intros [Hne Hw]. split; [exact Hne |].
  apply not_true_is_false. intros H. apply existsb_exists in H.
  destruct H as [x [Hx Hs]]. rewrite forallb_forall in Hw.
  rewrite (word_not_asciiSpace x (Hw x Hx)) in Hs. discriminate.
Qed.

Lemma wordy_wordyValue (c : string) : wordy c -> wordyValue c.
Proof.
  intros [_ Hw]. unfold wordyValue, wordyList. rewrite forallb_forall in *.
  intros x Hx. rewrite (Hw x Hx). reflexivity.
Qed.

Lemma wordy_undefined : wordy "undefined".
Proof. split; [discriminate | reflexivity]. Qed.

Lemma pieces_of_simple (s : string) :
  Forall simple (pieces s) -> filter nonEmpty (pieces s) = pieces s.
Proof.
  intros H. apply filter_all. intros x Hx. rewrite Forall_forall in H.
  destruct (H x Hx) as [[Hne _] _]. unfold nonEmpty.
  rewrite (proj2 (String.eqb_neq x EmptyString) Hne). reflexivity.
Qed.

Lemma pieces_nonempty (s : string) : pieces s <> [].
Proof. apply split_nonempty. Qed.

Lemma forallb_none (f : string -> bool) (l : list string) :
  l <> [] -> (forall x, f x = false) -> forallb f l = false.
Proof.
  destruct l as [| x r]; [contradiction |]. intros _ H.
  cbn [forallb]. rewrite (H x). reflexivity.
Qed.

Section Engine.

(** The RegExp engine of the host; on the patterns [\bname\b] for names of
    word characters it is the sample engine. *)
Variable RegExp : string -> string -> option (string -> bool).
Hypothesis whole_words :
  forall name, wordy name ->
    RegExp ("\b" ++ name ++ "\b")%string EmptyString
    = Text.literalRegExp ("\b" ++ name ++ "\b") EmptyString.

(** A call of [checkWithRegex] with one argument looks for the word
    "undefined" in the name. *)
Lemma checkWithRegex_undefined (c : string) :
  wordy c -> c <> "undefined"%string ->
  checkWithRegex RegExp c None = Return false.
Proof.
  intros Hc Hne.
  change (checkWithRegex RegExp c None)
    with (checkWithRegex RegExp c (Some "undefined"%string)).
  rewrite (checkWithRegex_token RegExp whole_words c "undefined"
             wordy_undefined (wordy_wordyValue c Hc)).
  rewrite (tokens_word c (wordy_tokenish c Hc)). cbn [existsb].
  rewrite (proj2 (String.eqb_neq "undefined" c)); [reflexivity |].
  intros E. apply Hne. symmetry. exact E.
Qed.

Lemma allMatchOneParam_undefined (names : list string) :
  names <> [] -> Forall simple names ->
  allMatchOneParam names (checkWithRegex RegExp) = Return false.
Proof.
  intros Hne H. destruct H as [| c r [Hw [_ [_ Hu]]] _]; [contradiction |].
  cbn [allMatchOneParam]. rewrite (checkWithRegex_undefined c Hw Hu).
  reflexivity.
Qed.

Lemma dedupe_simple (ps : list string) :
  Forall simple ps -> Forall simple (Text.dedupe ps).
Proof.
  intros H. apply Forall_forall. intros x Hx. apply dedupe_incl in Hx.
  rewrite Forall_forall in H. apply (H x Hx).
Qed.

(** [containsCSSClass(element, className)] answers whether every piece of
    the class string is a token of the [class] attribute. *)
Lemma containsCSSClass_tokens (Element_defined : bool) (fuel : nat)
    (e : Element) (s : string) (singleMatch : Prim) :
  searchable e -> (String.length s < fuel)%nat -> Forall simple (pieces s) ->
  containsCSSClass RegExp Element_defined fuel (VElement e) (CString s)
    singleMatch
  = Some (Return (forallb (hasToken e) (pieces s))).
Proof.
  intros [[v [Hstyle Hv]] Hsearch] Hfuel Hsimple.
  assert (Hok : forallb (accepted false) (pieces s) = true).
  { apply forallb_forall. intros x Hx. rewrite Forall_forall in Hsimple.
    apply (Hsimple x Hx). }
  unfold containsCSSClass.
  rewrite (isElement_styled _ _ _ Hstyle). cbn [negb].
  rewrite (supportsCSS3_false _ _ Hstyle Hv).
  rewrite (checkClassParameter_string false fuel s Hfuel).
  rewrite (keepNames_accepted false (pieces s) Hok).
  rewrite (kept_simple _ Hsimple).
  rewrite <- (forallb_dedupe (hasToken e) (pieces s)).
  pose proof (dedupe_wordy _ Hsimple) as Hwordy.
  pose proof (dedupe_simple _ Hsimple) as Hsimple'.
  pose proof (dedupe_nonempty _ (pieces_nonempty s)) as Hne.
  set (names := Text.dedupe (pieces s)) in *.
  unfold tryMethods, byClassList.
  destruct (classListSupported e) eqn:Hlist.
  - rewrite ContainsCSSClassFacts.checkClassEntries_all.
    rewrite allMatchOneParam_byClSearch. reflexivity.
  - destruct Hsearch as [Habs | [Hmethod Hvalue]]; [discriminate |].
    cbn [bind].
    unfold byClassName. destruct (classNameIsString e) eqn:Hcn.
    + (* through className *)
      rewrite ContainsCSSClassFacts.checkClassEntries_all.
      fold (classOf e).
      destruct (String.eqb (classOf e) EmptyString) eqn:Hempty.
      * apply String.eqb_eq in Hempty.
        rewrite (allMatchOneParam_undefined names Hne Hsimple').
        cbn [bind]. f_equal. f_equal. symmetry.
        apply forallb_none; [exact Hne |]. intros x. unfold hasToken.
        rewrite Hempty. reflexivity.
      * rewrite (allMatchClassString_tokens RegExp whole_words _ _ Hwordy
                   Hvalue).
        reflexivity.
    + (* through getAttribute *)
      cbn [orb] in Hmethod. cbn [bind]. unfold byAttribute.
      rewrite Hmethod. cbn [negb].
      assert (Hnone : forall value, Text.tokens value = [] ->
                forallb (fun c => existsb (String.eqb c) (Text.tokens value))
                  names = false).
      { intros value Ht. apply forallb_none; [exact Hne |].
        intros x. rewrite Ht. reflexivity. }
      unfold classOf in Hvalue. unfold hasToken, classOf.
      destruct (classAttr e) as [value |].
      * destruct (String.eqb value EmptyString) eqn:Hempty.
        -- apply String.eqb_eq in Hempty. subst value. cbn [bind].
           rewrite (Hnone EmptyString eq_refl). reflexivity.
        -- rewrite <- (tokens_trim value (wordyValue_plain _ Hvalue)).
           destruct (String.eqb (Text.trim value) EmptyString) eqn:Htrim.
           ++ apply String.eqb_eq in Htrim. rewrite Htrim. cbn [bind].
              rewrite (Hnone EmptyString eq_refl). reflexivity.
           ++ rewrite ContainsCSSClassFacts.checkClassEntries_all, Htrim.
              rewrite (allMatchClassString_tokens RegExp whole_words _ _
                         Hwordy (wordyValue_trim _ Hvalue)).
              reflexivity.
      * cbn [bind]. rewrite (Hnone EmptyString eq_refl). reflexivity.
Qed.

End Engine.

(** *** The search through [getElementsByTagName] *)

Import ElementsByClass.

(** The test of the DOM Standard on an entry: an Element that has every
    wanted class. *)
Definition hasAll (wanted : list string) (entry : Entry) : bool :=
  match entry with
  | AnElement _ e => forallb (hasClass e) wanted
  | NoElement _ => false
  end.

Lemma getElementsByClassName_filter (c : Container) (classNames : string) :
  Text.tokens classNames <> [] ->
  getElementsByClassName c classNames
  = filter (hasAll (Text.tokens classNames)) (below c).
Proof.
  intros Hne. unfold getElementsByClassName.
  destruct (Text.tokens classNames) eqn:E; [contradiction | reflexivity].
Qed.

Section Fallback.

Variable RegExp : string -> string -> option (string -> bool).
Hypothesis whole_words :
  forall name, wordy name ->
    RegExp ("\b" ++ name ++ "\b")%string EmptyString
    = Text.literalRegExp ("\b" ++ name ++ "\b") EmptyString.

Lemma tagNameLoop_filter (fuel : nat) (h : Host) (s : string)
    (l : list Entry) :
  (String.length s < fuel)%nat -> Forall simple (pieces s) ->
  (forall id e, In (AnElement id e) l -> searchable e) ->
  tagNameLoop RegExp fuel h s l
  = Some (Return (filter (hasAll (pieces s)) l)).
Proof.
  intros Hfuel Hsimple. induction l as [| entry rest IH]; intros Hall;
    [reflexivity |].
  assert (Hrest : forall id e, In (AnElement id e) rest -> searchable e)
    by (intros id e Hin; apply (Hall id e); right; exact Hin).
  specialize (IH Hrest). cbn [tagNameLoop filter]. rewrite IH.
  destruct entry as [id e | id]; [| reflexivity].
  assert (He : searchable e) by (apply (Hall id e); left; reflexivity).
  destruct He as [[v [Hstyle Hv]] Hsearch] eqn:Hkeep. clear Hkeep.
  unfold ElementsByClass.isElement.
  rewrite (isElement_styled _ _ _ Hstyle).
  rewrite (containsCSSClass_tokens RegExp whole_words _ fuel e s PUndefined
             (conj (ex_intro _ v (conj Hstyle Hv)) Hsearch) Hfuel Hsimple).
  cbn [hasAll]. reflexivity.
Qed.

End Fallback.

(** X21.  [elementsByClass] where the container has neither
    [querySelectorAll] nor, unless [getLive] is false, a
    [getElementsByClassName] that is used: the search through
    [getElementsByTagName] and [containsCSSClass] returns an Array of
    exactly the Elements that [getElementsByClassName] of the DOM Standard
    returns for the class string, in document order.  This holds for a
    class string of plain names (word characters, no property name of
    [Object.prototype], not "undefined") and Elements that have [style]
    and, where [classList] is missing, a [class] attribute of word
    characters and ASCII white space. *)
Theorem elementsByClass_fallback_finds_what_the_native_search_finds
    (RegExp : string -> string -> option (string -> bool))
    (querySelectorAll : Container -> string -> Outcome (list Entry))
    (fuel : nat) (h : Host) (s : string) (arg : ContainerArg)
    (getLive : Prim) (name : string) (c : Container) :
  (forall w, wordy w ->
     RegExp ("\b" ++ w ++ "\b")%string EmptyString
     = Text.literalRegExp ("\b" ++ w ++ "\b") EmptyString) ->
  checkParameter h (PStr s) arg = Return (name, c) ->
  getLive <> PBool true ->
  getLive = PBool false \/ has_getElementsByClassName c = false ->
  has_querySelectorAll c = false ->
  has_getElementsByTagName c = true ->
  containsCSSClass_loaded h = true ->
  plain name -> Forall simple (pieces name) ->
  (String.length name < fuel)%nat ->
  (forall id e, In (AnElement id e) (below c) -> searchable e) ->
  elementsByClass RegExp querySelectorAll fuel h (PStr s) arg getLive
  = Some (Return (AnArray (getElementsByClassName c name))).
Proof.
  intros Hengine Hcheck Hlive Hstatic Hqsa Htag Hloaded Hplain Hsimple Hfuel
    Hall.
  assert (Htokens : Text.tokens name = pieces name).
  { rewrite (tokens_pieces name Hplain). apply pieces_of_simple, Hsimple. }
  assert (Hfallback :
            staticMethods RegExp querySelectorAll fuel h c name
            = Some (Return (AnArray (getElementsByClassName c name)))).
  { unfold staticMethods, byQuerySelector. rewrite Hqsa. cbn [negb].
    unfold byTagNameBackup. rewrite Htag, Hloaded. cbn [negb].
    rewrite (tagNameLoop_filter RegExp Hengine fuel h name (below c) Hfuel
               Hsimple Hall).
    rewrite getElementsByClassName_filter
      by (rewrite Htokens; apply pieces_nonempty).
    rewrite Htokens. reflexivity. }
  unfold elementsByClass. rewrite Hcheck. unfold tryMethods.
  destruct Hstatic as [Hfalse | Hnone].
  - rewrite Hfalse. exact Hfallback.
  - assert (Hdefault :
              defaultMethods RegExp querySelectorAll fuel h c name
              = Some (Return (AnArray (getElementsByClassName c name)))).
    { unfold defaultMethods, byClassName. rewrite Hnone. exact Hfallback. }
    destruct getLive as [| | b | n | t]; try exact Hdefault.
    destruct b; [contradiction | exact Hfallback].
Qed.

Lemma elementsByClass_fallback_finds_what_the_native_search_finds_witness :
  elementsByClass Text.literalRegExp (fun _ _ => Throw SyntaxError) 20
    Cases.legacyHost (PStr "item menu") Falsy PUndefined
  = Some (Return (AnArray [AnElement 2 Cases.legacyMenuItem;
                           AnElement 5 Cases.legacyMenuItem])).
Proof.
  apply (elementsByClass_fallback_finds_what_the_native_search_finds
           Text.literalRegExp (fun _ _ => Throw SyntaxError) 20
           Cases.legacyHost "item menu" Falsy PUndefined "item menu"
           Cases.legacyPage).
  - intros w _. reflexivity.
  - reflexivity.
  - discriminate.
  - right. reflexivity.
  - reflexivity.
  - reflexivity.
  - reflexivity.
  - reflexivity.
  - repeat constructor; discriminate.
  - simpl. lia.
  - intros id e Hin. cbn in Hin.
    repeat (destruct Hin as [Hin | Hin];
            [try discriminate; injection Hin as _ <-;
             (split; [exists (PStr EmptyString); split;
                       [reflexivity | discriminate]
                     | right; split; reflexivity]) |]).
    contradiction.
Defined.

(** *** The selector of [byQuerySelector] *)

(** A piece with a backslash before each special character. *)
Definition escapeName (p : string) : string :=
  Text.text (escape (Text.chars p)).

(** The selector of the Elements that have all of some classes: a full
    stop before each name. *)
Fixpoint classSelector (names : list string) : string :=
  match names with
  | [] => EmptyString
  | n :: rest => String "."%char (n ++ classSelector rest)
  end.

Lemma escape_app (a b : list ascii) : escape (a ++ b) = escape a ++ escape b.
Proof.
  induction a as [| c r IH]; [reflexivity |].
  cbn [app escape]. rewrite IH. destruct (isSpecial c); reflexivity.
Qed.

Lemma space_not_special (c : ascii) :
  Text.isSpace c = true -> isSpecial c = false.
Proof.
  unfold Text.isSpace, isSpecial. set (k := Text.code c). intros H.
  apply not_true_is_false. intros Hs. apply existsb_exists in Hs.
  destruct Hs as [x [Hx E]]. apply Nat.eqb_eq in E. subst x.
  rewrite !orb_true_iff, !andb_true_iff, !Nat.leb_le, ?Nat.eqb_eq in H.
  cbn in Hx. lia.
Qed.

Lemma dotRuns_escape_char (c : ascii) (r : list ascii) (inRun : bool) :
  Text.isSpace c = false ->
  dotRuns (escape (c :: r)) inRun = escape [c] ++ dotRuns (escape r) false.
Proof.
  intros Hc. cbn [escape]. destruct (isSpecial c).
  - cbn [dotRuns app]. change (Text.isSpace "\"%char) with false.
    cbn iota. rewrite Hc. reflexivity.
  - cbn [dotRuns app]. rewrite Hc. reflexivity.
Qed.

Lemma selector_pieces (l piece : list ascii) (inRun : bool) :
  (inRun = true -> piece = []) ->
  Text.chars (classSelector (map escapeName (Text.splitFrom l piece inRun)))
  = "."%char :: escape (rev piece) ++ dotRuns (escape l) inRun.
Proof.
  revert piece inRun. induction l as [| c r IH]; intros piece inRun Hrun.
  - cbn [Text.splitFrom map classSelector dotRuns escape].
    unfold escapeName. rewrite chars_text.
    change (Text.chars (String "." ?s)) with ("."%char :: Text.chars s).
    cbn [Text.chars list_ascii_of_string].
    fold (Text.chars (Text.text (escape (rev piece)) ++ "")).
    rewrite chars_append, chars_text. reflexivity.
  - cbn [Text.splitFrom]. destruct (Text.isSpace c) eqn:Hc.
    + cbn [escape]. rewrite (space_not_special c Hc). cbn [dotRuns].
      rewrite Hc. destruct inRun.
      * rewrite (Hrun eq_refl). apply (IH [] true). reflexivity.
      * cbn [map classSelector]. cbn [Text.chars list_ascii_of_string].
        fold (Text.chars (escapeName (Text.text (rev piece))
                          ++ classSelector
                               (map escapeName (Text.splitFrom r [] true)))).
        rewrite chars_append, (IH [] true (fun _ => eq_refl)).
        unfold escapeName. rewrite !chars_text. reflexivity.
    + rewrite (IH (c :: piece) false) by discriminate.
      rewrite (dotRuns_escape_char c r inRun Hc).
      cbn [rev]. rewrite escape_app, <- app_assoc. reflexivity.
Qed.

Lemma selector_of_pieces (className : string) :
  selector className = classSelector (map escapeName (Text.split className)).
Proof.
  rewrite <- (text_chars (classSelector _)).
  unfold Text.split. rewrite (selector_pieces _ [] false) by discriminate.
  reflexivity.
Qed.

(** X22.  [elementsByClass] through [querySelectorAll] (the container
    has it, and [getLive] is false or [getElementsByClassName] is missing):
    the selector handed over is one class selector per piece of the class
    string, a full stop and the piece with a backslash before each special
    character, where the pieces are those between the runs of white space;
    the call returns the NodeList, or throws what [querySelectorAll]
    throws. *)
Theorem elementsByClass_selects_one_class_per_piece
    (RegExp : string -> string -> option (string -> bool))
    (querySelectorAll : Container -> string -> Outcome (list Entry))
    (fuel : nat) (h : Host) (className : Prim) (arg : ContainerArg)
    (getLive : Prim) (name : string) (c : Container) :
  checkParameter h className arg = Return (name, c) ->
  has_querySelectorAll c = true ->
  getLive <> PBool true ->
  getLive = PBool false \/ has_getElementsByClassName c = false ->
  elementsByClass RegExp querySelectorAll fuel h className arg getLive
  = Some (bind (querySelectorAll c
                  (classSelector (map escapeName (Text.split name))))
               (fun l => Return (Static l))).
Proof.
  intros Hcheck Hqsa Hlive Hstatic.
  assert (Hselect :
            staticMethods RegExp querySelectorAll fuel h c name
            = Some (bind (querySelectorAll c
                            (classSelector
                               (map escapeName (Text.split name))))
                         (fun l => Return (Static l)))).
  { unfold staticMethods, byQuerySelector. rewrite Hqsa. cbn [negb].
    rewrite selector_of_pieces.
    destruct (querySelectorAll c _) as [l | err]; reflexivity. }
  unfold elementsByClass. rewrite Hcheck. unfold tryMethods.
  destruct Hstatic as [Hfalse | Hnone].
  - rewrite Hfalse. exact Hselect.
  - assert (Hdefault :
              defaultMethods RegExp querySelectorAll fuel h c name
              = Some (bind (querySelectorAll c
                              (classSelector
                                 (map escapeName (Text.split name))))
                           (fun l => Return (Static l)))).
    { unfold defaultMethods, byClassName. rewrite Hnone. exact Hselect. }
    destruct getLive as [| | b | n | t]; try exact Hdefault.
    destruct b; [contradiction | exact Hselect].
Qed.

Lemma elementsByClass_selects_one_class_per_piece_witness :
  elementsByClass Text.literalRegExp
    (fun c selector =>
       if String.eqb selector ".md:flex.menu\_item"
       then Throw SyntaxError
       else if String.eqb selector ".md\:flex.menu\_item"
       then Return (below c) else Return [])
    20 Cases.modernHost (PStr "  md:flex
    menu_item ") Falsy (PBool false)
  = Some (Return (Static [AnElement 1 Cases.menuItem])).
Proof.
  apply (elementsByClass_selects_one_class_per_piece Text.literalRegExp
           (fun c selector =>
              if String.eqb selector ".md:flex.menu\_item"
              then Throw SyntaxError
              else if String.eqb selector ".md\:flex.menu\_item"
              then Return (below c) else Return [])
           20 Cases.modernHost (PStr "  md:flex
    menu_item ") Falsy (PBool false) "md:flex
    menu_item" Cases.modernPage).
  - reflexivity.
  - reflexivity.
  - discriminate.
  - left. reflexivity.
Defined.

(** *** Reading the selector back *)

(** How a selector of class selectors is read: a backslash makes the next
    character part of the name, a full stop ends the name. *)
Fixpoint readNames (l : list ascii) (piece : list ascii) : list string :=
  match l with
  | [] => [Text.text (rev piece)]
  | c :: r =>
      if (Text.code c =? 92)%nat then
        match r with
        | x :: r' => readNames r' (x :: piece)
        | [] => [Text.text (rev piece)]
        end
      else if (Text.code c =? 46)%nat
      then Text.text (rev piece) :: readNames r []
      else readNames r (c :: piece)
  end.

Definition readSelector (s : string) : option (list string) :=
  match Text.chars s with
  | c :: r => if (Text.code c =? 46)%nat then Some (readNames r []) else None
  | [] => None
  end.

Lemma not_special (c : ascii) :
  isSpecial c = false ->
  (Text.code c =? 92)%nat = false /\ (Text.code c =? 46)%nat = false.
Proof.
  unfold isSpecial. intros H. split; apply not_true_is_false; intros E;
    apply Nat.eqb_eq in E; rewrite E in H; discriminate.
Qed.

Lemma readNames_dotRuns (l piece : list ascii) (inRun : bool) :
  (inRun = true -> piece = []) ->
  readNames (dotRuns (escape l) inRun) piece = Text.splitFrom l piece inRun.
Proof.
  revert piece inRun. induction l as [| c r IH]; intros piece inRun Hrun;
    [reflexivity |].
  cbn [Text.splitFrom]. destruct (Text.isSpace c) eqn:Hc.
  - cbn [escape]. rewrite (space_not_special c Hc). cbn [dotRuns].
    rewrite Hc. destruct inRun.
    + rewrite (Hrun eq_refl). apply (IH [] true). reflexivity.
    + cbn [readNames]. change (Text.code "."%char) with 46%nat.
      cbn [Nat.eqb]. rewrite (IH [] true (fun _ => eq_refl)). reflexivity.
  - rewrite <- (IH (c :: piece) false) by discriminate.
    cbn [escape]. destruct (isSpecial c) eqn:Hs.
    + cbn [dotRuns]. change (Text.isSpace "\"%char) with false. cbn iota.
      rewrite Hc. cbn [readNames]. change (Text.code "\"%char) with 92%nat.
      rewrite Nat.eqb_refl. reflexivity.
    + cbn [dotRuns]. rewrite Hc. cbn [readNames].
      destruct (not_special c Hs) as [H92 H46]. rewrite H92, H46.
      reflexivity.
Qed.

(** X23.  The selector that [byQuerySelector] builds loses nothing: read
    back (a backslash makes the next character part of the name, a full
    stop ends the name), it names exactly the pieces of the class string
    between the runs of white space, whatever characters they hold. *)
Theorem selector_reads_back_as_the_pieces (className : string) :
  readSelector (selector className) = Some (Text.split className).
Proof.
  unfold readSelector, selector.
  change (Text.chars (String "." ?s)) with ("."%char :: Text.chars s).
  cbn [Text.chars list_ascii_of_string].
  fold (Text.chars
          (Text.text (dotRuns (escape (Text.chars className)) false))).
  rewrite chars_text. change (Text.code "."%char) with 46%nat.
  rewrite Nat.eqb_refl. unfold Text.split.
  rewrite (readNames_dotRuns _ [] false) by discriminate. reflexivity.
Qed.

(** *** The kind of list that comes back *)

(** What [staticMethods] can return: the NodeList of [querySelectorAll]
    where the container has that method, else the Array of the search
    through [getElementsByTagName] where it has that one, else [null]. *)
Definition staticKind (c : Container) (r : Result) : Prop :=
  match r with
  | Live _ => False
  | Static _ => has_querySelectorAll c = true
  | AnArray _ =>
      has_querySelectorAll c = false /\ has_getElementsByTagName c = true
  | Null =>
      has_querySelectorAll c = false /\ has_getElementsByTagName c = false
  end.

Lemma staticMethods_kind
    (RegExp : string -> string -> option (string -> bool))
    (querySelectorAll : Container -> string -> Outcome (list Entry))
    (fuel : nat) (h : Host) (c : Container) (name : string) (r : Result) :
  staticMethods RegExp querySelectorAll fuel h c name = Some (Return r) ->
  staticKind c r.
Proof.
  unfold staticMethods, byQuerySelector.
  destruct (has_querySelectorAll c) eqn:Hqsa; cbn [negb].
  - destruct (querySelectorAll c (selector name)) as [l | err]; cbn [bind];
      intros H; [| discriminate].
    injection H as <-. exact Hqsa.
  - unfold byTagNameBackup.
    destruct (has_getElementsByTagName c) eqn:Htag; cbn [negb].
    + destruct (containsCSSClass_loaded h); cbn [negb]; [| discriminate].
      destruct (tagNameLoop RegExp fuel h name (below c)) as [[l | err] |];
        intros H; try discriminate.
      injection H as <-. split; [exact Hqsa | exact Htag].
    + intros H. injection H as <-. split; [exact Hqsa | exact Htag].
Qed.

(** X27.  [elementsByClass] keeps to [getLive], for arguments that pass
    [checkParameter].  With [getLive] true it neither throws nor searches
    by itself: it returns the live collection of [getElementsByClassName],
    or [null] where the container lacks that method.  With [getLive] false
    it never returns a live collection: it hands the selector to
    [querySelectorAll] where the container has that method and returns its
    NodeList (or throws what it throws); else a value it returns is an
    Array where the container has [getElementsByTagName], and it returns
    [null] where it has not.  With a [getLive] that is no Boolean it
    returns the live collection where [getElementsByClassName] is there,
    and else does what it does for false. *)
Theorem elementsByClass_keeps_to_getLive
    (RegExp : string -> string -> option (string -> bool))
    (querySelectorAll : Container -> string -> Outcome (list Entry))
    (fuel : nat) (h : Host) (className : Prim) (arg : ContainerArg)
    (name : string) (c : Container) :
  checkParameter h className arg = Return (name, c) ->
  elementsByClass RegExp querySelectorAll fuel h className arg (PBool true)
  = Some (Return (if has_getElementsByClassName c
                  then Live (getElementsByClassName c name) else Null))
  /\ (forall r,
        elementsByClass RegExp querySelectorAll fuel h className arg
          (PBool false) = Some (Return r) ->
        staticKind c r)
  /\ (has_querySelectorAll c = true ->
      elementsByClass RegExp querySelectorAll fuel h className arg
        (PBool false)
      = Some (bind (querySelectorAll c (selector name))
                   (fun l => Return (Static l))))
  /\ (has_querySelectorAll c = false ->
      has_getElementsByTagName c = false ->
      elementsByClass RegExp querySelectorAll fuel h className arg
        (PBool false)
      = Some (Return Null))
  /\ (forall getLive,
        (forall b, getLive <> PBool b) ->
        elementsByClass RegExp querySelectorAll fuel h className arg getLive
        = if has_getElementsByClassName c
          then Some (Return (Live (getElementsByClassName c name)))
          else elementsByClass RegExp querySelectorAll fuel h className arg
                 (PBool false)).
Proof.
  intros Hcheck. unfold elementsByClass. rewrite Hcheck.
  split; [| split; [| split; [| split]]].
  - unfold tryMethods, liveMethods, byClassName.
    destruct (has_getElementsByClassName c); reflexivity.
  - intros r. unfold tryMethods. apply staticMethods_kind.
  - intros Hqsa. unfold tryMethods, staticMethods, byQuerySelector.
    rewrite Hqsa. cbn [negb].
    destruct (querySelectorAll c (selector name)); reflexivity.
  - intros Hqsa Htag.
    unfold tryMethods, staticMethods, byQuerySelector, byTagNameBackup.
    rewrite Hqsa, Htag. reflexivity.
  - intros getLive Hother.
    assert (Hdefault :
              tryMethods RegExp querySelectorAll fuel h c name getLive
              = defaultMethods RegExp querySelectorAll fuel h c name).
    { destruct getLive as [| | b | n | t]; try reflexivity.
      exfalso. apply (Hother b). reflexivity. }
    rewrite Hdefault. unfold defaultMethods, byClassName.
    destruct (has_getElementsByClassName c); reflexivity.
Qed.

Lemma elementsByClass_keeps_to_getLive_witness :
  elementsByClass Text.literalRegExp (fun _ _ => Throw SyntaxError) 20
    Cases.legacyHost (PStr "menu") Falsy (PBool true)
  = Some (Return Null)
  /\ (forall r,
        elementsByClass Text.literalRegExp (fun _ _ => Throw SyntaxError) 20
          Cases.legacyHost (PStr "menu") Falsy (PBool false)
        = Some (Return r) ->
        staticKind Cases.legacyPage r)
  /\ (has_querySelectorAll Cases.legacyPage = true ->
      elementsByClass Text.literalRegExp (fun _ _ => Throw SyntaxError) 20
        Cases.legacyHost (PStr "menu") Falsy (PBool false)
      = Some (Throw SyntaxError))
  /\ (has_querySelectorAll Cases.legacyPage = false ->
      has_getElementsByTagName Cases.legacyPage = false ->
      elementsByClass Text.literalRegExp (fun _ _ => Throw SyntaxError) 20
        Cases.legacyHost (PStr "menu") Falsy (PBool false)
      = Some (Return Null))
  /\ (forall getLive,
        (forall b, getLive <> PBool b) ->
        elementsByClass Text.literalRegExp (fun _ _ => Throw SyntaxError) 20
          Cases.legacyHost (PStr "menu") Falsy getLive
        = elementsByClass Text.literalRegExp (fun _ _ => Throw SyntaxError) 20
            Cases.legacyHost (PStr "menu") Falsy (PBool false)).
Proof.
  apply (elementsByClass_keeps_to_getLive Text.literalRegExp
           (fun _ _ => Throw SyntaxError) 20 Cases.legacyHost (PStr "menu")
           Falsy "menu" Cases.legacyPage).
  reflexivity.
Defined.

(** *** Names that the check of the class string drops *)

Lemma kept_inherited (ps : list string) :
  forallb inherited ps = true -> kept ps = [].
Proof.
  intros H. unfold kept.
  assert (Hall : forall x, In x (Text.dedupe ps) ->
            negb (inherited x) = false).
  { intros x Hx. apply dedupe_incl in Hx. rewrite forallb_forall in H.
    rewrite (H x Hx). reflexivity. }
  induction (Text.dedupe ps) as [| x r IH]; [reflexivity |].
  cbn [filter]. rewrite (Hall x (or_introl eq_refl)).
  apply IH. intros y Hy. apply Hall. right. exact Hy.
Qed.

(** With no name left to look for, [containsCSSClass] answers true. *)
Lemma containsCSSClass_no_names
    (RegExp : string -> string -> option (string -> bool))
    (Element_defined : bool) (fuel : nat) (e : Element) (v : Prim)
    (s : string) :
  style_backgroundSize e = Some v -> v <> PStr "string" ->
  (classListSupported e || classNameIsString e)%bool = true ->
  (String.length s < fuel)%nat ->
  forallb Text.isCss2Name (pieces s) = true ->
  kept (pieces s) = [] ->
  containsCSSClass RegExp Element_defined fuel (VElement e) (CString s)
    PUndefined
  = Some (Return true).
Proof.
  intros Hstyle Hv Hmethod Hfuel Hok Hkept. unfold containsCSSClass.
  rewrite (isElement_styled _ _ _ Hstyle). cbn [negb].
  rewrite (supportsCSS3_false _ _ Hstyle Hv).
  rewrite (checkClassParameter_string false fuel s Hfuel).
  rewrite (keepNames_accepted false (pieces s) Hok), Hkept.
  unfold ContainsCSSClass.tryMethods, byClassList.
  destruct (classListSupported e); [reflexivity |].
  cbn [orb] in Hmethod. cbn [bind]. unfold ContainsCSSClass.byClassName. rewrite Hmethod.
  rewrite ContainsCSSClassFacts.checkClassEntries_all.
  destruct (String.eqb _ EmptyString); reflexivity.
Qed.

Definition isAnElement (entry : Entry) : bool :=
  match entry with AnElement _ _ => true | NoElement _ => false end.

Lemma tagNameLoop_no_names
    (RegExp : string -> string -> option (string -> bool))
    (fuel : nat) (h : Host) (s : string) (l : list Entry) :
  (String.length s < fuel)%nat ->
  forallb Text.isCss2Name (pieces s) = true ->
  kept (pieces s) = [] ->
  (forall id e, In (AnElement id e) l ->
     (exists v, style_backgroundSize e = Some v /\ v <> PStr "string")
     /\ (classListSupported e || classNameIsString e)%bool = true) ->
  tagNameLoop RegExp fuel h s l = Some (Return (filter isAnElement l)).
Proof.
  intros Hfuel Hok Hkept. induction l as [| entry rest IH]; intros Hall;
    [reflexivity |].
  assert (Hrest : forall id e, In (AnElement id e) rest ->
            (exists v, style_backgroundSize e = Some v /\ v <> PStr "string")
            /\ (classListSupported e || classNameIsString e)%bool = true)
    by (intros id e Hin; apply (Hall id e); right; exact Hin).
  specialize (IH Hrest). cbn [tagNameLoop filter]. rewrite IH.
  destruct entry as [id e | id]; [| reflexivity].
  destruct (Hall id e (or_introl eq_refl)) as [[v [Hstyle Hv]] Hmethod].
  unfold ElementsByClass.isElement.
  rewrite (isElement_styled _ _ _ Hstyle).
  rewrite (containsCSSClass_no_names RegExp _ fuel e v s Hstyle Hv Hmethod
             Hfuel Hok Hkept).
  reflexivity.
Qed.

(** X28.  A class string whose names are all property names of
    [Object.prototype] (such as "constructor" or "toString") leaves
    [containsCSSClass] nothing to look for, since [entry in checked] holds
    for them from the start.  Hence the search of [elementsByClass]
    through [getElementsByTagName] returns every Element below the
    container that has [style] and [classList] or a string [className],
    whatever its classes are. *)
Theorem elementsByClass_fallback_returns_all_for_inherited_names
    (RegExp : string -> string -> option (string -> bool))
    (querySelectorAll : Container -> string -> Outcome (list Entry))
    (fuel : nat) (h : Host) (s : string) (arg : ContainerArg)
    (name : string) (c : Container) :
  checkParameter h (PStr s) arg = Return (name, c) ->
  has_querySelectorAll c = false ->
  has_getElementsByTagName c = true ->
  containsCSSClass_loaded h = true ->
  (String.length name < fuel)%nat ->
  forallb Text.isCss2Name (pieces name) = true ->
  forallb inherited (pieces name) = true ->
  (forall id e, In (AnElement id e) (below c) ->
     (exists v, style_backgroundSize e = Some v /\ v <> PStr "string")
     /\ (classListSupported e || classNameIsString e)%bool = true) ->
  elementsByClass RegExp querySelectorAll fuel h (PStr s) arg (PBool false)
  = Some (Return (AnArray (filter isAnElement (below c)))).
Proof.
  intros Hcheck Hqsa Htag Hloaded Hfuel Hok Hinherited Hall.
  unfold elementsByClass. rewrite Hcheck.
  unfold tryMethods, staticMethods, byQuerySelector. rewrite Hqsa.
  cbn [negb]. unfold byTagNameBackup. rewrite Htag, Hloaded. cbn [negb].
  rewrite (tagNameLoop_no_names RegExp fuel h name (below c) Hfuel Hok
             (kept_inherited _ Hinherited) Hall).
  reflexivity.
Qed.

Lemma elementsByClass_fallback_returns_all_for_inherited_names_witness :
  elementsByClass Text.literalRegExp (fun _ _ => Throw SyntaxError) 30
    Cases.oldPage (PStr "constructor toString") Falsy (PBool false)
  = Some (Return (AnArray [AnElement 1 Cases.legacyMenu;
                           AnElement 3 Cases.menuItem]))
  /\ getElementsByClassName (document Cases.oldPage) "constructor toString"
     = [].
Proof.
  split; [| reflexivity].
  apply (elementsByClass_fallback_returns_all_for_inherited_names
           Text.literalRegExp (fun _ _ => Throw SyntaxError) 30
           Cases.oldPage "constructor toString" Falsy
           "constructor toString" (document Cases.oldPage)).
  - reflexivity.
  - reflexivity.
  - reflexivity.
  - reflexivity.
  - simpl. lia.
  - reflexivity.
  - reflexivity.
  - intros id e Hin. cbn in Hin.
    repeat (destruct Hin as [Hin | Hin];
            [try discriminate; injection Hin as _ <-;
             (split; [exists (PStr EmptyString); split;
                       [reflexivity | discriminate]
                     | reflexivity]) |]).
    contradiction.
Defined.

(** *** An Element whose [className] is empty *)

Section OneArgument.

Variable RegExp : string -> string -> option (string -> bool).
Hypothesis whole_words :
  forall name, wordy name ->
    RegExp ("\b" ++ name ++ "\b")%string EmptyString
    = Text.literalRegExp ("\b" ++ name ++ "\b") EmptyString.

(** A call of [checkWithRegex] with one argument looks for the word
    "undefined" in the name. *)
Lemma checkWithRegex_one_argument (c : string) :
  wordy c ->
  checkWithRegex RegExp c None = Return (String.eqb "undefined" c).
Proof.
  intros Hc.
  change (checkWithRegex RegExp c None)
    with (checkWithRegex RegExp c (Some "undefined"%string)).
  rewrite (checkWithRegex_token RegExp whole_words c "undefined"
             wordy_undefined (wordy_wordyValue c Hc)).
  rewrite (tokens_word c (wordy_tokenish c Hc)). cbn [existsb].
  rewrite orb_false_r. reflexivity.
Qed.

Lemma allMatchOneParam_one_argument (names : list string) :
  Forall wordy names ->
  allMatchOneParam names (checkWithRegex RegExp)
  = Return (forallb (String.eqb "undefined") names).
Proof.
  induction 1 as [| c r Hc _ IH]; [reflexivity |].
  cbn [allMatchOneParam forallb].
  rewrite (checkWithRegex_one_argument c Hc). cbn [bind].
  destruct (String.eqb "undefined" c); [exact IH | reflexivity].
Qed.

(** X29.  [containsCSSClass] on an Element without [classList] whose
    [className] is the empty string: [checkClassEntries] then calls
    [checkWithRegex] with one argument, which tests the name against the
    pattern of the text "undefined".  For a class string of names of word
    characters the call returns true exactly when every name kept is
    "undefined": it finds the class "undefined" on an Element that has no
    class, and no other. *)
Theorem containsCSSClass_on_empty_className_finds_undefined
    (Element_defined : bool) (fuel : nat) (e : Element) (v : Prim)
    (s : string) (singleMatch : Prim) :
  classListSupported e = false ->
  classNameIsString e = true ->
  classOf e = EmptyString ->
  style_backgroundSize e = Some v -> v <> PStr "string" ->
  (String.length s < fuel)%nat ->
  forallb Text.isCss2Name (pieces s) = true ->
  Forall wordy (pieces s) ->
  containsCSSClass RegExp Element_defined fuel (VElement e) (CString s)
    singleMatch
  = Some (Return (forallb (String.eqb "undefined") (kept (pieces s)))).
Proof.
  intros Hlist Hcn Hempty Hstyle Hv Hfuel Hok Hwordy.
  unfold containsCSSClass.
  rewrite (isElement_styled _ _ _ Hstyle). cbn [negb].
  rewrite (supportsCSS3_false _ _ Hstyle Hv).
  rewrite (checkClassParameter_string false fuel s Hfuel).
  rewrite (keepNames_accepted false (pieces s) Hok).
  assert (Hkept : Forall wordy (kept (pieces s))).
  { apply Forall_forall. intros c Hc. unfold kept in Hc.
    apply filter_In in Hc. destruct Hc as [Hc _]. apply dedupe_incl in Hc.
    rewrite Forall_forall in Hwordy. apply Hwordy, Hc. }
  unfold ContainsCSSClass.tryMethods, byClassList. rewrite Hlist. cbn [bind].
  unfold ContainsCSSClass.byClassName. rewrite Hcn.
  rewrite ContainsCSSClassFacts.checkClassEntries_all.
  fold (classOf e). rewrite Hempty. cbn [String.eqb].
  rewrite (allMatchOneParam_one_argument _ Hkept). reflexivity.
Qed.

End OneArgument.

Lemma containsCSSClass_on_empty_className_finds_undefined_witness :
  containsCSSClass Text.literalRegExp false 20
    (VElement Cases.legacyPlainItem) (CString "undefined") PUndefined
  = Some (Return true).
Proof.
  apply (containsCSSClass_on_empty_className_finds_undefined
           Text.literalRegExp (fun name _ => eq_refl) false 20
           Cases.legacyPlainItem (PStr EmptyString) "undefined" PUndefined).
  - reflexivity.
  - reflexivity.
  - reflexivity.
  - reflexivity.
  - discriminate.
  - simpl. lia.
  - reflexivity.
  - repeat constructor; discriminate.
Defined.

End ElementsByClassFacts.

(* ================================================================= *)
(** ** src/class/AddCSSClass.js: adding through [className] or the
       attribute methods *)

Module ClassAppendFacts.
Import JS ClassParam AddCSSClass.
Import TextFacts TokenFacts WordFacts ClassParamFacts ClassAddFacts.

(** What the search by whole words and the concatenation do to the list of
    tokens: nothing when [c] is there, else [c] goes behind the tokens. *)
Definition appendToken (T : list string) (c : string) : list string :=
  if existsb (String.eqb c) T then T else T ++ [c].











Lemma appendToken_absent (c : string) : appendToken [] c = [c].
Proof. reflexivity. Qed.

Section Engine.

(** The RegExp engine of the host; on the patterns [\bname\b] for names of
    word characters it is the sample engine. *)
Variable RegExp : string -> string -> option (string -> bool).
Hypothesis whole_words :
  forall name, wordy name ->
    RegExp ("\b" ++ name ++ "\b")%string EmptyString
    = Text.literalRegExp ("\b" ++ name ++ "\b") EmptyString.











End Engine.


End ClassAppendFacts.

(* ================================================================= *)
(** ** src/comment/GetAllComments.js: what the call returns *)

Module CommentSearchFacts.
Import JS Dom GetAllComments DomFacts GetAllCommentsFacts.

(** The nodes below a node, in document order. *)
Fixpoint below (n : Node) : list Node :=
  match n with
  | mkNode _ _ _ _ children =>
      (fix forest (l : list Node) : list Node :=
         match l with
         | [] => []
         | c :: r => (c :: below c) ++ forest r
         end) children
  end.

(** The nodes of a list and below them, in document order. *)
Definition belowAll (l : list Node) : list Node :=
  flat_map (fun c => c :: below c) l.

(** The Comments that a search is after: all of them, or those whose text
    the expression matches. *)
Definition wanted (search : Search) (n : Node) : bool :=
  ((nodeType n =? COMMENT_NODE)
   && match search with
      | Some test => test (nodeData n)
      | None => true
      end)%bool.

Lemma below_children (n : Node) : below n = belowAll (childNodes n).
Proof.
  destruct n as [id type ps data children]. cbn [below childNodes].
  induction children as [| c r IH]; [reflexivity |].
  cbn [belowAll flat_map]. rewrite IH. reflexivity.
Qed.

Lemma getCommentText_data (n : Node) :
  readable n = true -> getCommentText n = Return (nodeData n).
Proof.
  unfold readable, getCommentText. intros H.
  destruct (has "nodeValue" n); [reflexivity |].
  destruct (has "textContent" n); [reflexivity |].
  destruct (has "innerHTML" n); [reflexivity | discriminate].
Qed.

(** What the two conditions on a tree say of a child. *)
Lemma leaves_child (n c : Node) :
  commentsAreLeaves n = true -> In c (childNodes n) ->
  commentsAreLeaves c = true
  /\ ((nodeType c =? COMMENT_NODE) = true -> childNodes c = []).
Proof.
  destruct n as [id type ps data children]. unfold commentsAreLeaves.
  cbn [allDescendants childNodes]. intros H Hc.
  rewrite forallb_forall in H. specialize (H c Hc).
  apply andb_prop in H. destruct H as [Hp Hsub]. split; [exact Hsub |].
  intros Hcomment. rewrite Hcomment in Hp. cbn [negb orb] in Hp.
  destruct (childNodes c); [reflexivity | discriminate].
Qed.

Lemma readable_child (search : Search) (n c : Node) :
  commentsReadable search n = true -> In c (childNodes n) ->
  commentsReadable search c = true
  /\ ((nodeType c =? COMMENT_NODE) = true ->
      walkerFilter search c = Return (wanted search c)).
Proof.
  destruct search as [test |].
  - destruct n as [id type ps data children]. unfold commentsReadable.
    cbn [allDescendants childNodes]. intros H Hc.
    rewrite forallb_forall in H. specialize (H c Hc).
    apply andb_prop in H. destruct H as [Hp Hsub]. split; [exact Hsub |].
    intros Hcomment. rewrite Hcomment in Hp. cbn [negb orb] in Hp.
    unfold walkerFilter, wanted.
    rewrite (getCommentText_data c Hp), Hcomment. reflexivity.
  - intros _ _. split; [reflexivity |]. intros Hcomment.
    unfold walkerFilter, wanted. rewrite Hcomment. reflexivity.
Qed.

Lemma siblingValidFn_wanted (h : Host) (search : Search) (c : Node) :
  ((nodeType c =? COMMENT_NODE) = true ->
   walkerFilter search c = Return (wanted search c)) ->
  siblingValidFn h search c = Return (wanted search c).
Proof.
  intros Hfilter. unfold siblingValidFn. rewrite isComment_nodeType.
  destruct (nodeType c =? COMMENT_NODE) eqn:Hc.
  - specialize (Hfilter eq_refl). unfold walkerFilter in Hfilter.
    destruct search; [exact Hfilter |]. unfold wanted. rewrite Hc.
    reflexivity.
  - unfold wanted. rewrite Hc. destruct search; reflexivity.
Qed.

(** The TreeWalker finds the wanted Comments in document order. *)
Lemma walkFrom_wanted (search : Search) (n : Node) :
  commentsAreLeaves n = true -> commentsReadable search n = true ->
  walkFrom (walkerFilter search) n
  = Return (filter (wanted search) (below n)).
Proof.
  induction n as [id type ps data children IH] using Node_induction.
  intros Hleaves Hread. rewrite below_children. unfold walkFrom.
  cbn [childNodes].
  assert (Hl : forall c, In c children ->
            commentsAreLeaves c = true
            /\ ((nodeType c =? COMMENT_NODE) = true -> childNodes c = []))
    by (intros c Hc; apply (leaves_child _ c Hleaves Hc)).
  assert (Hr : forall c, In c children ->
            commentsReadable search c = true
            /\ ((nodeType c =? COMMENT_NODE) = true ->
                walkerFilter search c = Return (wanted search c)))
    by (intros c Hc; apply (readable_child search _ c Hread Hc)).
  clear Hleaves Hread.
  induction children as [| c r IHr]; [reflexivity |].
  inversion IH as [| ? ? IHc IHrest]; subst.
  destruct (Hl c (or_introl eq_refl)) as [Hlc Hleaf].
  destruct (Hr c (or_introl eq_refl)) as [Hrc Hfilter].
  specialize (IHc Hlc Hrc). unfold walkFrom in IHc.
  cbn [concatOutcomes]. fold (concatOutcomes (visit (walkerFilter search))).
  rewrite (IHr IHrest (fun x Hx => Hl x (or_intror Hx))
             (fun x Hx => Hr x (or_intror Hx))).
  cbn [belowAll flat_map]. fold (belowAll r).
  rewrite filter_app.
  assert (Hvisit : visit (walkerFilter search) c
                   = Return (filter (wanted search) (c :: below c))).
  { destruct c as [cid ctype cps cdata cchildren] eqn:Ec.
    cbn [visit]. cbn [nodeType childNodes] in *.
    destruct (ctype =? COMMENT_NODE) eqn:Hcomment.
    - rewrite (Hfilter eq_refl), (Hleaf eq_refl). cbn [bind concatOutcomes].
      cbn [below filter].
      destruct (wanted search (mkNode cid ctype cps cdata [])); reflexivity.
    - rewrite IHc. cbn [filter]. unfold wanted at 2. cbn [nodeType].
      rewrite Hcomment. reflexivity. }
  rewrite Hvisit. reflexivity.
Qed.

(** So does the traversal along the sibling pointers. *)
Lemma bySiblingTraversal_wanted (h : Host) (search : Search) (n : Node) :
  commentsAreLeaves n = true -> commentsReadable search n = true ->
  bySiblingTraversal (siblingValidFn h search) n
  = Return (filter (wanted search) (below n)).
Proof.
  induction n as [id type ps data children IH] using Node_induction.
  intros Hleaves Hread. rewrite below_children.
  cbn [bySiblingTraversal childNodes].
  assert (Hl : forall c, In c children ->
            commentsAreLeaves c = true
            /\ ((nodeType c =? COMMENT_NODE) = true -> childNodes c = []))
    by (intros c Hc; apply (leaves_child _ c Hleaves Hc)).
  assert (Hr : forall c, In c children ->
            commentsReadable search c = true
            /\ ((nodeType c =? COMMENT_NODE) = true ->
                walkerFilter search c = Return (wanted search c)))
    by (intros c Hc; apply (readable_child search _ c Hread Hc)).
  clear Hleaves Hread.
  change (filter (wanted search) (belowAll children))
    with ([] ++ filter (wanted search) (belowAll children)).
  generalize (@nil Node) as result.
  induction children as [| c r IHr]; intros result.
  - cbn [siblingLoop belowAll flat_map filter]. rewrite app_nil_r.
    reflexivity.
  - inversion IH as [| ? ? IHc IHrest]; subst.
    destruct (Hl c (or_introl eq_refl)) as [Hlc Hleaf].
    destruct (Hr c (or_introl eq_refl)) as [Hrc Hfilter].
    specialize (IHc Hlc Hrc).
    specialize (IHr IHrest (fun x Hx => Hl x (or_intror Hx))
                  (fun x Hx => Hr x (or_intror Hx))).
    cbn [siblingLoop]. rewrite (siblingValidFn_wanted h search c Hfilter).
    cbn [bind belowAll flat_map]. fold (belowAll r).
    change ((c :: below c) ++ belowAll r) with (c :: below c ++ belowAll r).
    cbn [filter]. rewrite filter_app.
    destruct (wanted search c) eqn:Hw.
    + assert (Hcomment : (nodeType c =? COMMENT_NODE) = true).
      { unfold wanted in Hw. apply andb_prop in Hw. tauto. }
      rewrite IHr. rewrite below_children, (Hleaf Hcomment).
      cbn [belowAll flat_map filter app]. rewrite <- app_assoc. reflexivity.
    + unfold firstChild. destruct (childNodes c) as [| g gs] eqn:Hkids.
      * cbn [hd_error]. rewrite IHr. rewrite below_children, Hkids.
        reflexivity.
      * cbn [hd_error]. rewrite IHc. cbn [bind]. rewrite IHr.
        rewrite app_assoc. reflexivity.
Qed.

(** X25.  [getAllComments] on a tree in which Comments have no children
    and, when there is a search phrase, offer their text: where the host
    has a TreeWalker, or the container has the sibling pointers or
    [childNodes], the call returns exactly the Comments below the
    container (those whose text the search expression matches, when there
    is one), each once, in document order; the container itself is never
    among them. *)
Theorem getAllComments_returns_the_comments_in_document_order
    (RegExp : string -> string -> option (string -> bool))
    (fuel : nat) (h : Host) (options : OptionsArg)
    (container : Node) (search : Search) :
  checkOptions RegExp h options = Return (container, search) ->
  (size container <= fuel)%nat ->
  commentsAreLeaves container = true ->
  commentsReadable search container = true ->
  (createTreeWalker h
   || (has "firstChild" container && has "nextSibling" container)
   || has "childNodes" container)%bool = true ->
  getAllComments RegExp fuel h options
  = Some (Return (filter (wanted search) (below container))).
Proof.
  intros Hcheck Hfuel Hleaves Hread Hsupported.
  unfold getAllComments. rewrite Hcheck. cbn [bindF fst snd].
  rewrite (tryMethods_cascade fuel h container search Hfuel).
  rewrite (walkFrom_wanted search container Hleaves Hread).
  rewrite (bySiblingTraversal_wanted h search container Hleaves Hread).
  destruct (createTreeWalker h); [reflexivity |].
  destruct (has "firstChild" container && has "nextSibling" container)%bool;
    [reflexivity |].
  destruct (has "childNodes" container); [reflexivity | discriminate].
Qed.

Lemma getAllComments_returns_the_comments_in_document_order_witness :
  getAllComments Text.literalRegExp 6 Samples.currentCommentsHost
    Cases.searchTodo
  = Some (Return [Samples.leaf 51 COMMENT_NODE Samples.currentProps "todo: a";
                  Samples.leaf 55 COMMENT_NODE Samples.currentProps "TODO b"]).
Proof.
  apply (getAllComments_returns_the_comments_in_document_order
           Text.literalRegExp 6 Samples.currentCommentsHost Cases.searchTodo
           Cases.commentedDiv (Text.literalRegExp "todo" "i")).
  - reflexivity.
  - vm_compute. lia.
  - reflexivity.
  - reflexivity.
  - reflexivity.
Defined.

End CommentSearchFacts.

(* ================================================================= *)
(** ** src/replace/ReplaceNode.js: the lists of the new nodes *)

Module ReplaceListsFacts.
Import JS Dom ReplaceLists.
Local Open Scope nat_scope.

(** The nodes that the entries of a list hold, in order. *)
Definition nodesOf (entry : Copy) : list Node :=
  match entry with
  | ANode n => [n]
  | AnArray nodes => nodes
  end.

Definition allNodes (entries : list Copy) : list Node :=
  flat_map nodesOf entries.

(** What a turn of the outer loop of [copyListNodes] adds. *)
Definition slots (bound : nat) (entry : Copy) : list (option Node) :=
  match entry with
  | ANode n => [Some n]
  | AnArray nodes => map (nth_error nodes) (seq 0 bound)
  end.

(** An Array entry has as many entries as the loop reads. *)
Definition fits (bound : nat) (entry : Copy) : Prop :=
  match entry with
  | ANode _ => True
  | AnArray nodes => List.length nodes = bound
  end.

Definition arrays (entries : list Copy) : nat :=
  List.length
    (filter (fun e => match e with AnArray _ => true | ANode _ => false end)
            entries).

Definition singles (entries : list Copy) : nat :=
  List.length
    (filter (fun e => match e with AnArray _ => false | ANode _ => true end)
            entries).

Lemma push_each {A : Type} (l acc : list A) :
  fold_left (fun t x => t ++ [x]) l acc = acc ++ l.
Proof.
  revert acc. induction l as [| x r IH]; intros acc; cbn [fold_left].
  - rewrite app_nil_r. reflexivity.
  - rewrite IH, <- app_assoc. reflexivity.
Qed.

Lemma innerLoop_slots (bound : nat) (nodes : list Node)
    (newNodes : list (option Node)) :
  innerLoop bound nodes newNodes
  = newNodes ++ map (nth_error nodes) (seq 0 bound).
Proof.
  unfold innerLoop. generalize (seq 0 bound) as indexes. intros indexes.
  revert newNodes. induction indexes as [| i r IH]; intros newNodes;
    cbn [fold_left map].
  - rewrite app_nil_r. reflexivity.
  - rewrite IH, <- app_assoc. reflexivity.
Qed.

Lemma outerLoop_slots (bound : nat) (entries : list Copy)
    (newNodes : list (option Node)) :
  fold_left
    (fun newNodes outerEntry =>
       match outerEntry with
       | AnArray nodes => innerLoop bound nodes newNodes
       | ANode n => newNodes ++ [Some n]
       end)
    entries newNodes
  = newNodes ++ flat_map (slots bound) entries.
Proof.
  revert newNodes. induction entries as [| e r IH]; intros newNodes;
    cbn [fold_left flat_map].
  - rewrite app_nil_r. reflexivity.
  - rewrite IH, app_assoc. f_equal.
    destruct e as [n | nodes]; [reflexivity | apply innerLoop_slots].
Qed.

Lemma read_all {A : Type} (l : list A) :
  map (nth_error l) (seq 0 (List.length l)) = map Some l.
Proof.
  induction l as [| x r IH]; [reflexivity |].
  cbn [List.length seq map nth_error]. f_equal.
  rewrite <- seq_shift, map_map. exact IH.
Qed.

Lemma read_beyond {A : Type} (l : list A) (bound : nat) :
  List.length l < bound -> In None (map (nth_error l) (seq 0 bound)).
Proof.
  intros H. apply in_map_iff. exists (List.length l). split.
  - apply nth_error_None. lia.
  - apply in_seq. lia.
Qed.

Lemma slots_length (bound : nat) (entries : list Copy) :
  List.length (flat_map (slots bound) entries)
  = singles entries + arrays entries * bound.
Proof.
  unfold singles, arrays.
  induction entries as [| e r IH]; [reflexivity |].
  cbn [flat_map filter]. rewrite length_app, IH.
  destruct e as [n | nodes]; cbn [slots List.length].
  - lia.
  - rewrite length_map, length_seq. lia.
Qed.

Lemma fits_slots (bound : nat) (entries : list Copy) :
  Forall (fits bound) entries ->
  flat_map (slots bound) entries = map Some (allNodes entries).
Proof.
  unfold allNodes. induction 1 as [| e r He _ IH]; [reflexivity |].
  cbn [flat_map]. rewrite map_app, IH. f_equal.
  destruct e as [n | nodes]; [reflexivity |].
  cbn [fits] in He. cbn [slots nodesOf]. rewrite <- He. apply read_all.
Qed.

Lemma slots_long (bound : nat) (entries : list Copy) :
  ~ In None (flat_map (slots bound) entries) ->
  Forall (fun e => List.length (slots bound e) <= List.length (nodesOf e))
         entries.
Proof.
  intros Hno. apply Forall_forall. intros e He.
  destruct e as [n | nodes]; [cbn; lia |].
  cbn [slots nodesOf]. rewrite length_map, length_seq.
  destruct (Nat.le_gt_cases bound (List.length nodes)) as [Hle | Hlt];
    [exact Hle |].
  exfalso. apply Hno. apply in_flat_map. exists (AnArray nodes).
  split; [exact He | apply read_beyond, Hlt].
Qed.

Lemma equal_sums (bound : nat) (entries : list Copy) :
  Forall (fun e => List.length (slots bound e) <= List.length (nodesOf e))
         entries ->
  List.length (flat_map (slots bound) entries)
  = List.length (flat_map nodesOf entries) ->
  Forall (fits bound) entries.
Proof.
  induction 1 as [| e r He Hr IH]; intros Hsum; [constructor |].
  cbn [flat_map] in Hsum. rewrite !length_app in Hsum.
  assert (Hle : List.length (flat_map (slots bound) r)
                <= List.length (flat_map nodesOf r)).
  { clear -Hr. induction Hr as [| x y Hx _ IHy]; [apply Nat.le_refl |].
    cbn [flat_map]. rewrite !length_app. lia. }
  constructor; [| apply IH; lia].
  destruct e as [n | nodes]; [exact I |].
  cbn [slots nodesOf fits] in *. rewrite length_map, length_seq in *. lia.
Qed.

(** X26.  [copyListNodes(listCopies)] on a list that is not empty returns
    true and pushes one Array to [replNode].  Its inner loop runs up to
    the length of [listCopies], not of the Array entry it reads: an Array
    entry contributes as many slots as [listCopies] has entries (its first
    entries, then [undefined]), a node contributes itself.  So what is
    recorded is the nodes of the entries in order exactly when every Array
    entry has as many entries as [listCopies] has. *)
Theorem copyListNodes_reads_each_array_up_to_the_length_of_the_list
    (entries : list Copy) (replNode : list Recorded) :
  entries <> [] ->
  exists newNodes,
    copyListNodes (Some entries) replNode
    = (true, replNode ++ [RList newNodes])
    /\ newNodes = flat_map (slots (List.length entries)) entries
    /\ List.length newNodes
       = singles entries + arrays entries * List.length entries
    /\ (newNodes = map Some (allNodes entries)
        <-> Forall (fits (List.length entries)) entries).
Proof.
  intros Hne. exists (flat_map (slots (List.length entries)) entries).
  split; [| split; [reflexivity | split]].
  - unfold copyListNodes. destruct entries as [| e r]; [contradiction |].
    rewrite outerLoop_slots. reflexivity.
  - apply slots_length.
  - split.
    + intros Heq. apply equal_sums.
      * apply slots_long. rewrite Heq. intros Hin.
        apply in_map_iff in Hin. destruct Hin as [x [Hx _]]. discriminate.
      * rewrite Heq, length_map. reflexivity.
    + apply fits_slots.
Qed.

Lemma copyListNodes_reads_each_array_up_to_the_length_of_the_list_witness :
  exists newNodes,
    copyListNodes
      (Some (snd (copyChildren Cases.commentedDiv [ANode Samples.currentDiv]
                    false)))
      []
    = (true, [RList newNodes])
    /\ newNodes
       = [Some Samples.currentDiv;
          Some (Samples.leaf 51 COMMENT_NODE Samples.currentProps "todo: a");
          nth_error (childNodes Cases.commentedDiv) 1]
    /\ List.length newNodes = 3
    /\ (newNodes
        = map Some (Samples.currentDiv :: childNodes Cases.commentedDiv)
        <-> Forall (fits 2)
              [ANode Samples.currentDiv;
               AnArray (childNodes Cases.commentedDiv)]).
Proof.
  apply (copyListNodes_reads_each_array_up_to_the_length_of_the_list
           [ANode Samples.currentDiv; AnArray (childNodes Cases.commentedDiv)]
           []).
  discriminate.
Defined.

End ReplaceListsFacts.

(* ================================================================= *)
(** ** src/class/AddCSSClass.js and src/class/ContainsCSSClass.js: a class
       that was added is found *)

Module ClassRoundTripFacts.
Import JS ClassParam.
Import TextFacts TokenFacts WordFacts ClassParamFacts ClassSearchFacts.
Import WordSearchFacts ClassAddFacts ClassAppendFacts ElementsByClassFacts.







Section Engine.

(** The RegExp engine of the host; on the patterns [\bname\b] for names of
    word characters it is the sample engine. *)
Variable RegExp : string -> string -> option (string -> bool).
Hypothesis whole_words :
  forall name, wordy name ->
    RegExp ("\b" ++ name ++ "\b")%string EmptyString
    = Text.literalRegExp ("\b" ++ name ++ "\b") EmptyString.






End Engine.


End ClassRoundTripFacts.
